(** * ludo-king-go: the game engine, the scripted AI, the room layer and the
      protocol validator, embedded in Rocq.

    Conventions of the embedding.
    - Go's [int] and [int64] are modelled in [Z].  Positions, dice values
      and seat indices stay far inside the 64-bit range in every state the
      engine builds, so their arithmetic is written without wrap-around; the
      per-player roll counter, which grows without bound, carries its
      64-bit wrap-around ([wrap64]).  Go's [%] truncates towards zero and
      is [Z.rem].
    - Tokens are Go pointers ([*models.Token]) shared between a player's
      token slice and the board's cells.  They are modelled as addresses
      into an explicit token store ([Heap]); a cell holds an optional
      address.
    - Players are addressed by their seat (the index in [Room.Players]).
    - A run-time panic (index out of range, nil dereference, division by
      zero) ends the Go process; it is the [Panic] outcome of [Res].
    - The engine's callbacks are the closures installed by the caller; what
      they are called with is appended to an event log.
    - Wall-clock stamps ([time.Now]) are left out. *)

From Stdlib Require Import ZArith String Ascii List Lia Bool.
From stdpp Require Import base option list gmap strings.

Local Open Scope string_scope.
Local Open Scope list_scope.
Local Open Scope Z_scope.

(** ** Outcomes of Go code that may panic *)

Inductive Res (A : Type) : Type :=
| Ok (a : A)
| Panic.
Arguments Ok {A} a.
Arguments Panic {A}.

Definition res_bind {A B : Type} (m : Res A) (k : A -> Res B) : Res B :=
  match m with
  | Ok a => k a
  | Panic => Panic
  end.

#[global] Instance Res_ret : MRet Res := fun A a => Ok a.
#[global] Instance Res_bind : MBind Res := fun A B k m => res_bind m k.

(** [l[i]] on a Go slice or array: panics outside [0, len). *)
Definition index {A : Type} (l : list A) (i : Z) : Res A :=
  if 0 <=? i then
    match l !! Z.to_nat i with
    | Some x => Ok x
    | None => Panic
    end
  else Panic.

(** Dereference of a pointer held in a store. *)
Definition deref {A : Type} (h : list A) (p : nat) : Res A :=
  match h !! p with
  | Some x => Ok x
  | None => Panic
  end.

(** 64-bit two's complement wrap-around of Go's [int]. *)
Definition wrap64 (x : Z) : Z :=
  (x + 2 ^ 63) mod 2 ^ 64 - 2 ^ 63.

(** ** internal/shared/constants *)

Module constants.

Definition MaxPlayers : Z := 4.
Definition MinPlayers : Z := 2.
Definition TotalCells : Z := 52.
Definition HomeCells : Z := 6.
Definition TokensPerPlayer : Z := 4.
Definition DiceMin : Z := 1.
Definition DiceMax : Z := 6.
Definition RollToStart : Z := 6.
Definition RollForExtraTurn : Z := 6.
Definition MaxConsecutiveSix : Z := 3.
Definition TurnTimeout : Z := 30.

Definition ErrInvalidMove : string := "INVALID_MOVE".
Definition ErrNotYourTurn : string := "NOT_YOUR_TURN".
Definition ErrGameFull : string := "GAME_FULL".
Definition ErrRoomNotFound : string := "ROOM_NOT_FOUND".
Definition ErrUnauthorized : string := "UNAUTHORIZED".

(** [type PlayerColor string] *)
Abbreviation PlayerColor := string (only parsing).
Definition ColorRed : PlayerColor := "red".
Definition ColorBlue : PlayerColor := "blue".
Definition ColorGreen : PlayerColor := "green".
Definition ColorYellow : PlayerColor := "yellow".

(** [type GameState string] *)
Abbreviation GameState := string (only parsing).
Definition StateWaiting : GameState := "waiting".
Definition StatePlaying : GameState := "playing".
Definition StateFinished : GameState := "finished".

(** The two colour tables are Go maps; reading a missing key yields 0. *)
Definition StartingPositions_map : gmap string Z :=
  <[ColorRed := 0]> (<[ColorBlue := 13]> (<[ColorGreen := 26]>
    (<[ColorYellow := 39]> ∅))).

Definition StartingPositions (c : PlayerColor) : Z :=
  default 0 (StartingPositions_map !! c).

Definition SafePositions : list Z := [0; 8; 13; 21; 26; 34; 39; 47].

Definition HomeStretchStart_map : gmap string Z :=
  <[ColorRed := 50]> (<[ColorBlue := 11]> (<[ColorGreen := 24]>
    (<[ColorYellow := 37]> ∅))).

Definition HomeStretchStart (c : PlayerColor) : Z :=
  default 0 (HomeStretchStart_map !! c).

End constants.

(** ** internal/shared/models *)

Module models.
Import constants.

Abbreviation TokenPtr := nat (only parsing).

Module Token.
Record t : Type := mk {
  ID : Z;
  Color : PlayerColor;
  Position : Z;        (* -1 = base, 0-51 = ring, 52-57 = home stretch *)
  IsHome : bool;
  IsSafe : bool
}.
Definition set_Position (v : Z) (k : t) : t :=
  mk (ID k) (Color k) v (IsHome k) (IsSafe k).
Definition set_IsHome (v : bool) (k : t) : t :=
  mk (ID k) (Color k) (Position k) v (IsSafe k).
Definition set_IsSafe (v : bool) (k : t) : t :=
  mk (ID k) (Color k) (Position k) (IsHome k) v.
End Token.

(** The token store: [TokenPtr] is an index into it. *)
Abbreviation Heap := (list Token.t) (only parsing).

Module Player.
Record t : Type := mk {
  ID : Z;
  Username : string;
  Color : PlayerColor;
  Tokens : list TokenPtr;
  TokensAtHome : Z;
  IsAI : bool;
  AILevel : string;
  IsReady : bool;
  IsConnected : bool;
  ConsecutiveSix : Z
}.
Definition set_ConsecutiveSix (v : Z) (p : t) : t :=
  mk (ID p) (Username p) (Color p) (Tokens p) (TokensAtHome p) (IsAI p)
     (AILevel p) (IsReady p) (IsConnected p) v.
Definition set_TokensAtHome (v : Z) (p : t) : t :=
  mk (ID p) (Username p) (Color p) (Tokens p) v (IsAI p)
     (AILevel p) (IsReady p) (IsConnected p) (ConsecutiveSix p).
Definition set_IsReady (v : bool) (p : t) : t :=
  mk (ID p) (Username p) (Color p) (Tokens p) (TokensAtHome p) (IsAI p)
     (AILevel p) v (IsConnected p) (ConsecutiveSix p).
Definition set_AI (level : string) (p : t) : t :=
  mk (ID p) (Username p) (Color p) (Tokens p) (TokensAtHome p) true
     level true (IsConnected p) (ConsecutiveSix p).
End Player.

Module Room.
Record t : Type := mk {
  ID : string;
  Name : string;
  HostID : Z;
  Players : list Player.t;
  MaxPlayers : Z;
  GameMode : string;
  State : GameState;
  CurrentTurn : Z;
  LastDice : Z;
  IsPrivate : bool;
  Password : string
}.
Definition set_HostID (v : Z) (r : t) : t :=
  mk (ID r) (Name r) v (Players r) (MaxPlayers r) (GameMode r) (State r)
     (CurrentTurn r) (LastDice r) (IsPrivate r) (Password r).
Definition set_Players (v : list Player.t) (r : t) : t :=
  mk (ID r) (Name r) (HostID r) v (MaxPlayers r) (GameMode r) (State r)
     (CurrentTurn r) (LastDice r) (IsPrivate r) (Password r).
Definition set_State (v : GameState) (r : t) : t :=
  mk (ID r) (Name r) (HostID r) (Players r) (MaxPlayers r) (GameMode r) v
     (CurrentTurn r) (LastDice r) (IsPrivate r) (Password r).
Definition set_CurrentTurn (v : Z) (r : t) : t :=
  mk (ID r) (Name r) (HostID r) (Players r) (MaxPlayers r) (GameMode r)
     (State r) v (LastDice r) (IsPrivate r) (Password r).
Definition set_LastDice (v : Z) (r : t) : t :=
  mk (ID r) (Name r) (HostID r) (Players r) (MaxPlayers r) (GameMode r)
     (State r) (CurrentTurn r) v (IsPrivate r) (Password r).
End Room.

Module Cell.
Record t : Type := mk {
  Position : Z;
  IsSafe : bool;
  Token : option TokenPtr
}.
Definition set_Token (v : option TokenPtr) (c : t) : t :=
  mk (Position c) (IsSafe c) v.
End Cell.

Module Board.
Record t : Type := mk {
  Cells : list Cell.t;                          (* [52]*Cell *)
  HomeStretches : gmap string (list Cell.t)     (* map[PlayerColor][6]*Cell *)
}.
Definition set_Cells (v : list Cell.t) (b : t) : t := mk v (HomeStretches b).
Definition set_HomeStretches (v : gmap string (list Cell.t)) (b : t) : t :=
  mk (Cells b) v.
End Board.

Module TurnAction.
Record t : Type := mk {
  PlayerID : Z;
  DiceValue : Z;
  TokenMoved : TokenPtr;
  FromPos : Z;
  ToPos : Z;
  Captured : option TokenPtr
}.
End TurnAction.

Module Game.
Record t : Type := mk {
  Room : Room.t;
  Board : Board.t;
  TurnHistory : list TurnAction.t;
  Winner : option nat;          (* seat of the winner *)
  Rankings : list nat           (* seats *)
}.
Definition set_Room (v : Room.t) (g : t) : t :=
  mk v (Board g) (TurnHistory g) (Winner g) (Rankings g).
Definition set_Board (v : Board.t) (g : t) : t :=
  mk (Room g) v (TurnHistory g) (Winner g) (Rankings g).
Definition set_TurnHistory (v : list TurnAction.t) (g : t) : t :=
  mk (Room g) (Board g) v (Winner g) (Rankings g).
Definition set_Winner (v : option nat) (g : t) : t :=
  mk (Room g) (Board g) (TurnHistory g) v (Rankings g).
Definition set_Rankings (v : list nat) (g : t) : t :=
  mk (Room g) (Board g) (TurnHistory g) (Winner g) v.
End Game.

(** [make([]*Token, 4)] filled with fresh tokens in base: the four tokens
    are allocated at the end of the store. *)
Definition newTokens (color : PlayerColor) : list Token.t :=
  map (fun i => Token.mk i color (-1) false true) [0; 1; 2; 3].

Definition NewPlayer (h : Heap) (id : Z) (username : string)
    (color : PlayerColor) : Heap * Player.t :=
  let base := length h in
  (h ++ newTokens color,
   Player.mk id username color
     [base; S base; S (S base); S (S (S base))]
     0 false "" false true 0).

Definition NewAIPlayer (h : Heap) (color : PlayerColor) (level : string)
    : Heap * Player.t :=
  let '(h', player) := NewPlayer h 0 "AI Player" color in
  (h', Player.set_AI level player).

Fixpoint contains (slice : list Z) (val : Z) : bool :=
  match slice with
  | [] => false
  | item :: rest => if item =? val then true else contains rest val
  end.

Definition NewBoard : Board.t :=
  let cells :=
    map (fun i : nat =>
           Cell.mk (Z.of_nat i) (contains SafePositions (Z.of_nat i)) None)
        (seq 0 52) in
  let stretch :=
    map (fun i : nat => Cell.mk (52 + Z.of_nat i) true None) (seq 0 6) in
  Board.mk cells (const stretch <$> StartingPositions_map).

End models.

(** ** internal/server/game: the engine *)

Module game.
Import constants models.

(** [EngineCallbacks]: a field is [true] when the closure is installed
    (non-nil). *)
Record EngineCallbacks : Type := mkCallbacks {
  OnDiceRolled : bool;
  OnTokenMoved : bool;
  OnTokenCaptured : bool;
  OnTurnChanged : bool;
  OnGameOver : bool
}.

(** One constructor per callback, carrying the arguments of the call. *)
Inductive Event : Type :=
| DiceRolled (playerID value : Z) (extraTurn : bool)
| TokenMoved (playerID : Z) (token : TokenPtr) (from to : Z)
| TokenCaptured (capturer victim : Z) (token : TokenPtr) (pos : Z)
| TurnChanged (playerID : Z)
| GameOver (winner : nat) (rankings : list nat).

Record Engine : Type := mkEngine {
  game : Game.t;
  heap : Heap;
  ai : gmap Z string;          (* difficulty of the AI of a player id *)
  turnTimer : option Z;        (* the player id the pending timer is for *)
  callbacks : EngineCallbacks;
  rollCount : gmap Z Z;
  events : list Event;         (* calls made to the callbacks, oldest first *)
  aiTasks : list nat           (* seats handed to [go e.handleAITurn] *)
}.

Definition set_game (v : Game.t) (e : Engine) : Engine :=
  mkEngine v (heap e) (ai e) (turnTimer e) (callbacks e) (rollCount e)
           (events e) (aiTasks e).
Definition set_heap (v : Heap) (e : Engine) : Engine :=
  mkEngine (game e) v (ai e) (turnTimer e) (callbacks e) (rollCount e)
           (events e) (aiTasks e).
Definition set_turnTimer (v : option Z) (e : Engine) : Engine :=
  mkEngine (game e) (heap e) (ai e) v (callbacks e) (rollCount e)
           (events e) (aiTasks e).
Definition set_rollCount (v : gmap Z Z) (e : Engine) : Engine :=
  mkEngine (game e) (heap e) (ai e) (turnTimer e) (callbacks e) v
           (events e) (aiTasks e).
Definition set_events (v : list Event) (e : Engine) : Engine :=
  mkEngine (game e) (heap e) (ai e) (turnTimer e) (callbacks e) (rollCount e)
           v (aiTasks e).
Definition set_aiTasks (v : list nat) (e : Engine) : Engine :=
  mkEngine (game e) (heap e) (ai e) (turnTimer e) (callbacks e) (rollCount e)
           (events e) v.

Definition room (e : Engine) : Room.t := Game.Room (game e).
Definition board (e : Engine) : Board.t := Game.Board (game e).
Definition players (e : Engine) : list Player.t := Room.Players (room e).
Definition set_room (v : Room.t) (e : Engine) : Engine :=
  set_game (Game.set_Room v (game e)) e.
Definition set_board (v : Board.t) (e : Engine) : Engine :=
  set_game (Game.set_Board v (game e)) e.
Definition set_players (v : list Player.t) (e : Engine) : Engine :=
  set_room (Room.set_Players v (room e)) e.

(** [NewEngine]: a fresh board around the given room; the loop registers
    the AI players and zeroes every seated player's roll counter. *)
Definition NewEngine (h : Heap) (room : Room.t) (callbacks : EngineCallbacks)
    : Engine :=
  mkEngine (Game.mk room NewBoard [] None []) h
    (foldl (fun m player =>
              if Player.IsAI player
              then <[Player.ID player := Player.AILevel player]> m else m)
           ∅ (Room.Players room))
    None callbacks
    (foldl (fun m player => <[Player.ID player := 0]> m) ∅
           (Room.Players room))
    [] [].

(** [if e.callbacks.X != nil { e.callbacks.X(...) }] *)
Definition fire (installed : bool) (ev : Event) (e : Engine) : Engine :=
  if installed then set_events (events e ++ [ev]) e else e.

(** [rand.Intn(n)]: the generator is abstracted to the raw number it yields
    next, reduced into [0, n). *)
Definition Intn (raw n : Z) : Z := raw mod n.

(** [startTurnTimer]: stops the pending timer and arms one for [playerID]. *)
Definition startTurnTimer (playerID : Z) (e : Engine) : Engine :=
  set_turnTimer (Some playerID) e.

Definition nextTurn (e : Engine) : Res Engine :=
  let n := Z.of_nat (length (players e)) in
  if n =? 0 then Panic else
  let e := set_room (Room.set_CurrentTurn
                       (Z.rem (Room.CurrentTurn (room e) + 1) n) (room e)) e in
  currentPlayer ← index (players e) (Room.CurrentTurn (room e));
  let e := fire (OnTurnChanged (callbacks e))
                (TurnChanged (Player.ID currentPlayer)) e in
  mret (if Player.IsAI currentPlayer
        then set_aiTasks (aiTasks e ++ [Z.to_nat (Room.CurrentTurn (room e))]) e
        else startTurnTimer (Player.ID currentPlayer) e).

Definition calculateNewPosition (token : Token.t) (diceValue : Z)
    (color : PlayerColor) : Z :=
  if Token.Position token =? -1 then StartingPositions color else
  let newPos := Token.Position token + diceValue in
  let homeEntry := HomeStretchStart color in
  if (Token.Position token <? homeEntry) && (homeEntry <=? newPos) then
    let overflow := newPos - homeEntry in
    52 + overflow
  else if (52 <=? newPos) && (Token.Position token <? 52) then
    Z.rem newPos 52
  else newPos.

(** [board.HomeStretches[color][homeIdx]]: a colour without an entry reads
    as an array of nil cells, whose use panics. *)
Definition homeCell (b : Board.t) (color : PlayerColor) (homeIdx : Z)
    : Res Cell.t :=
  match Board.HomeStretches b !! color with
  | Some stretch => index stretch homeIdx
  | None => Panic
  end.

(** [board.Cells[pos].Token = v] *)
Definition setCellToken (b : Board.t) (pos : Z) (v : option TokenPtr)
    : Res Board.t :=
  cell ← index (Board.Cells b) pos;
  mret (Board.set_Cells
          (<[Z.to_nat pos := Cell.set_Token v cell]> (Board.Cells b)) b).

(** [board.HomeStretches[color][homeIdx].Token = v] *)
Definition setHomeCellToken (b : Board.t) (color : PlayerColor) (homeIdx : Z)
    (v : option TokenPtr) : Res Board.t :=
  match Board.HomeStretches b !! color with
  | Some stretch =>
      cell ← index stretch homeIdx;
      mret (Board.set_HomeStretches
              (<[color := <[Z.to_nat homeIdx := Cell.set_Token v cell]> stretch]>
                 (Board.HomeStretches b)) b)
  | None => Panic
  end.

Definition canMoveToken (e : Engine) (tp : TokenPtr) (diceValue : Z)
    (color : PlayerColor) : Res bool :=
  token ← deref (heap e) tp;
  if Token.IsHome token then mret false else
  if (Token.Position token =? -1) && negb (diceValue =? RollToStart)
  then mret false else
  let newPos := calculateNewPosition token diceValue color in
  if 57 <? newPos then mret false else
  if 52 <=? newPos then
    let homeIdx := newPos - 52 in
    cell ← homeCell (board e) color homeIdx;
    match Cell.Token cell with
    | Some _ => mret false
    | None => mret true
    end
  else
    cell ← index (Board.Cells (board e)) newPos;
    match Cell.Token cell with
    | Some op =>
        other ← deref (heap e) op;
        if String.eqb (Token.Color other) color then mret false else mret true
    | None => mret true
    end.

Fixpoint hasValidMove_loop (e : Engine) (tokens : list TokenPtr)
    (diceValue : Z) (color : PlayerColor) : Res bool :=
  match tokens with
  | [] => mret false
  | tp :: rest =>
      can ← canMoveToken e tp diceValue color;
      if can : bool then mret true else hasValidMove_loop e rest diceValue color
  end.

Definition hasValidMove (e : Engine) (player : Player.t) (diceValue : Z)
    : Res bool :=
  hasValidMove_loop e (Player.Tokens player) diceValue (Player.Color player).

Definition moveTokenToPosition (e : Engine) (tp : TokenPtr) (newPos : Z)
    (color : PlayerColor) : Res Engine :=
  token ← deref (heap e) tp;
  let pos := Token.Position token in
  b1 ← (if (0 <=? pos) && (pos <? 52) then setCellToken (board e) pos None
        else if 52 <=? pos then setHomeCellToken (board e) color (pos - 52) None
        else mret (board e));
  let token := Token.set_Position newPos token in
  if 52 <=? newPos then
    let homeIdx := newPos - 52 in
    if 6 <=? homeIdx then
      mret (set_heap (<[tp := Token.set_IsHome true token]> (heap e))
              (set_board b1 e))
    else
      b2 ← setHomeCellToken b1 color homeIdx (Some tp);
      mret (set_heap (<[tp := token]> (heap e)) (set_board b2 e))
  else
    b2 ← setCellToken b1 newPos (Some tp);
    cell ← index (Board.Cells b2) newPos;
    mret (set_heap (<[tp := Token.set_IsSafe (Cell.IsSafe cell) token]> (heap e))
            (set_board b2 e)).

Definition checkCapture (e : Engine) (pos : Z) (capturer : Player.t)
    : Res (Engine * option TokenPtr) :=
  if (pos <? 0) || (52 <=? pos) then mret (e, None) else
  cell ← index (Board.Cells (board e)) pos;
  match Cell.Token cell with
  | None => mret (e, None)
  | Some vp =>
      if Cell.IsSafe cell then mret (e, None) else
      victim ← deref (heap e) vp;
      if String.eqb (Token.Color victim) (Player.Color capturer)
      then mret (e, None) else
      let victim :=
        Token.set_IsSafe true
          (Token.set_IsHome false (Token.set_Position (-1) victim)) in
      b ← setCellToken (board e) pos None;
      mret (set_heap (<[vp := victim]> (heap e)) (set_board b e), Some vp)
  end.

Fixpoint checkWin_loop (h : Heap) (tokens : list TokenPtr) : Res bool :=
  match tokens with
  | [] => mret true
  | tp :: rest =>
      token ← deref h tp;
      if negb (Token.IsHome token) then mret false else checkWin_loop h rest
  end.

Definition checkWin (e : Engine) (seat : nat) (player : Player.t)
    : Res (Engine * bool) :=
  won ← checkWin_loop (heap e) (Player.Tokens player);
  if won : bool then
    mret (set_players
            (alter (Player.set_TokensAtHome TokensPerPlayer) seat (players e)) e,
          true)
  else mret (e, false).

(** The seats, in order, of the players whose [ID] differs from [id]. *)
Fixpoint otherSeats (id : Z) (seat : nat) (ps : list Player.t) : list nat :=
  match ps with
  | [] => []
  | p :: rest =>
      if Player.ID p =? id then otherSeats id (S seat) rest
      else seat :: otherSeats id (S seat) rest
  end.

Definition endGame (e : Engine) (seat : nat) (winner : Player.t) : Engine :=
  let e := set_game (Game.set_Winner (Some seat) (game e)) e in
  let e := set_room (Room.set_State StateFinished (room e)) e in
  let rankings := seat :: otherSeats (Player.ID winner) 0 (players e) in
  let e := set_game (Game.set_Rankings rankings (game e)) e in
  fire (OnGameOver (callbacks e)) (GameOver seat rankings) e.

(** The loop of [MoveToken] that looks up the owner of a captured token:
    the first seated player of that colour, 0 when there is none. *)
Fixpoint victimPlayerID (ps : list Player.t) (color : PlayerColor) : Z :=
  match ps with
  | [] => 0
  | p :: rest =>
      if String.eqb (Player.Color p) color then Player.ID p
      else victimPlayerID rest color
  end.

Definition Start (e : Engine) (raw : Z) : Res (Engine * option string) :=
  if negb (String.eqb (Room.State (room e)) StateWaiting)
  then mret (e, Some "game already started") else
  if Z.of_nat (length (players e)) <? MinPlayers
  then mret (e, Some "not enough players") else
  let e := set_room (Room.set_CurrentTurn
                       (Intn raw (Z.of_nat (length (players e)))) (room e)) e in
  let e := set_room (Room.set_State StatePlaying (room e)) e in
  currentPlayer ← index (players e) (Room.CurrentTurn (room e));
  let e := fire (OnTurnChanged (callbacks e))
                (TurnChanged (Player.ID currentPlayer)) e in
  let e := if Player.IsAI currentPlayer
           then set_aiTasks
                  (aiTasks e ++ [Z.to_nat (Room.CurrentTurn (room e))]) e
           else startTurnTimer (Player.ID currentPlayer) e in
  mret (e, None).

(** The end of [RollDice], from the legal-move check on. *)
Definition RollDice_finish (e : Engine) (currentPlayer : Player.t)
    (playerID diceValue : Z) (extraTurn : bool)
    : Res (Engine * (Z * bool * option string)) :=
  canMove ← hasValidMove e currentPlayer diceValue;
  e ← (if negb canMove
       then if negb extraTurn then nextTurn e else mret e
       else mret e);
  let e := fire (OnDiceRolled (callbacks e))
                (DiceRolled playerID diceValue extraTurn) e in
  mret (e, (diceValue, extraTurn, None)).

Definition RollDice (e : Engine) (playerID raw : Z)
    : Res (Engine * (Z * bool * option string)) :=
  currentPlayer ← index (players e) (Room.CurrentTurn (room e));
  let seat := Z.to_nat (Room.CurrentTurn (room e)) in
  if negb (Player.ID currentPlayer =? playerID)
  then mret (e, (0, false, Some ErrNotYourTurn)) else
  let rollNumber := wrap64 (default 0 (rollCount e !! playerID) + 1) in
  let e := set_rollCount (<[playerID := rollNumber]> (rollCount e)) e in
  let diceValue :=
    if (rollNumber =? 1) || (Z.rem rollNumber 5 =? 0) then 6
    else Intn raw DiceMax + DiceMin in
  let e := set_room (Room.set_LastDice diceValue (room e)) e in
  if diceValue =? RollForExtraTurn then
    let six := Player.ConsecutiveSix currentPlayer + 1 in
    let e := set_players
               (alter (Player.set_ConsecutiveSix six) seat (players e)) e in
    if MaxConsecutiveSix <=? six then
      let e := set_players
                 (alter (Player.set_ConsecutiveSix 0) seat (players e)) e in
      e ← nextTurn e;
      let e := fire (OnDiceRolled (callbacks e))
                    (DiceRolled playerID diceValue false) e in
      mret (e, (diceValue, false, None))
    else RollDice_finish e currentPlayer playerID diceValue true
  else
    let e := set_players
               (alter (Player.set_ConsecutiveSix 0) seat (players e)) e in
    RollDice_finish e currentPlayer playerID diceValue false.

Definition MoveToken (e : Engine) (playerID tokenID : Z)
    : Res (Engine * option string) :=
  currentPlayer ← index (players e) (Room.CurrentTurn (room e));
  let seat := Z.to_nat (Room.CurrentTurn (room e)) in
  if negb (Player.ID currentPlayer =? playerID)
  then mret (e, Some ErrNotYourTurn) else
  if (tokenID <? 0)
     || (Z.of_nat (length (Player.Tokens currentPlayer)) <=? tokenID)
  then mret (e, Some "invalid token id") else
  tp ← index (Player.Tokens currentPlayer) tokenID;
  let diceValue := Room.LastDice (room e) in
  let color := Player.Color currentPlayer in
  ok ← canMoveToken e tp diceValue color;
  if negb ok then mret (e, Some ErrInvalidMove) else
  token ← deref (heap e) tp;
  let oldPos := Token.Position token in
  let newPos := calculateNewPosition token diceValue color in
  e ← moveTokenToPosition e tp newPos color;
  '(e, captured) ← checkCapture e newPos currentPlayer;
  let action := TurnAction.mk playerID diceValue tp oldPos newPos captured in
  let e := set_game (Game.set_TurnHistory
                       (Game.TurnHistory (game e) ++ [action]) (game e)) e in
  let e := fire (OnTokenMoved (callbacks e))
                (TokenMoved playerID tp oldPos newPos) e in
  e ← match captured with
      | Some vp =>
          if OnTokenCaptured (callbacks e) then
            victim ← deref (heap e) vp;
            mret (fire true
                    (TokenCaptured playerID
                       (victimPlayerID (players e) (Token.Color victim))
                       vp newPos) e)
          else mret e
      | None => mret e
      end;
  '(e, won) ← checkWin e seat currentPlayer;
  if won : bool then mret (endGame e seat currentPlayer, None) else
  if negb (diceValue =? RollForExtraTurn) then
    e ← nextTurn e;
    mret (e, None)
  else mret (e, None).

(** The deferred function armed by [startTurnTimer], run under the lock. *)
Definition turnTimeout (e : Engine) (playerID : Z) : Res Engine :=
  currentPlayer ← index (players e) (Room.CurrentTurn (room e));
  if Player.ID currentPlayer =? playerID then nextTurn e else mret e.

(** The engine's atomic operations: each runs under the engine lock.
    [OpNextTurn] is the locked [nextTurn] at the end of [handleAITurn]. *)
Inductive Op : Type :=
| OpStart (raw : Z)
| OpRollDice (playerID raw : Z)
| OpMoveToken (playerID tokenID : Z)
| OpTurnTimeout (playerID : Z)
| OpNextTurn.

Inductive Ret : Type :=
| RetError (err : option string)
| RetDice (value : Z) (extraTurn : bool) (err : option string)
| RetNone.

Definition step (e : Engine) (op : Op) : Res (Engine * Ret) :=
  match op with
  | OpStart raw =>
      '(e', err) ← Start e raw; mret (e', RetError err)
  | OpRollDice playerID raw =>
      '(e', (value, extraTurn, err)) ← RollDice e playerID raw;
      mret (e', RetDice value extraTurn err)
  | OpMoveToken playerID tokenID =>
      '(e', err) ← MoveToken e playerID tokenID; mret (e', RetError err)
  | OpTurnTimeout playerID =>
      e' ← turnTimeout e playerID; mret (e', RetNone)
  | OpNextTurn =>
      e' ← nextTurn e; mret (e', RetNone)
  end.

(** Runs a list of operations, collecting what each returned. *)
Fixpoint run (e : Engine) (ops : list Op) : Res (Engine * list Ret) :=
  match ops with
  | [] => mret (e, [])
  | op :: rest =>
      '(e1, r) ← step e op;
      '(e2, rs) ← run e1 rest;
      mret (e2, r :: rs)
  end.

End game.

(** ** pkg/ai: the scripted player (hard policy) *)

Module ai.
Import constants models.

Definition abs (x : Z) : Z := if x <? 0 then - x else x.

Definition calculateNewPosition (token : Token.t) (diceValue : Z)
    (color : PlayerColor) : Z :=
  if Token.Position token =? -1 then StartingPositions color else
  let newPos := Token.Position token + diceValue in
  let homeEntry := HomeStretchStart color in
  if (Token.Position token <? homeEntry) && (homeEntry <=? newPos) then
    let overflow := newPos - homeEntry in
    52 + overflow
  else if (52 <=? newPos) && (Token.Position token <? 52) then
    Z.rem newPos 52
  else newPos.

(** [board.HomeStretches[color][homeIndex]]: see [game.homeCell]. *)
Definition homeCell (b : Board.t) (color : PlayerColor) (homeIndex : Z)
    : Res Cell.t :=
  match Board.HomeStretches b !! color with
  | Some stretch => index stretch homeIndex
  | None => Panic
  end.

(** [cell.Token != nil && cell.Token.Color == color] *)
Definition holdsColor (h : Heap) (cell : Cell.t) (color : PlayerColor)
    : Res bool :=
  match Cell.Token cell with
  | Some op => other ← deref h op; mret (String.eqb (Token.Color other) color)
  | None => mret false
  end.

Definition canMoveToken (h : Heap) (tp : TokenPtr) (diceValue : Z)
    (color : PlayerColor) (board : Board.t) : Res bool :=
  token ← deref h tp;
  if Token.IsHome token then mret false else
  if Token.Position token =? -1 then mret (diceValue =? RollToStart) else
  let newPos := calculateNewPosition token diceValue color in
  if 57 <? newPos then mret false else
  if 52 <=? newPos then
    let homeIndex := newPos - 52 in
    cell ← homeCell board color homeIndex;
    same ← holdsColor h cell color;
    mret (negb same)
  else
    cell ← index (Board.Cells board) newPos;
    same ← holdsColor h cell color;
    mret (negb same).

Fixpoint getValidTokens_loop (h : Heap) (tokens : list TokenPtr)
    (diceValue : Z) (color : PlayerColor) (board : Board.t)
    : Res (list TokenPtr) :=
  match tokens with
  | [] => mret []
  | tp :: rest =>
      can ← canMoveToken h tp diceValue color board;
      valid ← getValidTokens_loop h rest diceValue color board;
      mret (if can : bool then tp :: valid else valid)
  end.

Definition getValidTokens (h : Heap) (player : Player.t) (diceValue : Z)
    (board : Board.t) : Res (list TokenPtr) :=
  getValidTokens_loop h (Player.Tokens player) diceValue (Player.Color player)
    board.

Definition canCapture (h : Heap) (pos : Z) (color : PlayerColor)
    (board : Board.t) : Res bool :=
  if (pos <? 0) || (52 <=? pos) then mret false else
  cell ← index (Board.Cells board) pos;
  match Cell.Token cell with
  | None => mret false
  | Some vp =>
      if Cell.IsSafe cell then mret false else
      victim ← deref h vp;
      mret (negb (String.eqb (Token.Color victim) color))
  end.

Definition isSafePosition (pos : Z) : bool :=
  if (pos <? 0) || (52 <=? pos) then true else contains SafePositions pos.

Fixpoint isTokenIsolated_loop (h : Heap) (token : Token.t)
    (allTokens : list TokenPtr) : Res bool :=
  match allTokens with
  | [] => mret true
  | op :: rest =>
      other ← deref h op;
      if (Token.ID other =? Token.ID token) || (Token.Position other <? 0)
      then isTokenIsolated_loop h token rest
      else
        let distance := abs (Token.Position token - Token.Position other) in
        if distance <=? 6 then mret false
        else isTokenIsolated_loop h token rest
  end.

Definition isTokenIsolated (h : Heap) (token : Token.t)
    (allTokens : list TokenPtr) (board : Board.t) : Res bool :=
  if (Token.Position token <? 0) || (52 <=? Token.Position token)
  then mret false
  else isTokenIsolated_loop h token allTokens.

(** The counter of [for i := 1; i <= 6; i++]. *)
Definition oneToSix : list Z := [1; 2; 3; 4; 5; 6].

Fixpoint isPositionDangerous_loop (h : Heap) (steps : list Z) (pos : Z)
    (color : PlayerColor) (board : Board.t) : Res bool :=
  match steps with
  | [] => mret false
  | i :: rest =>
      let checkPos := Z.rem (pos - i + 52) 52 in
      cell ← index (Board.Cells board) checkPos;
      match Cell.Token cell with
      | Some op =>
          other ← deref h op;
          if negb (String.eqb (Token.Color other) color) then mret true
          else isPositionDangerous_loop h rest pos color board
      | None => isPositionDangerous_loop h rest pos color board
      end
  end.

Definition isPositionDangerous (h : Heap) (pos : Z) (color : PlayerColor)
    (board : Board.t) : Res bool :=
  if isSafePosition pos then mret false
  else isPositionDangerous_loop h oneToSix pos color board.

Fixpoint blocksOpponent_loop (h : Heap) (steps : list Z) (pos : Z)
    (board : Board.t) : Res bool :=
  match steps with
  | [] => mret false
  | i :: rest =>
      let checkPos := Z.rem (pos + i) 52 in
      cell ← index (Board.Cells board) checkPos;
      match Cell.Token cell with
      | Some op =>
          other ← deref h op;
          if 45 <? Token.Position other then mret true
          else blocksOpponent_loop h rest pos board
      | None => blocksOpponent_loop h rest pos board
      end
  end.

Definition blocksOpponent (h : Heap) (pos : Z) (board : Board.t) : Res bool :=
  if (pos <? 0) || (52 <=? pos) then mret false
  else blocksOpponent_loop h oneToSix pos board.

Definition evaluateMove (h : Heap) (tp : TokenPtr) (diceValue : Z)
    (player : Player.t) (board : Board.t) : Res Z :=
  token ← deref h tp;
  let score := 0 in
  let newPos := calculateNewPosition token diceValue (Player.Color player) in
  captures ← canCapture h newPos (Player.Color player) board;
  let score := if captures : bool then score + 1000 else score in
  let score :=
    if (Token.Position token =? -1) && (diceValue =? RollToStart)
    then score + 500 else score in
  let score := if 52 <=? newPos then score + 800 else score in
  let score := if isSafePosition newPos then score + 300 else score in
  let score := score + newPos * 10 in
  isolated ← isTokenIsolated h token (Player.Tokens player) board;
  let score := if isolated : bool then score - 200 else score in
  dangerous ← isPositionDangerous h newPos (Player.Color player) board;
  let score := if dangerous : bool then score - 400 else score in
  blocks ← blocksOpponent h newPos board;
  let score := if blocks : bool then score + 600 else score in
  mret score.

Fixpoint scores_loop (h : Heap) (validTokens : list TokenPtr) (diceValue : Z)
    (player : Player.t) (board : Board.t) : Res (list (TokenPtr * Z)) :=
  match validTokens with
  | [] => mret []
  | tp :: rest =>
      score ← evaluateMove h tp diceValue player board;
      scores ← scores_loop h rest diceValue player board;
      mret ((tp, score) :: scores)
  end.

(** [for _, ts := range scores[1:] { if ts.score > best.score { best = ts } }] *)
Fixpoint best_loop (best : TokenPtr * Z) (scores : list (TokenPtr * Z))
    : TokenPtr * Z :=
  match scores with
  | [] => best
  | ts :: rest => best_loop (if best.2 <? ts.2 then ts else best) rest
  end.

Definition selectTokenHard (h : Heap) (player : Player.t) (diceValue : Z)
    (board : Board.t) : Res (option TokenPtr) :=
  validTokens ← getValidTokens h player diceValue board;
  match validTokens with
  | [] => mret None
  | _ :: _ =>
      scores ← scores_loop h validTokens diceValue player board;
      match scores with
      | [] => Panic                      (* scores[0] on an empty slice *)
      | first :: rest => mret (Some (best_loop first rest).1)
      end
  end.

(** [selectTokenEasy]: a legal token drawn by the generator; [raw] is the
    number the generator yields next. *)
Definition selectTokenEasy (h : Heap) (player : Player.t) (diceValue : Z)
    (board : Board.t) (raw : Z) : Res (option TokenPtr) :=
  validTokens ← getValidTokens h player diceValue board;
  if Z.of_nat (length validTokens) =? 0 then mret None else
  tp ← index validTokens (game.Intn raw (Z.of_nat (length validTokens)));
  mret (Some tp).

(** The first loop of [selectTokenMedium]: the first token that can
    capture. *)
Fixpoint firstCapture (h : Heap) (validTokens : list TokenPtr) (diceValue : Z)
    (color : PlayerColor) (board : Board.t) : Res (option TokenPtr) :=
  match validTokens with
  | [] => mret None
  | tp :: rest =>
      token ← deref h tp;
      let newPos := calculateNewPosition token diceValue color in
      captures ← canCapture h newPos color board;
      if captures : bool then mret (Some tp)
      else firstCapture h rest diceValue color board
  end.

(** The second loop: the first token in base. *)
Fixpoint firstInBase (h : Heap) (validTokens : list TokenPtr)
    : Res (option TokenPtr) :=
  match validTokens with
  | [] => mret None
  | tp :: rest =>
      token ← deref h tp;
      if Token.Position token =? -1 then mret (Some tp)
      else firstInBase h rest
  end.

(** The third loop: the token farthest along, [bestToken] and [maxPos]
    being the loop's variables. *)
Fixpoint mostAdvanced (h : Heap) (validTokens : list TokenPtr)
    (bestToken : option TokenPtr) (maxPos : Z) : Res (option TokenPtr) :=
  match validTokens with
  | [] => mret bestToken
  | tp :: rest =>
      token ← deref h tp;
      if maxPos <? Token.Position token
      then mostAdvanced h rest (Some tp) (Token.Position token)
      else mostAdvanced h rest bestToken maxPos
  end.

Definition selectTokenMedium (h : Heap) (player : Player.t) (diceValue : Z)
    (board : Board.t) : Res (option TokenPtr) :=
  validTokens ← getValidTokens h player diceValue board;
  if Z.of_nat (length validTokens) =? 0 then mret None else
  capturing ← firstCapture h validTokens diceValue (Player.Color player) board;
  match capturing with
  | Some tp => mret (Some tp)
  | None =>
      leaving ← (if diceValue =? RollToStart then firstInBase h validTokens
                 else mret None);
      match leaving with
      | Some tp => mret (Some tp)
      | None => mostAdvanced h validTokens None (-1)
      end
  end.

(** [SelectToken], for an AI of the given level; the pause before the
    choice is left out. *)
Definition SelectToken (level : string) (h : Heap) (player : Player.t)
    (diceValue : Z) (board : Board.t) (raw : Z) : Res (option TokenPtr) :=
  if String.eqb level "easy"
  then selectTokenEasy h player diceValue board raw
  else if String.eqb level "medium"
  then selectTokenMedium h player diceValue board
  else if String.eqb level "hard"
  then selectTokenHard h player diceValue board
  else selectTokenMedium h player diceValue board.

End ai.

(** ** internal/server/game: the turn of an AI *)

Module aiturn.
Import constants models game.

(** [handleAITurn], the goroutine [Start] and [nextTurn] launch for the
    AI at a seat (recorded in [aiTasks]), run without another operation
    in between: the roll, the choice, then the move or the turn change.
    [rawDice] and [rawPick] are what the generators of the engine and of
    the AI yield next.  An AI that was not registered is a nil pointer,
    whose use panics. *)
Definition handleAITurn (e : Engine) (seat : nat) (rawDice rawPick : Z)
    : Res Engine :=
  player ← index (players e) (Z.of_nat seat);
  let aiPlayer := ai e !! Player.ID player in
  '(e, (diceValue, extraTurn, _)) ← RollDice e (Player.ID player) rawDice;
  match aiPlayer with
  | None => Panic
  | Some level =>
      token ← ai.SelectToken level (heap e) player diceValue (board e)
                rawPick;
      match token with
      | Some tp =>
          tok ← deref (heap e) tp;
          '(e, _) ← MoveToken e (Player.ID player) (Token.ID tok);
          mret e
      | None => if negb extraTurn then nextTurn e else mret e
      end
  end.

End aiturn.

(** ** internal/server/room: rooms and their registry *)

Module room.
Import constants models.

Record PlayerConnection : Type := mkConn {
  PlayerID : Z;
  Username : string;
  Ready : bool
}.

(** The roster part of [Room]; the engine pointer, the message channel and
    the lock are not part of what is modelled here. *)
Record Room : Type := mkRoom {
  Model : Room.t;
  players : gmap Z PlayerConnection
}.

Definition usedColor (ps : list Player.t) (c : PlayerColor) : bool :=
  existsb (fun p => String.eqb (Player.Color p) c) ps.

(** The first colour of the canonical order no seated player has; the
    zero value (the empty string) when all four are taken. *)
Definition freeColor (ps : list Player.t) : PlayerColor :=
  match filter (fun c => usedColor ps c = false)
               [ColorRed; ColorBlue; ColorGreen; ColorYellow] with
  | c :: _ => c
  | [] => ""
  end.

Definition AddPlayer (h : Heap) (r : Room) (playerID : Z) (username : string)
    : Heap * Room * option string :=
  if Room.MaxPlayers (Model r) <=? Z.of_nat (length (Room.Players (Model r)))
  then (h, r, Some "room is full") else
  match players r !! playerID with
  | Some _ => (h, r, Some "player already in room")
  | None =>
      let playerColor := freeColor (Room.Players (Model r)) in
      let '(h', player) := NewPlayer h playerID username playerColor in
      (h',
       mkRoom (Room.set_Players (Room.Players (Model r) ++ [player]) (Model r))
              (<[playerID := mkConn playerID username false]> (players r)),
       None)
  end.

(** The loop of [RemovePlayer]: drops the first player with that id. *)
Fixpoint removeFirst (playerID : Z) (ps : list Player.t) : list Player.t :=
  match ps with
  | [] => []
  | p :: rest =>
      if Player.ID p =? playerID then rest else p :: removeFirst playerID rest
  end.

Definition RemovePlayer (r : Room) (playerID : Z) : Room :=
  let conns := delete playerID (players r) in
  let ps := removeFirst playerID (Room.Players (Model r)) in
  let model := Room.set_Players ps (Model r) in
  let model :=
    if (Room.HostID model =? playerID) && (0 <? Z.of_nat (length ps)) then
      match ps with
      | first :: _ => Room.set_HostID (Player.ID first) model
      | [] => model
      end
    else model in
  mkRoom model conns.

Definition IsEmpty (r : Room) : bool := bool_decide (size (players r) = 0%nat).

(** [Manager]: the registry, keyed by room id. *)
Record Manager : Type := mkManager {
  rooms : gmap string Room
}.

Definition NewManager : Manager := mkManager ∅.

(** [CreateRoom]; [roomID] is what [generateRoomID] made of the clock. *)
Definition CreateRoom (h : Heap) (m : Manager) (roomID : string)
    (name : string) (hostID : Z) (hostName : string) (maxPlayers : Z)
    (gameMode : string) (isPrivate : bool) : Heap * Manager * Room :=
  let '(h', hostPlayer) := NewPlayer h hostID hostName ColorRed in
  let roomModel :=
    Room.mk roomID name hostID [hostPlayer] maxPlayers gameMode StateWaiting
            0 0 isPrivate "" in
  let room := mkRoom roomModel {[hostID := mkConn hostID hostName false]} in
  (h', mkManager (<[roomID := room]> (rooms m)), room).

Definition GetRoom (m : Manager) (roomID : string) : Room + string :=
  match rooms m !! roomID with
  | Some room => inl room
  | None => inr "room not found"
  end.

Definition JoinRoom (h : Heap) (m : Manager) (roomID : string) (playerID : Z)
    (username : string) : Heap * Manager * option string :=
  match GetRoom m roomID with
  | inr err => (h, m, Some err)
  | inl room =>
      let '(h', room', err) := AddPlayer h room playerID username in
      (h', mkManager (<[roomID := room']> (rooms m)), err)
  end.

Definition LeaveRoom (m : Manager) (roomID : string) (playerID : Z)
    : Manager * option string :=
  match GetRoom m roomID with
  | inr err => (m, Some err)
  | inl room =>
      let room' := RemovePlayer room playerID in
      if IsEmpty room' then (mkManager (delete roomID (rooms m)), None)
      else (mkManager (<[roomID := room']> (rooms m)), None)
  end.


(** The loop of [SetPlayerReady] over the ordered players: marks the first
    player with that id. *)
Fixpoint markReady (playerID : Z) (ready : bool) (ps : list Player.t)
    : list Player.t :=
  match ps with
  | [] => []
  | p :: rest =>
      if Player.ID p =? playerID then Player.set_IsReady ready p :: rest
      else p :: markReady playerID ready rest
  end.

Definition SetPlayerReady (r : Room) (playerID : Z) (ready : bool)
    : Room * option string :=
  match players r !! playerID with
  | None => (r, Some "player not in room")
  | Some conn =>
      (mkRoom
         (Room.set_Players
            (markReady playerID ready (Room.Players (Model r))) (Model r))
         (<[playerID := mkConn (PlayerID conn) (Username conn) ready]>
            (players r)),
       None)
  end.

(** [CanStart]: the range over the connections stops at the first one
    that is not ready. *)
Definition CanStart (r : Room) : bool :=
  if Z.of_nat (length (Room.Players (Model r))) <? MinPlayers then false
  else forallb (fun kv : Z * PlayerConnection => Ready kv.2)
               (map_to_list (players r)).

Definition GetPlayerCount (r : Room) : Z := Z.of_nat (size (players r)).

Definition GetRoomCount (m : Manager) : Z := Z.of_nat (size (rooms m)).

(** [CleanupEmptyRooms]: the range over the registry deletes the entries
    of the empty rooms as it meets them. *)
Definition CleanupEmptyRooms (m : Manager) : Manager :=
  mkManager
    (map_fold (fun id room acc => if IsEmpty room then delete id acc else acc)
              (rooms m) (rooms m)).

End room.

(** ** internal/shared/protocol: the validator *)

Module protocol.

(** [strings.TrimSpace], on the bytes of the string: the white space of
    Unicode in its UTF-8 encoding. *)
Definition bytes (l : list nat) : string :=
  fold_right (fun n s => String (ascii_of_nat n) s) EmptyString l.

Definition whiteSpace : list string :=
  map bytes
    [ [9]; [10]; [11]; [12]; [13]; [32]; [194; 133]; [194; 160];
      [225; 154; 128];
      [226; 128; 128]; [226; 128; 129]; [226; 128; 130]; [226; 128; 131];
      [226; 128; 132]; [226; 128; 133]; [226; 128; 134]; [226; 128; 135];
      [226; 128; 136]; [226; 128; 137]; [226; 128; 138];
      [226; 128; 168]; [226; 128; 169]; [226; 128; 175]; [226; 129; 159];
      [227; 128; 128] ]%nat.

Fixpoint stripPrefix (p s : string) : option string :=
  match p, s with
  | EmptyString, _ => Some s
  | String a p', String b s' =>
      if Ascii.eqb a b then stripPrefix p' s' else None
  | String _ _, EmptyString => None
  end.

Fixpoint dropSpace (spaces : list string) (s : string) : option string :=
  match spaces with
  | [] => None
  | w :: rest =>
      match stripPrefix w s with
      | Some s' => Some s'
      | None => dropSpace rest s
      end
  end.

Fixpoint trimLeft (spaces : list string) (fuel : nat) (s : string) : string :=
  match fuel with
  | O => s
  | S fuel' =>
      match dropSpace spaces s with
      | Some s' => trimLeft spaces fuel' s'
      | None => s
      end
  end.

Fixpoint rev_string (s acc : string) : string :=
  match s with
  | EmptyString => acc
  | String a s' => rev_string s' (String a acc)
  end.

Definition TrimSpace (s : string) : string :=
  let l := trimLeft whiteSpace (String.length s) s in
  let r := trimLeft (map (fun w => rev_string w EmptyString) whiteSpace)
                    (String.length l) (rev_string l EmptyString) in
  rev_string r EmptyString.

(** [len(s)]: the number of bytes. *)
Definition len (s : string) : Z := Z.of_nat (String.length s).

Record ConnectPayload : Type := mkConnect {
  Connect_Username : string;
  Connect_Token : string;
  Connect_Version : string
}.

Record CreateRoomPayload : Type := mkCreateRoom {
  Create_Name : string;
  Create_MaxPlayers : Z;
  Create_GameMode : string;
  Create_IsPrivate : bool;
  Create_Password : string;
  Create_UserID : Z;
  Create_Username : string
}.

Record JoinRoomPayload : Type := mkJoinRoom {
  Join_RoomID : string;
  Join_UserID : Z;
  Join_Username : string;
  Join_Password : string
}.

Definition isValidUsernameChar (char : ascii) : bool :=
  let c := Z.of_nat (nat_of_ascii char) in
  ((97 <=? c) && (c <=? 122)) || ((65 <=? c) && (c <=? 90))
  || ((48 <=? c) && (c <=? 57)) || (c =? 95) || (c =? 45).

Fixpoint allValidChars (s : string) : bool :=
  match s with
  | EmptyString => true
  | String a s' => if isValidUsernameChar a then allValidChars s' else false
  end.

(** [ValidateUsername]; every valid character is a single byte, so the
    range over the runes of the string is a range over its bytes. *)
Definition ValidateUsername (username : string) : option string :=
  let username := TrimSpace username in
  if String.eqb username "" then Some "username cannot be empty" else
  if len username <? 3 then Some "username must be at least 3 characters" else
  if 20 <? len username then Some "username must be at most 20 characters" else
  if negb (allValidChars username)
  then Some "username contains invalid characters" else None.

Definition ValidateRoomName (name : string) : option string :=
  let name := TrimSpace name in
  if String.eqb name "" then Some "room name cannot be empty" else
  if len name <? 3 then Some "room name must be at least 3 characters" else
  if 50 <? len name then Some "room name must be at most 50 characters"
  else None.

Section Validator.

(** The payload of a message is an [interface{}]; [ExtractPayload] passes
    it through [encoding/json] into the target struct.  That conversion
    is the library's: it is a parameter here, one per target struct,
    yielding the struct or the error text. *)
Context {Payload : Type}.
Variable ExtractCreateRoom : Payload -> CreateRoomPayload + string.
Variable ExtractJoinRoom : Payload -> JoinRoomPayload + string.
Variable ExtractConnect : Payload -> ConnectPayload + string.

Record NetworkMessage : Type := mkMessage {
  Type_ : string;
  Payload_ : Payload;
  PlayerID : Z;
  RoomID : string
}.

Definition validateCreateRoom (payload : Payload) : option string :=
  match ExtractCreateRoom payload with
  | inr err => Some err
  | inl data =>
      if String.eqb (TrimSpace (Create_Name data)) ""
      then Some "room name cannot be empty" else
      if (Create_MaxPlayers data <? 2) || (4 <? Create_MaxPlayers data)
      then Some "max players must be between 2 and 4" else
      if String.eqb (Create_Username data) ""
      then Some "username cannot be empty" else None
  end.

Definition validateJoinRoom (payload : Payload) : option string :=
  match ExtractJoinRoom payload with
  | inr err => Some err
  | inl data =>
      if String.eqb (Join_RoomID data) ""
      then Some "room ID cannot be empty" else
      if String.eqb (Join_Username data) ""
      then Some "username cannot be empty" else None
  end.

Definition validateConnect (payload : Payload) : option string :=
  match ExtractConnect payload with
  | inr err => Some err
  | inl data =>
      if String.eqb (TrimSpace (Connect_Username data)) ""
      then Some "username cannot be empty" else
      if (len (Connect_Username data) <? 3)
         || (20 <? len (Connect_Username data))
      then Some "username must be between 3 and 20 characters" else None
  end.

(** [ValidateMessage]; [None] argument: a nil message.  The result is the
    error, [None] for a nil error. *)
Definition ValidateMessage (msg : option NetworkMessage) : option string :=
  match msg with
  | None => Some "message is nil"
  | Some msg =>
      if String.eqb (Type_ msg) "" then Some "message type is empty" else
      if String.eqb (Type_ msg) "create_room"
      then validateCreateRoom (Payload_ msg) else
      if String.eqb (Type_ msg) "join_room"
      then validateJoinRoom (Payload_ msg) else
      if String.eqb (Type_ msg) "connect"
      then validateConnect (Payload_ msg) else None
  end.

End Validator.

End protocol.

(** * Vocabulary of the statements *)

Module spec.
Import constants models game.

(** The value [RollDice] assigns to [diceValue], for the roll counter after
    its increment and the raw draw of the generator. *)
Definition rolled (rollNumber raw : Z) : Z :=
  if (rollNumber =? 1) || (Z.rem rollNumber 5 =? 0) then 6
  else Intn raw DiceMax + DiceMin.

Definition isTurnChanged (ev : Event) : Prop :=
  match ev with TurnChanged _ => True | _ => False end.


(** A token position the data model allows: base, ring or home stretch. *)
Definition position_ok (pos : Z) : Prop := pos = -1 \/ 0 <= pos <= 57.

(** Who takes a seat: a person, through [NewPlayer], or an AI, through
    [NewAIPlayer]. *)
Inductive Seat : Type :=
| Human (id : Z) (username : string) (color : PlayerColor)
| Robot (color : PlayerColor) (level : string).

(** Seats the players one after the other, allocating their tokens. *)
Fixpoint seatAll (h : Heap) (seats : list Seat) : Heap * list Player.t :=
  match seats with
  | [] => (h, [])
  | s :: rest =>
      let '(h1, player) :=
        match s with
        | Human id username color => NewPlayer h id username color
        | Robot color level => NewAIPlayer h color level
        end in
      let '(h2, ps) := seatAll h1 rest in
      (h2, player :: ps)
  end.

(** The engine of a room that was just filled: a waiting room, nobody has
    rolled, every token is in base. *)
Definition freshEngine (seats : list Seat) (maxPlayers : Z)
    (callbacks : EngineCallbacks) : Engine :=
  let '(h, ps) := seatAll [] seats in
  NewEngine h
    (Room.mk "ROOM" "room" 0 ps maxPlayers "online" StateWaiting 0 0 false "")
    callbacks.

(** What the engine keeps: every token of the store at a position of the
    data model, and a dice value between 0 (nothing rolled) and 6. *)
Definition positions_inv (e : Engine) : Prop :=
  (forall a tok, heap e !! a = Some tok -> position_ok (Token.Position tok))
  /\ 0 <= Room.LastDice (room e) <= 6.



End spec.

(** A two-player game, used to run the engine on concrete inputs: alice
    plays red from seat 0, bob plays blue from seat 1, every callback is
    installed. *)
Module scenario.
Import constants models game spec.

Definition seats : list Seat :=
  [Human 1 "alice" ColorRed; Human 2 "bob" ColorBlue].

Definition allCallbacks : EngineCallbacks :=
  mkCallbacks true true true true true.

Definition engine0 : Engine := freshEngine seats 4 allCallbacks.

(** Bob starts, leaves base and walks to cell 17; alice leaves base and
    reaches cell 11 with a 6 on the dice still to play. *)
Definition opening : list Op :=
  [OpStart 1;
   OpRollDice 2 0; OpMoveToken 2 0; OpRollDice 2 2; OpMoveToken 2 0;
   OpRollDice 1 0; OpMoveToken 1 0; OpRollDice 1 4; OpMoveToken 1 0;
   OpRollDice 2 0; OpMoveToken 2 0;
   OpRollDice 1 5; OpMoveToken 1 0; OpRollDice 1 5].

(** The engine a run leaves behind ([engine0] when the run panics). *)
Definition after (ops : list Op) : Engine :=
  match run engine0 ops with
  | Ok (e, _) => e
  | Panic => engine0
  end.

Definition returned (ops : list Op) : list Ret :=
  match run engine0 ops with
  | Ok (_, rets) => rets
  | Panic => []
  end.

(** The engine after the opening, with alice's second token (address 1)
    marked home on the last cell of her home stretch. *)
Definition homeToken : Token.t := Token.mk 1 ColorRed 57 true true.

Definition withHomeToken : Engine :=
  set_heap (<[1%nat := homeToken]> (heap (after opening))) (after opening).

(** The player at a seat of an engine (an empty record off the list). *)
Definition seated (e : Engine) (seat : nat) : Player.t :=
  default (Player.mk 0 "" "" [] 0 false "" false false 0) (players e !! seat).

(** What an operation leaves behind (the engine itself when it panics). *)
Definition next (e : Engine) (op : Op) : Engine :=
  match step e op with
  | Ok (e', _) => e'
  | Panic => e
  end.

Definition answer (e : Engine) (op : Op) : Ret :=
  match step e op with
  | Ok (_, r) => r
  | Panic => RetNone
  end.


End scenario.

(** * Vocabulary of the statements about rooms *)

Module roomspec.
Import constants models room.


(** The player id has no connection record and no seat. *)
Definition not_seated (r : Room) (playerID : Z) : Prop :=
  players r !! playerID = None /\
  Forall (fun p => Player.ID p <> playerID) (Room.Players (Model r)).



(** A room player 7 created and left, and player 8 then joined: 7 is
    still recorded as the host. *)
Definition staleHost : Room :=
  let '(h, _, rm) :=
    CreateRoom [] NewManager "ROOM_2" "solo" 7 "carol" 4 "online" false in
  (AddPlayer h (RemovePlayer rm 7) 8 "dave").1.2.

(** The colours a room hands out, in the order it tries them. *)
Definition palette : list PlayerColor :=
  [ColorRed; ColorBlue; ColorGreen; ColorYellow].

(** The host is one of the seated players. *)
Definition host_seated (r : Room) : Prop :=
  exists p, p ∈ Room.Players (Model r)
            /\ Player.ID p = Room.HostID (Model r).

(** A registry with the room "ROOM_3" that player 5 created for four and
    player 6 joined. *)
Definition lobby : Heap * Manager :=
  let '(h, m, _) :=
    CreateRoom [] NewManager "ROOM_3" "club" 5 "erin" 4 "online" false in
  (JoinRoom h m "ROOM_3" 6 "finn").1.

Definition lobbyRoom : Room :=
  default (mkRoom (Room.mk "" "" 0 [] 0 "" "" 0 0 false "") ∅)
          (rooms lobby.2 !! "ROOM_3").

End roomspec.

(** * Vocabulary of the statements about the AI *)

Module aispec.
Import constants models.

(** The token standing on a ring cell. *)
Definition ringToken (h : Heap) (board : Board.t) (pos : Z) : option Token.t :=
  cell ← Board.Cells board !! Z.to_nat pos;
  vp ← Cell.Token cell;
  h !! vp.

(** The ring cell [i] steps behind, and ahead of, a ring cell. *)
Definition behind (pos i : Z) : Z := Z.rem (pos - i + 52) 52.
Definition ahead (pos i : Z) : Z := Z.rem (pos + i) 52.


(** ** The score of claim C9, term by term in the words of the spec *)








(** The tokens the AI may move: those [ai.canMoveToken] accepts. *)
Definition legal (h : Heap) (player : Player.t) (diceValue : Z)
    (board : Board.t) (tp : TokenPtr) : bool :=
  match ai.canMoveToken h tp diceValue (Player.Color player) board with
  | Ok true => true
  | _ => false
  end.


(** ** The score the code computes *)

(** An indicator [b] of a proposition. *)
Definition indicates (b : bool) (P : Prop) : Prop := b = true <-> P.

Definition Captures (h : Heap) (board : Board.t) (color : PlayerColor)
    (dest : Z) : Prop :=
  0 <= dest < 52 /\
  exists cell tok,
    Board.Cells board !! Z.to_nat dest = Some cell /\
    Cell.IsSafe cell = false /\
    ringToken h board dest = Some tok /\ Token.Color tok <> color.

(** The token stands on the ring and every other token of the player that
    has left base is more than 6 positions away from where it stands. *)
Definition Isolated (h : Heap) (tokens : list TokenPtr) (tok : Token.t)
    : Prop :=
  0 <= Token.Position tok < 52 /\
  forall op other,
    op ∈ tokens -> h !! op = Some other ->
    Token.ID other = Token.ID tok \/ Token.Position other < 0
    \/ 6 < Z.abs (Token.Position tok - Token.Position other).

(** The destination is not safe and a token of another colour stands on
    one of the 6 ring cells behind it. *)
Definition Dangerous (h : Heap) (board : Board.t) (color : PlayerColor)
    (dest : Z) : Prop :=
  ai.isSafePosition dest = false /\
  exists i tok, i ∈ ai.oneToSix /\
    ringToken h board (behind dest i) = Some tok /\ Token.Color tok <> color.

(** A token accepted by [P], with a position above 45, stands on one of
    the 6 ring cells ahead of a destination on the ring. *)
Definition RunnerAhead (h : Heap) (board : Board.t) (dest : Z)
    (P : Token.t -> Prop) : Prop :=
  0 <= dest < 52 /\
  exists i tok, i ∈ ai.oneToSix /\
    ringToken h board (ahead dest i) = Some tok /\
    45 < Token.Position tok /\ P tok.

(** The score of a token, term by term.  The blocking bonus is granted
    when an opponent runner is ahead and only when some runner is. *)
Definition hard_score (h : Heap) (player : Player.t) (diceValue : Z)
    (board : Board.t) (tp : TokenPtr) (score : Z) : Prop :=
  exists tok (captures isolated dangerous blocks : bool),
    let color := Player.Color player in
    let dest := ai.calculateNewPosition tok diceValue color in
    h !! tp = Some tok /\
    indicates captures (Captures h board color dest) /\
    indicates isolated (Isolated h (Player.Tokens player) tok) /\
    indicates dangerous (Dangerous h board color dest) /\
    (RunnerAhead h board dest (fun t => Token.Color t <> color)
     -> blocks = true) /\
    (blocks = true -> RunnerAhead h board dest (fun _ => True)) /\
    score
    = (if captures then 1000 else 0)
      + (if (Token.Position tok =? -1) && (diceValue =? RollToStart)
         then 500 else 0)
      + (if 52 <=? dest then 800 else 0)
      + (if ai.isSafePosition dest then 300 else 0)
      + 10 * dest
      - (if isolated then 200 else 0)
      - (if dangerous then 400 else 0)
      + (if blocks then 600 else 0).

(** [r] is the first element of [valid] of the greatest score; nothing
    exactly when [valid] is empty. *)
Definition first_best (valid : list TokenPtr) (score : TokenPtr -> Z)
    (r : option TokenPtr) : Prop :=
  match r with
  | None => valid = []
  | Some tp =>
      exists before after,
        valid = before ++ tp :: after /\
        Forall (fun tq => score tq < score tp) before /\
        Forall (fun tq => score tq <= score tp) after
  end.

(** What the AI needs of its arguments in order not to panic: a ring of
    52 cells and a home stretch of 6 for the player's colour, cells that
    point into the token store, and the player's tokens in the store at
    positions of the data model. *)
Definition ready (h : Heap) (player : Player.t) (diceValue : Z)
    (board : Board.t) : Prop :=
  length (Board.Cells board) = 52%nat /\
  Forall (fun cell => forall vp, Cell.Token cell = Some vp -> is_Some (h !! vp))
         (Board.Cells board) /\
  (exists stretch,
     Board.HomeStretches board !! Player.Color player = Some stretch /\
     length stretch = 6%nat /\
     Forall (fun cell => forall vp, Cell.Token cell = Some vp
                                    -> is_Some (h !! vp)) stretch) /\
  Forall (fun tp => exists tok, h !! tp = Some tok
                                /\ (Token.Position tok = -1
                                    \/ 0 <= Token.Position tok <= 57))
         (Player.Tokens player) /\
  0 <= diceValue.

(** Alice's red tokens 0 and 1 on cells 6 and 7, bob's blue token on
    cell 2, a 2 on the dice. *)
Definition exHeap : Heap :=
  [Token.mk 0 ColorRed 6 false false; Token.mk 1 ColorRed 7 false false;
   Token.mk 2 ColorRed (-1) false true; Token.mk 3 ColorRed (-1) false true;
   Token.mk 0 ColorBlue 2 false false; Token.mk 1 ColorBlue (-1) false true;
   Token.mk 2 ColorBlue (-1) false true; Token.mk 3 ColorBlue (-1) false true].

Definition exPlayer : Player.t :=
  Player.set_AI "hard" (Player.mk 0 "AI Player" ColorRed [0; 1; 2; 3]%nat 0
                          false "" false true 0).

Definition place (pos tp : nat) (b : Board.t) : Board.t :=
  Board.set_Cells
    (alter (Cell.set_Token (Some tp)) pos (Board.Cells b)) b.

Definition exBoard : Board.t :=
  place 2 4 (place 7 1 (place 6 0 NewBoard)).

(** [r] is the first element of [valid] with the property [P]. *)
Definition first_such (valid : list TokenPtr) (P : TokenPtr -> Prop)
    (r : option TokenPtr) : Prop :=
  exists tp before after,
    r = Some tp /\ valid = before ++ tp :: after
    /\ Forall (fun tq => ~ P tq) before /\ P tp.

(** The token would capture on the cell the dice takes it to. *)
Definition capturing (h : Heap) (player : Player.t) (diceValue : Z)
    (board : Board.t) (tp : TokenPtr) : Prop :=
  exists tok,
    h !! tp = Some tok
    /\ Captures h board (Player.Color player)
         (ai.calculateNewPosition tok diceValue (Player.Color player)).

Definition inBase (h : Heap) (tp : TokenPtr) : Prop :=
  exists tok, h !! tp = Some tok /\ Token.Position tok = -1.

(** The position of a token of the store (-1 off the store). *)
Definition positionOf (h : Heap) (tp : TokenPtr) : Z :=
  match h !! tp with
  | Some tok => Token.Position tok
  | None => -1
  end.

(** After red's first move of the game [scenario.engine0] plays, with a
    second six rolled: red token 0 stands on red's start cell and the
    other red tokens are in base. *)
Definition crowdedStart : game.Engine :=
  scenario.after
    [game.OpStart 0; game.OpRollDice 1 0; game.OpMoveToken 1 0;
     game.OpRollDice 1 5].

(** A game of an AI (red, seat 0) against bob, started with the turn at
    the AI: [Start] has launched the AI's turn. *)
Definition robotSeats : list spec.Seat :=
  [spec.Robot ColorRed "hard"; spec.Human 2 "bob" ColorBlue].

Definition robotGame : game.Engine :=
  scenario.next (spec.freshEngine robotSeats 4 scenario.allCallbacks)
                (game.OpStart 0).

(** The game after the AI's turn, and after the roll of that turn. *)
Definition robotPlayed : game.Engine :=
  match aiturn.handleAITurn robotGame 0 3 4 with
  | Ok e' => e'
  | Panic => robotGame
  end.


End aispec.

(** * Vocabulary of the statements about whole games *)

Module enginespec.
Import constants models game spec.

(** A board the engine can index: 52 ring cells whose tokens are in the
    store, and a home stretch of 6 cells for every colour that has a home
    entry. *)
Definition board_ok (h : Heap) (b : Board.t) : Prop :=
  length (Board.Cells b) = 52%nat
  /\ (forall cell vp, cell ∈ Board.Cells b -> Cell.Token cell = Some vp
                      -> is_Some (h !! vp))
  /\ (forall color stretch, Board.HomeStretches b !! color = Some stretch
                            -> length stretch = 6%nat)
  /\ (forall color, is_Some (HomeStretchStart_map !! color)
                    -> is_Some (Board.HomeStretches b !! color)).

(** A token of a player: in the store, of the player's colour, at a
    position of the data model, not home, and in the home stretch only
    if the colour has one. *)
Definition token_ok (h : Heap) (b : Board.t) (p : Player.t) (tp : TokenPtr)
    : Prop :=
  exists tok,
    h !! tp = Some tok
    /\ Token.Color tok = Player.Color p
    /\ position_ok (Token.Position tok)
    /\ Token.IsHome tok = false
    /\ (52 <= Token.Position tok
        -> is_Some (Board.HomeStretches b !! Player.Color p)).

(** What every engine of a game keeps: the turn at a seat, a dice value
    between 0 (nothing rolled) and 6, the tokens and the board as above. *)
Definition sound (e : Engine) : Prop :=
  0 <= Room.CurrentTurn (room e) < Z.of_nat (length (players e))
  /\ 0 <= Room.LastDice (room e) <= 6
  /\ Forall (fun p => Forall (token_ok (heap e) (board e) p) (Player.Tokens p))
            (players e)
  /\ board_ok (heap e) (board e).

(** The events other than a capture and the end of the game. *)
Definition isQuiet (ev : Event) : Prop :=
  match ev with
  | TokenCaptured _ _ _ _ | GameOver _ _ => False
  | _ => True
  end.

(** Nothing was captured and nobody has won. *)
Definition uneventful (e : Engine) : Prop :=
  Forall isQuiet (events e)
  /\ Forall (fun a => TurnAction.Captured a = None) (Game.TurnHistory (game e))
  /\ Game.Winner (game e) = None
  /\ Room.State (room e) <> StateFinished.

(** The consecutive-six counter of every player is 0, 1 or 2. *)
Definition sixes_ok (e : Engine) : Prop :=
  Forall (fun p => 0 <= Player.ConsecutiveSix p <= 2) (players e).

(** The players [seatAll] makes: their four tokens are in the store, of
    their colour, in base, and nobody has rolled a six. *)
Definition seated_ok (h : Heap) (p : Player.t) : Prop :=
  Player.ConsecutiveSix p = 0
  /\ Forall (fun tp => exists tok,
               h !! tp = Some tok /\ Token.Color tok = Player.Color p
               /\ Token.Position tok = -1 /\ Token.IsHome tok = false)
            (Player.Tokens p).

(** An operation that reported an error. *)
Definition failed (r : Ret) : Prop :=
  match r with
  | RetError (Some _) | RetDice _ _ (Some _) => True
  | _ => False
  end.

(** No token of a seated player is home. *)
Definition nobody_home (e : Engine) : Prop :=
  Forall (fun p =>
            Forall (fun tp => exists tok,
                      heap e !! tp = Some tok /\ Token.IsHome tok = false)
                   (Player.Tokens p))
         (players e).

(** What an operation schedules: the turn, the AI turns launched and the
    timer armed. *)
Definition schedule (e : Engine) : Z * list nat * option Z :=
  (Room.CurrentTurn (room e), aiTasks e, turnTimer e).

(** The level of the last AI among the seats, [acc] when there is none. *)
Fixpoint lastRobot (seats : list Seat) (acc : option string)
    : option string :=
  match seats with
  | [] => acc
  | Robot _ level :: rest => lastRobot rest (Some level)
  | Human _ _ _ :: rest => lastRobot rest acc
  end.

(** What a seat makes of its player: the id, and the level of an AI. *)
Definition seatedAs (s : Seat) (p : Player.t) : Prop :=
  match s with
  | Human id _ _ => Player.ID p = id /\ Player.IsAI p = false
  | Robot _ level =>
      Player.ID p = 0 /\ Player.IsAI p = true /\ Player.AILevel p = level
  end.

End enginespec.
(** * Proofs *)

Import constants models spec.

(** * Reasoning about [Res] computations *)

Lemma res_bind_Ok {A B : Type} (m : Res A) (k : A -> Res B) (b : B) :
  res_bind m k = Ok b -> exists a, m = Ok a /\ k a = Ok b.
Proof. destruct m as [a|]; simpl; [eauto | discriminate]. Qed.

Lemma index_Ok {A : Type} (l : list A) (i : Z) (x : A) :
  index l i = Ok x -> 0 <= i /\ l !! Z.to_nat i = Some x.
Proof.
  unfold index. destruct (0 <=? i) eqn:Hi; [|discriminate].
  destruct (l !! Z.to_nat i) eqn:Hl; [|discriminate].
  intros [= ->]. split; [lia | reflexivity].
Qed.

Lemma index_lt {A : Type} (l : list A) (i : Z) (x : A) :
  index l i = Ok x -> 0 <= i < Z.of_nat (length l).
Proof.
  intros H. apply index_Ok in H as [Hi Hl].
  apply lookup_lt_Some in Hl. lia.
Qed.

Lemma index_in_range {A : Type} (l : list A) (i : Z) :
  0 <= i < Z.of_nat (length l) -> exists x, index l i = Ok x.
Proof.
  intros Hi. unfold index.
  destruct (0 <=? i) eqn:E; [|lia].
  destruct (lookup_lt_is_Some_2 l (Z.to_nat i)) as [x Hx]; [lia|].
  rewrite Hx. eauto.
Qed.

Lemma deref_Ok {A : Type} (h : list A) (p : nat) (x : A) :
  deref h p = Ok x -> h !! p = Some x.
Proof. unfold deref. destruct (h !! p); [intros [= ->]; reflexivity | discriminate]. Qed.

(** Unfolds the monad operations of [Res]. *)
Ltac res_unfold :=
  unfold mbind, mret, Res_bind, Res_ret in *.

(** One case split on the head of a hypothesis [_ = Ok _]. *)
Ltac res_case H :=
  lazymatch type of H with
  | res_bind ?m _ = _ =>
      let E := fresh "E" in
      destruct m eqn:E; cbn [res_bind] in H; [|discriminate H]
  | (if ?b then _ else _) = _ =>
      let E := fresh "E" in destruct b eqn:E
  | (let '(_, _) := ?x in _) = _ => destruct x
  | match ?x with _ => _ end = _ =>
      let E := fresh "E" in destruct x eqn:E
  | Panic = Ok _ => discriminate H
  end.

Lemma res_bind_ret {A B : Type} (a : A) (k : A -> Res B) :
  res_bind (Ok a) k = k a.
Proof. reflexivity. Qed.

(** The same split, for long bodies: a [let] at the head becomes a local
    definition, so that the body is never copied. *)
Ltac res_step H :=
  lazymatch type of H with
  | res_bind ?m _ = _ =>
      let E := fresh "E" in
      destruct m eqn:E;
      [rewrite res_bind_ret in H; cbv beta in H | discriminate H]
  | (if ?b then _ else _) = _ =>
      let E := fresh "E" in destruct b eqn:E
  | (let '(_, _) := ?x in _) = _ => destruct x
  | (let x := ?v in @?f x) = ?r =>
      let y := fresh x in
      pose (y := v); change (f y = r) in H; cbv beta in H
  | match ?x with _ => _ end = _ =>
      let E := fresh "E" in destruct x eqn:E
  end.

(** * The engine: what each operation changes *)

(** Exposes the fields behind the derived accessors. *)
Ltac eng_simpl :=
  repeat (progress unfold game.board, game.room, game.players,
            game.set_players, game.set_board, game.set_room,
            game.startTurnTimer in * );
  cbn [game.game game.heap game.ai game.turnTimer game.callbacks
       game.rollCount game.events game.aiTasks
       game.set_game game.set_heap game.set_turnTimer game.set_rollCount
       game.set_events game.set_aiTasks
       Game.Room Game.Board Game.TurnHistory Game.Winner Game.Rankings
       Game.set_Room Game.set_Board Game.set_TurnHistory Game.set_Winner
       Game.set_Rankings
       Room.ID Room.Name Room.HostID Room.Players Room.MaxPlayers
       Room.GameMode Room.State Room.CurrentTurn Room.LastDice Room.IsPrivate
       Room.Password Room.set_HostID Room.set_Players Room.set_State
       Room.set_CurrentTurn Room.set_LastDice] in *.

Section EngineFrames.
Import game.

Lemma fire_heap b ev e : heap (fire b ev e) = heap e.
Proof. destruct b; reflexivity. Qed.

Lemma fire_game b ev e : game.game (fire b ev e) = game.game e.
Proof. destruct b; reflexivity. Qed.

Lemma fire_rollCount b ev e : rollCount (fire b ev e) = rollCount e.
Proof. destruct b; reflexivity. Qed.

Lemma fire_callbacks b ev e : callbacks (fire b ev e) = callbacks e.
Proof. destruct b; reflexivity. Qed.

Lemma fire_room b ev e : room (fire b ev e) = room e.
Proof. destruct b; reflexivity. Qed.

Lemma fire_events b ev e :
  events (fire b ev e) = events e ++ (if b then [ev] else []).
Proof. destruct b; simpl; [reflexivity | by rewrite app_nil_r]. Qed.

(** [nextTurn] touches the seat index, the event log and the scheduling
    only. *)
Lemma nextTurn_Ok e e' :
  nextTurn e = Ok e' ->
  exists p,
    index (players e)
          (Z.rem (Room.CurrentTurn (room e) + 1) (Z.of_nat (length (players e))))
      = Ok p
    /\ heap e' = heap e
    /\ board e' = board e
    /\ players e' = players e
    /\ rollCount e' = rollCount e
    /\ callbacks e' = callbacks e
    /\ Room.State (room e') = Room.State (room e)
    /\ Room.LastDice (room e') = Room.LastDice (room e)
    /\ Room.CurrentTurn (room e')
       = Z.rem (Room.CurrentTurn (room e) + 1) (Z.of_nat (length (players e)))
    /\ events e'
       = events e ++ (if OnTurnChanged (callbacks e)
                      then [TurnChanged (Player.ID p)] else []).
Proof.
  unfold nextTurn. res_unfold. intros H.
  res_case H; [discriminate|].
  res_case H. simplify_eq. exists a.
  split; [exact E0|].
  destruct (Player.IsAI a), (OnTurnChanged (callbacks e)) eqn:Hcb;
    cbn; rewrite ?Hcb; cbn; rewrite ?app_nil_r; repeat split; reflexivity.
Qed.


Lemma rolled_range rollNumber raw : 1 <= rolled rollNumber raw <= 6.
Proof.
  unfold rolled, Intn, DiceMax, DiceMin.
  destruct ((rollNumber =? 1) || (Z.rem rollNumber 5 =? 0)); [lia|].
  pose proof (Z.mod_pos_bound raw 6). lia.
Qed.

Lemma alter_set_ConsecutiveSix_twice a b i (ps : list Player.t) :
  alter (Player.set_ConsecutiveSix a) i
        (alter (Player.set_ConsecutiveSix b) i ps)
  = alter (Player.set_ConsecutiveSix a) i ps.
Proof.
  apply list_eq. intros j. rewrite !list_lookup_alter.
  case_decide; [|reflexivity]. subst j. rewrite decide_True by reflexivity. by destruct (ps !! i).
Qed.

(** What a call of [RollDice] that returns leaves behind. *)
Lemma RollDice_Ok e playerID raw e' v x err :
  RollDice e playerID raw = Ok (e', (v, x, err)) ->
  exists p,
    index (players e) (Room.CurrentTurn (room e)) = Ok p /\
    ((Player.ID p <> playerID /\ err = Some ErrNotYourTurn /\ e' = e
      /\ v = 0 /\ x = false)
     \/
     (Player.ID p = playerID /\ err = None
      /\ v = rolled (wrap64 (default 0 (rollCount e !! playerID) + 1)) raw
      /\ x = ((v =? 6) && negb (3 <=? Player.ConsecutiveSix p + 1))
      /\ rollCount e'
         = <[playerID := wrap64 (default 0 (rollCount e !! playerID) + 1)]>
             (rollCount e)
      /\ heap e' = heap e
      /\ board e' = board e
      /\ callbacks e' = callbacks e
      /\ Room.State (room e') = Room.State (room e)
      /\ Room.LastDice (room e') = v
      /\ players e'
         = alter (Player.set_ConsecutiveSix
                    (if x then Player.ConsecutiveSix p + 1 else 0))
                 (Z.to_nat (Room.CurrentTurn (room e))) (players e)
      /\ (Room.CurrentTurn (room e') = Room.CurrentTurn (room e)
          \/ Room.CurrentTurn (room e')
             = Z.rem (Room.CurrentTurn (room e) + 1)
                     (Z.of_nat (length (players e))))
      /\ exists tc,
           Forall isTurnChanged tc /\
           events e'
           = events e ++ tc
             ++ (if OnDiceRolled (callbacks e)
                 then [DiceRolled playerID v x] else []))).
Proof.
  unfold RollDice. res_unfold. intros H.
  res_case H. rename a into p. exists p. split; [reflexivity|].
  res_case H.
  { simplify_eq.
    left. apply negb_true_iff, Z.eqb_neq in E0. auto. }
  right. apply negb_false_iff, Z.eqb_eq in E0.
  fold (rolled (wrap64 (default 0 (rollCount e !! playerID) + 1)) raw) in H.
  set (rn := wrap64 (default 0 (rollCount e !! playerID) + 1)) in *.
  set (d := rolled rn raw) in *.
  unfold RollForExtraTurn, MaxConsecutiveSix in H.
  res_case H.
  - res_case H.
    + (* third six in a row *)
      res_case H. simplify_eq.
      apply nextTurn_Ok in E3 as (q & Hq & Hh & Hb & Hp & Hr & Hc & Hs & Hl & Ht & Hev).
      eng_simpl. rewrite Hc. unfold fire.
      destruct (OnDiceRolled (callbacks e)); eng_simpl.
      all: rewrite ?Hr, ?Hh, ?Hb, ?Hc, ?Hs, ?Hl, ?Hp, ?Ht, ?Hev.
      all: rewrite ?alter_set_ConsecutiveSix_twice, ?length_alter.
      all: rewrite ?E1; cbn [negb andb].
      all: repeat split; try reflexivity; try (right; reflexivity).
      all: exists (if OnTurnChanged (callbacks e)
                  then [TurnChanged (Player.ID q)] else []).
      all: split; [destruct (OnTurnChanged _); repeat constructor|].
      all: rewrite ?app_nil_r, <- ?app_assoc; reflexivity.
    + (* a six with a bonus roll *)
      unfold RollDice_finish in H. res_unfold.
      res_case H. res_case H. simplify_eq.
      match goal with
      | Hn : (if negb a then _ else _) = Ok _ |- _ =>
          destruct (negb a); cbn [negb] in Hn; simplify_eq
      end.
      all: unfold fire; eng_simpl.
      all: destruct (OnDiceRolled (callbacks e)); eng_simpl.
      all: rewrite ?E1; cbn [negb andb].
      all: repeat split; try reflexivity; try (left; reflexivity).
      all: exists []; split; [constructor | rewrite ?app_nil_r; reflexivity].
  - (* not a six *)
    unfold RollDice_finish in H. res_unfold.
    res_case H. res_case H. simplify_eq.
    destruct (negb a); cbn [negb] in E3.
    + apply nextTurn_Ok in E3 as (q & Hq & Hh & Hb & Hp & Hr & Hc & Hs & Hl & Ht & Hev).
      eng_simpl. rewrite Hc. unfold fire.
      destruct (OnDiceRolled (callbacks e)); eng_simpl.
      all: rewrite ?Hr, ?Hh, ?Hb, ?Hc, ?Hs, ?Hl, ?Hp, ?Ht, ?Hev.
      all: rewrite ?length_alter.
      all: rewrite ?E1; cbn [negb andb].
      all: repeat split; try reflexivity; try (right; reflexivity).
      all: exists (if OnTurnChanged (callbacks e)
                  then [TurnChanged (Player.ID q)] else []).
      all: split; [destruct (OnTurnChanged _); repeat constructor|].
      all: rewrite ?app_nil_r, <- ?app_assoc; reflexivity.
    + simplify_eq. unfold fire. eng_simpl.
      destruct (OnDiceRolled (callbacks e)); eng_simpl.
      all: rewrite ?E1; cbn [negb andb].
      all: repeat split; try reflexivity; try (left; reflexivity).
      all: exists []; split; [constructor | rewrite ?app_nil_r; reflexivity].
Qed.


Lemma setCellToken_Ok b pos v b' :
  setCellToken b pos v = Ok b' ->
  exists cell,
    index (Board.Cells b) pos = Ok cell /\
    b' = Board.set_Cells
           (<[Z.to_nat pos := Cell.set_Token v cell]> (Board.Cells b)) b.
Proof.
  unfold setCellToken. res_unfold. intros H. res_case H. simplify_eq. eauto.
Qed.

(** After [Cells[pos].Token = v], the cell at [pos] holds [v]. *)
Lemma setCellToken_read b pos v b' cell :
  setCellToken b pos v = Ok b' ->
  index (Board.Cells b') pos = Ok cell ->
  Cell.Token cell = v.
Proof.
  intros H Hc. apply setCellToken_Ok in H as (c0 & Hi & ->).
  apply index_Ok in Hc as [_ Hc]. apply index_Ok in Hi as [_ Hi].
  cbn in Hc. rewrite list_lookup_insert_eq in Hc
    by (apply lookup_lt_Some in Hi; exact Hi).
  by simplify_eq.
Qed.

Lemma moveTokenToPosition_Ok e tp newPos color e1 :
  moveTokenToPosition e tp newPos color = Ok e1 ->
  newPos <= 57 ->
  exists tok tok1 b,
    heap e !! tp = Some tok /\
    e1 = set_heap (<[tp := tok1]> (heap e)) (set_board b e) /\
    Token.Position tok1 = newPos /\
    Token.IsHome tok1 = Token.IsHome tok /\
    Token.Color tok1 = Token.Color tok /\
    Token.ID tok1 = Token.ID tok /\
    (newPos < 52 ->
     forall cell, index (Board.Cells b) newPos = Ok cell ->
                  Cell.Token cell = Some tp).
Proof.
  unfold moveTokenToPosition. res_unfold. intros H Hle.
  res_case H. rename a into tok. apply deref_Ok in E.
  res_case H. rename a into b1. clear E0.
  res_case H.
  - assert (Hx : (6 <=? newPos - 52) = false) by lia.
    rewrite Hx in H.
    res_case H. simplify_eq.
    eexists tok, _, _. repeat split; try reflexivity; try assumption.
    intros; lia.
  - res_case H. res_case H. simplify_eq.
    eexists tok, _, _. repeat split; try reflexivity; try assumption.
    intros _ cell Hc. cbn in Hc.
    eapply setCellToken_read; eassumption.
Qed.

Lemma checkCapture_Ok e pos capturer e2 cap :
  checkCapture e pos capturer = Ok (e2, cap) ->
  (cap = None /\ e2 = e)
  \/ exists vp victim cell b,
       cap = Some vp /\
       0 <= pos < 52 /\
       index (Board.Cells (board e)) pos = Ok cell /\
       Cell.Token cell = Some vp /\
       heap e !! vp = Some victim /\
       e2 = set_heap
              (<[vp := Token.set_IsSafe true
                         (Token.set_IsHome false
                            (Token.set_Position (-1) victim))]> (heap e))
              (set_board b e).
Proof.
  unfold checkCapture. res_unfold. intros H.
  res_case H; [simplify_eq; by left|].
  res_case H. res_case H; [|simplify_eq; by left].
  res_case H; [simplify_eq; by left|].
  res_case H. apply deref_Ok in E3.
  res_case H; [simplify_eq; by left|].
  res_case H. simplify_eq. right.
  eexists _, _, _, _. repeat split; try eassumption; try reflexivity; lia.
Qed.

Lemma checkWin_loop_true h tokens :
  checkWin_loop h tokens = Ok true ->
  forall tp, tp ∈ tokens ->
    exists tok, h !! tp = Some tok /\ Token.IsHome tok = true.
Proof.
  induction tokens as [|t rest IH]; cbn; intros H tp Hin.
  - by apply elem_of_nil in Hin.
  - res_unfold. res_case H. apply deref_Ok in E.
    destruct (Token.IsHome a) eqn:Hh; cbn in H; [|discriminate].
    apply elem_of_cons in Hin as [->|Hin]; eauto.
Qed.

Lemma checkWin_Ok e seat player e3 won :
  checkWin e seat player = Ok (e3, won) ->
  checkWin_loop (heap e) (Player.Tokens player) = Ok won /\
  e3 = (if won
        then set_players
               (alter (Player.set_TokensAtHome TokensPerPlayer) seat
                      (players e)) e
        else e).
Proof.
  unfold checkWin. res_unfold. intros H. res_case H.
  destruct a; simplify_eq; auto.
Qed.


Lemma canMoveToken_true e tp diceValue color :
  canMoveToken e tp diceValue color = Ok true ->
  exists tok,
    heap e !! tp = Some tok /\
    Token.IsHome tok = false /\
    (Token.Position tok = -1 -> diceValue = 6) /\
    calculateNewPosition tok diceValue color <= 57.
Proof.
  unfold canMoveToken. res_unfold. intros H.
  res_case H. apply deref_Ok in E. exists a. split; [exact E|].
  res_case H; [discriminate|]. split; [reflexivity|].
  res_case H; [discriminate|].
  res_case H; [discriminate|].
  split; [|lia].
  intros Hp. rewrite Hp in E1. cbn in E1.
  apply negb_false_iff, Z.eqb_eq in E1. exact E1.
Qed.



(** What a call of [MoveToken] that returns leaves behind: an error leaves
    the engine as it was; a move rewrites the moved token and nothing else
    in the token store, and never ends the game. *)
Lemma MoveToken_Ok e playerID tokenID e' err :
  MoveToken e playerID tokenID = Ok (e', err) ->
  (exists msg, err = Some msg /\ e' = e)
  \/
  (err = None /\
   exists p tp tok tok',
     index (players e) (Room.CurrentTurn (room e)) = Ok p /\
     Player.ID p = playerID /\
     index (Player.Tokens p) tokenID = Ok tp /\
     heap e !! tp = Some tok /\
     Token.IsHome tok = false /\
     (Token.Position tok = -1 -> Room.LastDice (room e) = 6) /\
     calculateNewPosition tok (Room.LastDice (room e)) (Player.Color p) <= 57 /\
     heap e' = <[tp := tok']> (heap e) /\
     Token.IsHome tok' = false /\
     Token.Color tok' = Token.Color tok /\
     Token.ID tok' = Token.ID tok /\
     (Token.Position tok'
      = calculateNewPosition tok (Room.LastDice (room e)) (Player.Color p)
      \/ Token.Position tok' = -1) /\
     rollCount e' = rollCount e /\
     callbacks e' = callbacks e /\
     players e' = players e /\
     Room.State (room e') = Room.State (room e) /\
     Room.LastDice (room e') = Room.LastDice (room e) /\
     (Room.CurrentTurn (room e') = Room.CurrentTurn (room e)
      \/ Room.CurrentTurn (room e')
         = Z.rem (Room.CurrentTurn (room e) + 1)
                 (Z.of_nat (length (players e))))).
Proof.
  unfold MoveToken. unfold mbind, mret, Res_bind, Res_ret. intros H.
  res_step H. rename a into p.
  res_step H; [simplify_eq; left; eauto|].
  apply negb_false_iff, Z.eqb_eq in E0.
  res_step H; [simplify_eq; left; eauto|].
  res_step H. rename a into tp.
  res_step H.
  match goal with
  | Hc : canMoveToken _ _ _ _ = Ok ?b |- _ =>
      destruct b; cbn [negb] in H; [|simplify_eq; left; eauto];
      apply canMoveToken_true in Hc as (tok & Htok & Hhome & Hbase & Hle)
  end.
  res_step H.
  match goal with
  | Hd : deref _ _ = Ok _ |- _ =>
      apply deref_Ok in Hd; rewrite Htok in Hd; simplify_eq
  end.
  res_step H. rename a into e1.
  match goal with
  | Hm : moveTokenToPosition _ _ _ _ = Ok _ |- _ =>
      apply moveTokenToPosition_Ok in Hm
        as (tok0 & tok1 & b1 & Htok0 & -> & Hp1 & Hh1 & Hc1 & Hi1 & Hcell);
      [|exact Hle]
  end.
  rewrite Htok in Htok0. simplify_eq.
  res_step H. destruct a as [e2 cap].
  res_step H. rename a into e3.
  res_step H. destruct a as [e4 won].
  match goal with
  | Hw : checkWin _ _ _ = Ok _ |- _ => apply checkWin_Ok in Hw as [Hloop ->]
  end.
  (* the engine after the capture check, the log entry and the events *)
  assert (Hcap : exists tok',
             heap e2 = <[tp := tok']> (heap e) /\
             Token.IsHome tok' = false /\
             Token.Color tok' = Token.Color tok0 /\
             Token.ID tok' = Token.ID tok0 /\
             (Token.Position tok'
              = calculateNewPosition tok0 (Room.LastDice (room e))
                                     (Player.Color p)
              \/ Token.Position tok' = -1) /\
             rollCount e2 = rollCount e /\
             callbacks e2 = callbacks e /\
             room e2 = room e).
  { apply checkCapture_Ok in E0
      as [[-> ->] | (vp & victim & cell & b & -> & Hr & Hi & Hv & Hhv & ->)].
    - exists tok1. repeat split; try reflexivity; try congruence. by left.
    - cbn in Hi. assert (vp = tp) as ->.
      { apply Hcell in Hi; [congruence | lia]. }
      cbn in Hhv. rewrite list_lookup_insert_eq in Hhv
        by (apply lookup_lt_Some in Htok; exact Htok).
      simplify_eq. eexists. cbn. rewrite list_insert_insert_eq.
      repeat split; try reflexivity; try assumption. by right. }
  destruct Hcap as (tok' & Hheap & Hhome' & Hcol' & Hid' & Hpos' & Hrc & Hcb & Hroom).
  assert (He3 : heap e3 = heap e2 /\ rollCount e3 = rollCount e2 /\
                callbacks e3 = callbacks e2 /\ room e3 = room e2).
  { destruct cap as [vp|].
    - res_step E3; [res_step E3|]; simplify_eq;
        unfold fire, room; cbn;
        destruct (OnTokenMoved (callbacks e2)); repeat split; reflexivity.
    - simplify_eq. unfold fire, room; cbn.
      destruct (OnTokenMoved (callbacks e2)); repeat split; reflexivity. }
  clear E3. destruct He3 as (Hh3 & Hr3 & Hc3 & Hroom3).
  rewrite Hheap in Hh3. rewrite Hrc in Hr3. rewrite Hcb in Hc3.
  rewrite Hroom in Hroom3.
  (* no win: the moved token is not home *)
  assert (won = false) as ->.
  { destruct won; [|reflexivity]. exfalso.
    apply index_Ok in E2 as [_ E2].
    eapply checkWin_loop_true in Hloop as (t & Ht & Hth);
      [|eapply list_elem_of_lookup_2; exact E2].
    rewrite Hh3 in Ht.
    rewrite list_lookup_insert_eq in Ht
      by (apply lookup_lt_Some in Htok; exact Htok).
    congruence. }
  assert (Hplayers : players e3 = players e) by (unfold players; congruence).
  cbn beta iota in H.
  res_step H.
  - res_step H. simplify_eq.
    match goal with
    | Hn : nextTurn _ = Ok _ |- _ =>
        apply nextTurn_Ok in Hn
          as (q & Hq & Hh & Hb & Hp & Hr & Hc & Hs & Hl & Ht & Hev)
    end.
    right. split; [reflexivity|].
    exists p, tp, tok0, tok'.
    rewrite Hh, Hr, Hc, Hp, Hs, Hl, Ht, Hh3, Hr3, Hc3, Hplayers, Hroom3.
    repeat split; try assumption; try reflexivity. by right.
  - simplify_eq.
    right. split; [reflexivity|].
    exists p, tp, tok0, tok'.
    rewrite Hh3, Hr3, Hc3, Hplayers, Hroom3.
    repeat split; try assumption; try reflexivity. by left.
Qed.

End EngineFrames.

Section EngineSteps.
Import game.

Lemma Start_Ok e raw e' err :
  Start e raw = Ok (e', err) ->
  (exists msg, err = Some msg /\ e' = e)
  \/
  (err = None /\
   Room.State (room e) = StateWaiting /\
   heap e' = heap e /\
   board e' = board e /\
   rollCount e' = rollCount e /\
   callbacks e' = callbacks e /\
   players e' = players e /\
   Room.LastDice (room e') = Room.LastDice (room e) /\
   Room.State (room e') = StatePlaying /\
   0 <= Room.CurrentTurn (room e') < Z.of_nat (length (players e))).
Proof.
  unfold Start. unfold mbind, mret, Res_bind, Res_ret. intros H.
  res_step H; [simplify_eq; left; eauto|].
  apply negb_false_iff, String.eqb_eq in E.
  res_step H; [simplify_eq; left; eauto|].
  res_step H. simplify_eq. right.
  apply index_lt in E1. cbn in E1. fold (players e) in E1.
  unfold fire, MinPlayers in *.
  destruct (OnTurnChanged _), (Player.IsAI a); cbn;
    repeat split; try assumption; try reflexivity; try lia.
Qed.

Lemma turnTimeout_Ok e playerID e' :
  turnTimeout e playerID = Ok e' ->
  heap e' = heap e /\
  board e' = board e /\
  players e' = players e /\
  rollCount e' = rollCount e /\
  callbacks e' = callbacks e /\
  Room.State (room e') = Room.State (room e) /\
  Room.LastDice (room e') = Room.LastDice (room e).
Proof.
  unfold turnTimeout. unfold mbind, mret, Res_bind, Res_ret. intros H.
  res_step H. res_step H.
  - apply nextTurn_Ok in H as (q & _ & ? & ? & ? & ? & ? & ? & ? & _).
    repeat split; assumption.
  - simplify_eq. repeat split; reflexivity.
Qed.

End EngineSteps.

(** * The roll counter along a run *)


Section RollCounter.
Import game.




Lemma run_length e ops e' rets :
  run e ops = Ok (e', rets) -> length rets = length ops.
Proof.
  revert e rets. induction ops as [|op ops IH]; cbn; intros e rets H;
    unfold mbind, mret, Res_bind, Res_ret in H.
  - by simplify_eq.
  - res_step H. destruct a as [e1 r]. res_step H. destruct a as [e2 rs].
    simplify_eq. cbn. f_equal. eapply IH. eassumption.
Qed.


Lemma NewEngine_rollCount h rm cbs playerID :
  default 0 (rollCount (NewEngine h rm cbs) !! playerID) = 0.
Proof.
  cbn.
  assert (Hgen : forall (ps : list Player.t) (m : gmap Z Z),
             default 0 (m !! playerID) = 0 ->
             default 0
               (foldl (fun m player => <[Player.ID player := 0]> m) m ps
                  !! playerID) = 0).
  { induction ps as [|q ps IH]; cbn; intros m Hm; [exact Hm|].
    apply IH. destruct (decide (Player.ID q = playerID)) as [->|Hne].
    - by rewrite lookup_insert_eq.
    - by rewrite lookup_insert_ne. }
  apply Hgen. by rewrite lookup_empty.
Qed.

End RollCounter.

(** * Token positions along a run *)

Section Positions.
Import game.

Lemma StartingPositions_range color : 0 <= StartingPositions color <= 39.
Proof.
  unfold StartingPositions, StartingPositions_map.
  repeat (rewrite lookup_insert; case_decide; [cbn; lia|]).
  rewrite lookup_empty. cbn. lia.
Qed.

Lemma calculateNewPosition_nonneg tok diceValue color :
  position_ok (Token.Position tok) -> 0 <= diceValue ->
  0 <= calculateNewPosition tok diceValue color.
Proof.
  intros Hp Hd. unfold calculateNewPosition. cbv zeta.
  destruct (Z.eqb_spec (Token.Position tok) (-1)) as [_|Hne].
  - apply StartingPositions_range.
  - assert (0 <= Token.Position tok) by (destruct Hp; lia).
    destruct (Z.ltb_spec (Token.Position tok) (HomeStretchStart color));
      destruct (Z.leb_spec (HomeStretchStart color)
                  (Token.Position tok + diceValue));
      destruct (Z.leb_spec 52 (Token.Position tok + diceValue));
      destruct (Z.ltb_spec (Token.Position tok) 52);
      cbn [andb]; try lia; apply Z.rem_nonneg; lia.
Qed.

Lemma step_positions_inv e op e' r :
  positions_inv e -> step e op = Ok (e', r) -> positions_inv e'.
Proof.
  intros [Hpos Hdice].
  destruct op as [raw|p raw|p t|p|]; cbn;
    unfold mbind, mret, Res_bind, Res_ret; intros H.
  - res_step H. destruct a as [e1 err]. simplify_eq.
    apply Start_Ok in E
      as [(msg & -> & ->)|(-> & _ & Hh & _ & _ & _ & _ & Hl & _)];
      [by split|].
    split; [rewrite Hh; exact Hpos | rewrite Hl; exact Hdice].
  - res_step H. destruct a as [e1 [[v x] err]]. simplify_eq.
    apply RollDice_Ok in E as (q & _ & [(_ & -> & -> & _)|Hok]); [by split|].
    destruct Hok as (_ & _ & Hv & _ & _ & Hh & _ & _ & _ & Hl & _).
    split; [rewrite Hh; exact Hpos|].
    rewrite Hl, Hv. pose proof (rolled_range
      (wrap64 (default 0 (rollCount e !! p) + 1)) raw). lia.
  - res_step H. destruct a as [e1 err]. simplify_eq.
    apply MoveToken_Ok in E
      as [(msg & -> & ->)|(-> & q & tp & tok & tok' & Hm)]; [by split|].
    destruct Hm as (_ & _ & _ & Htok & _ & _ & Hle & Hh & _ & _ & _ & Hp'
                    & _ & _ & _ & _ & Hl & _).
    split; [|rewrite Hl; exact Hdice].
    intros a t0 Ha. rewrite Hh in Ha.
    destruct (decide (a = tp)) as [->|Hne].
    + rewrite list_lookup_insert_eq in Ha
        by (apply lookup_lt_Some in Htok; exact Htok).
      simplify_eq. destruct Hp' as [-> | ->]; [|by left].
      right. split; [|exact Hle].
      apply calculateNewPosition_nonneg; [eapply Hpos; exact Htok | lia].
    + rewrite list_lookup_insert_ne in Ha by congruence. eapply Hpos; exact Ha.
  - res_step H. simplify_eq.
    apply turnTimeout_Ok in E as (Hh & _ & _ & _ & _ & _ & Hl).
    split; [rewrite Hh; exact Hpos | rewrite Hl; exact Hdice].
  - res_step H. simplify_eq.
    apply nextTurn_Ok in E as (q & _ & Hh & _ & _ & _ & _ & _ & Hl & _).
    split; [rewrite Hh; exact Hpos | rewrite Hl; exact Hdice].
Qed.

Lemma run_positions_inv ops : forall e e' rets,
  positions_inv e -> run e ops = Ok (e', rets) -> positions_inv e'.
Proof.
  induction ops as [|op ops IH]; intros e e' rets Hinv H;
    cbn [run] in H; unfold mbind, mret, Res_bind, Res_ret in H.
  - by simplify_eq.
  - res_step H. destruct a as [e1 r]. res_step H. destruct a as [e2 rs].
    simplify_eq. eapply IH; [|eassumption].
    eapply step_positions_inv; eassumption.
Qed.

Lemma NewPlayer_tokens h id username color h' player :
  NewPlayer h id username color = (h', player) ->
  (forall a tok, h !! a = Some tok -> position_ok (Token.Position tok)) ->
  forall a tok, h' !! a = Some tok -> position_ok (Token.Position tok).
Proof.
  unfold NewPlayer. intros [= <- <-] Hh a tok Ha.
  apply lookup_app_Some in Ha as [Ha|[_ Ha]]; [eauto|].
  apply list_elem_of_lookup_2 in Ha. unfold newTokens in Ha.
  apply list_elem_of_fmap in Ha as (i & -> & _). by left.
Qed.

Lemma seatAll_tokens seats : forall h h' ps,
  seatAll h seats = (h', ps) ->
  (forall a tok, h !! a = Some tok -> position_ok (Token.Position tok)) ->
  forall a tok, h' !! a = Some tok -> position_ok (Token.Position tok).
Proof.
  induction seats as [|s seats IH]; intros h h' ps H Hh; cbn [seatAll] in H.
  - by simplify_eq.
  - destruct s as [id username color|color level];
      [|unfold NewAIPlayer in H];
      destruct (NewPlayer h _ _ _) as [h1 pl] eqn:Hn;
      destruct (seatAll h1 seats) as [h2 ps'] eqn:Hs; simplify_eq;
      (eapply IH; [exact Hs|]); eapply NewPlayer_tokens; eassumption.
Qed.

Lemma freshEngine_positions_inv seats maxPlayers cbs :
  positions_inv (freshEngine seats maxPlayers cbs).
Proof.
  unfold freshEngine. destruct (seatAll [] seats) as [h ps] eqn:Hs.
  split; [|cbn; lia].
  cbn. eapply seatAll_tokens; [exact Hs|].
  intros a tok Ha. by rewrite lookup_nil in Ha.
Qed.

(** A token that is home is out of reach of every operation. *)
Lemma step_home_frozen e op e' r a tok :
  step e op = Ok (e', r) ->
  heap e !! a = Some tok -> Token.IsHome tok = true ->
  heap e' !! a = Some tok.
Proof.
  intros H Ha Hhome.
  destruct op as [raw|p raw|p t|p|]; cbn in H;
    unfold mbind, mret, Res_bind, Res_ret in H.
  - res_step H. destruct a0 as [e1 err]. simplify_eq.
    apply Start_Ok in E as [(msg & -> & ->)|(-> & _ & -> & _)]; exact Ha.
  - res_step H. destruct a0 as [e1 [[v x] err]]. simplify_eq.
    apply RollDice_Ok in E as (q & _ & [(_ & -> & -> & _)|Hok]); [exact Ha|].
    destruct Hok as (_ & _ & _ & _ & _ & -> & _). exact Ha.
  - res_step H. destruct a0 as [e1 err]. simplify_eq.
    apply MoveToken_Ok in E
      as [(msg & -> & ->)|(-> & q & tp & tok0 & tok' & Hm)]; [exact Ha|].
    destruct Hm as (_ & _ & _ & Htok & Hnh & _ & _ & -> & _).
    rewrite list_lookup_insert_ne; [exact Ha|].
    intros ->. congruence.
  - res_step H. simplify_eq.
    apply turnTimeout_Ok in E as (-> & _). exact Ha.
  - res_step H. simplify_eq.
    apply nextTurn_Ok in E as (q & _ & -> & _). exact Ha.
Qed.

End Positions.

(** * The claims about the engine *)

Section EngineClaims.
Import game.

(** C1 (the code does not do it).  A successful [MoveToken] onto a ring
    cell that is not safe and holds a token of another colour should send
    that token back to base and fire a token-captured event.  In the
    two-player game of [scenario], alice's red token moves from cell 11 to
    cell 17, which is not safe and holds bob's blue token: the move
    succeeds, the blue token keeps position 17, and the only event fired is
    the token-moved one.  [moveTokenToPosition] has put the moving token
    into the cell before [checkCapture] looks at it. *)
Theorem MoveToken_misses_capture :
  let pre := scenario.after scenario.opening in
  run scenario.engine0 scenario.opening
    = Ok (pre, scenario.returned scenario.opening) /\
  index (Board.Cells (board pre)) 17 = Ok (Cell.mk 17 false (Some 4%nat)) /\
  heap pre !! 4%nat = Some (Token.mk 0 ColorBlue 17 false false) /\
  heap pre !! 0%nat = Some (Token.mk 0 ColorRed 11 false false) /\
  Room.LastDice (room pre) = 6 /\
  match MoveToken pre 1 0 with
  | Ok (e, err) =>
      err = None /\
      heap e !! 0%nat = Some (Token.mk 0 ColorRed 17 false false) /\
      heap e !! 4%nat = Some (Token.mk 0 ColorBlue 17 false false) /\
      events e = events pre ++ [TokenMoved 1 0%nat 11 17]
  | Panic => False
  end.
Proof. vm_compute. repeat split; reflexivity. Qed.



End EngineClaims.

Section ThreeSixes.
Import game.

Lemma nextTurn_returns e :
  0 <= Room.CurrentTurn (room e) ->
  (0 < length (players e))%nat ->
  exists e', nextTurn e = Ok e'.
Proof.
  intros Hct Hlen. unfold nextTurn. unfold mbind, mret, Res_bind, Res_ret.
  destruct (Z.eqb_spec (Z.of_nat (length (players e))) 0) as [Hz|Hz]; [lia|].
  cbn.
  destruct (index_in_range (Room.Players (room e))
              (Z.rem (Room.CurrentTurn (room e) + 1)
                     (Z.of_nat (length (players e))))) as [q Hq].
  { fold (players e). split.
    - apply Z.rem_nonneg; lia.
    - apply Z.rem_bound_pos; lia. }
  unfold players in *. rewrite Hq. cbn. eauto.
Qed.

(** The path of [RollDice] that forfeits the turn. *)
Lemma RollDice_forfeit e playerID raw p :
  index (players e) (Room.CurrentTurn (room e)) = Ok p ->
  Player.ID p = playerID ->
  rolled (wrap64 (default 0 (rollCount e !! playerID) + 1)) raw = 6 ->
  3 <= Player.ConsecutiveSix p + 1 ->
  RollDice e playerID raw
  = res_bind
      (nextTurn
         (set_players
            (alter (Player.set_ConsecutiveSix 0)
                   (Z.to_nat (Room.CurrentTurn (room e))) (players e))
            (set_room (Room.set_LastDice 6 (room e))
               (set_rollCount
                  (<[playerID := wrap64 (default 0 (rollCount e !! playerID) + 1)]>
                     (rollCount e)) e))))
      (fun e1 => Ok (fire (OnDiceRolled (callbacks e1))
                          (DiceRolled playerID 6 false) e1,
                     (6, false, None))).
Proof.
  intros Hidx Hid Hsix Hcs. unfold RollDice.
  unfold mbind, mret, Res_bind, Res_ret. rewrite Hidx. cbn [res_bind].
  rewrite Hid, Z.eqb_refl. cbn [negb].
  fold (rolled (wrap64 (default 0 (rollCount e !! playerID) + 1)) raw).
  rewrite Hsix. cbn [Z.eqb Pos.eqb RollForExtraTurn].
  unfold MaxConsecutiveSix.
  destruct (Z.leb_spec 3 (Player.ConsecutiveSix p + 1)) as [_|?]; [|lia].
  eng_simpl. rewrite alter_set_ConsecutiveSix_twice. reflexivity.
Qed.

(** C3.  For the player whose turn it is, with the dice-rolled callback
    installed: when the consecutive-six counter stands at 2 and the roll
    is a 6, [RollDice] returns (6, extraTurn=false, no error), the counter
    is back at 0, current-turn has moved to the next seat, and the events
    fired are turn-changed ones followed by exactly one dice-rolled event,
    with extraTurn=false; and a roll that is not a 6 leaves the counter at
    0. *)
Theorem RollDice_three_sixes e playerID raw p :
  index (players e) (Room.CurrentTurn (room e)) = Ok p ->
  Player.ID p = playerID ->
  OnDiceRolled (callbacks e) = true ->
  (Player.ConsecutiveSix p = 2 ->
   rolled (wrap64 (default 0 (rollCount e !! playerID) + 1)) raw = 6 ->
   exists e' tc,
     RollDice e playerID raw = Ok (e', (6, false, None)) /\
     (exists p', players e' !! Z.to_nat (Room.CurrentTurn (room e)) = Some p'
                 /\ Player.ConsecutiveSix p' = 0) /\
     Room.CurrentTurn (room e')
     = Z.rem (Room.CurrentTurn (room e) + 1) (Z.of_nat (length (players e))) /\
     Forall isTurnChanged tc /\
     events e' = events e ++ tc ++ [DiceRolled playerID 6 false])
  /\
  (forall e' v x,
     RollDice e playerID raw = Ok (e', (v, x, None)) -> v <> 6 ->
     exists p', players e' !! Z.to_nat (Room.CurrentTurn (room e)) = Some p'
                /\ Player.ConsecutiveSix p' = 0).
Proof.
  intros Hidx Hid Hcb.
  pose proof (index_Ok _ _ _ Hidx) as [Hct Hseat].
  split.
  - intros Hcs Hsix.
    rewrite (RollDice_forfeit e playerID raw p Hidx Hid Hsix) by lia.
    edestruct nextTurn_returns as [e1 He1]; [| |rewrite He1].
    + exact Hct.
    + cbn. rewrite length_alter.
      pose proof (lookup_lt_Some _ _ _ Hseat). unfold players in *. lia.
    + apply nextTurn_Ok in He1
        as (q & _ & _ & _ & Hp & _ & Hc & _ & _ & Ht & Hev).
      cbn in Hp, Hc, Ht, Hev. cbn [res_bind].
      rewrite Hc, Hcb. unfold fire.
      exists (set_events (events e1 ++ [DiceRolled playerID 6 false]) e1),
             (if OnTurnChanged (callbacks e) then [TurnChanged (Player.ID q)]
              else []).
      split; [reflexivity|]. cbn.
      change (players (set_events ?v e1)) with (players e1).
      change (room (set_events ?v e1)) with (room e1).
      rewrite Hp, Ht, Hev, length_alter.
      repeat split.
      * exists (Player.set_ConsecutiveSix 0 p).
        rewrite list_lookup_alter_eq. unfold players in *. rewrite Hseat.
        split; reflexivity.
      * destruct (OnTurnChanged _); repeat constructor.
      * by rewrite <- app_assoc.
  - intros e' v x Hroll Hv.
    apply RollDice_Ok in Hroll as (q & Hq & [(_ & [=] & _)|Hok]).
    rewrite Hidx in Hq. simplify_eq.
    destruct Hok as (_ & _ & Hvr & Hx & _ & _ & _ & _ & _ & _ & Hp & _).
    assert (x = false) as ->.
    { rewrite Hx. destruct (Z.eqb_spec v 6); [contradiction | reflexivity]. }
    exists (Player.set_ConsecutiveSix 0 q).
    rewrite Hp, list_lookup_alter_eq. unfold players in *. rewrite Hseat.
    split; reflexivity.
Qed.

Lemma RollDice_three_sixes_witness :
  exists e' tc,
    RollDice (scenario.after scenario.opening) 1 0 = Ok (e', (6, false, None)) /\
    (exists p', players e' !! 0%nat = Some p'
                /\ Player.ConsecutiveSix p' = 0) /\
    Room.CurrentTurn (room e') = 1 /\
    Forall isTurnChanged tc /\
    events e' = events (scenario.after scenario.opening) ++ tc
                ++ [DiceRolled 1 6 false].
Proof.
  refine (proj1 (RollDice_three_sixes (scenario.after scenario.opening) 1 0
                   (scenario.seated (scenario.after scenario.opening) 0)
                   _ _ _) _ _);
    vm_compute; reflexivity.
Defined.

End ThreeSixes.

Section PositionsClaim.
Import game.

(** C5.  In every engine reached from a freshly filled room by any
    sequence of operations (Start, RollDice, MoveToken, the turn timeout,
    the forced turn advance), every token's position is -1 or lies in
    [0,57]; and no operation changes a token whose is_home flag is set. *)
Theorem positions_bounded_home_frozen :
  (forall seats maxPlayers cbs ops e rets a tok,
     run (freshEngine seats maxPlayers cbs) ops = Ok (e, rets) ->
     heap e !! a = Some tok ->
     Token.Position tok = -1 \/ 0 <= Token.Position tok <= 57)
  /\
  (forall e op e' r a tok,
     step e op = Ok (e', r) ->
     heap e !! a = Some tok -> Token.IsHome tok = true ->
     heap e' !! a = Some tok).
Proof.
  split.
  - intros seats maxPlayers cbs ops e rets a tok Hrun Ha.
    pose proof (freshEngine_positions_inv seats maxPlayers cbs) as Hinv.
    eapply run_positions_inv in Hinv as [Hpos _]; [|exact Hrun].
    exact (Hpos a tok Ha).
  - intros e op e' r a tok. apply step_home_frozen.
Qed.

Lemma positions_bounded_home_frozen_witness :
  (11 = -1 \/ 0 <= 11 <= 57)
  /\ heap (scenario.next scenario.withHomeToken (OpMoveToken 1 0)) !! 1%nat
     = Some scenario.homeToken.
Proof.
  split.
  - refine (proj1 positions_bounded_home_frozen scenario.seats 4
              scenario.allCallbacks scenario.opening
              (scenario.after scenario.opening)
              (scenario.returned scenario.opening) 0%nat
              (Token.mk 0 ColorRed 11 false false) _ _);
      vm_compute; reflexivity.
  - refine (proj2 positions_bounded_home_frozen scenario.withHomeToken
              (OpMoveToken 1 0)
              (scenario.next scenario.withHomeToken (OpMoveToken 1 0))
              (scenario.answer scenario.withHomeToken (OpMoveToken 1 0))
              1%nat scenario.homeToken _ _ _);
      vm_compute; reflexivity.
Defined.

End PositionsClaim.

Section Finished.
Import game.








End Finished.

(** * The claims about rooms *)

Section RoomClaims.
Import room roomspec.



Lemma removeFirst_absent playerID ps :
  Forall (fun p => Player.ID p <> playerID) ps -> removeFirst playerID ps = ps.
Proof.
  induction 1 as [|p ps Hp _ IH]; cbn; [reflexivity|].
  destruct (Z.eqb_spec (Player.ID p) playerID); [contradiction|].
  by rewrite IH.
Qed.

(** C10, as the spec has it, fails: player 7 is not seated in [staleHost],
    yet removing 7 makes player 8 the host. *)
Lemma RemovePlayer_changes_stale_host :
  ~ (forall r playerID, not_seated r playerID ->
       players (RemovePlayer r playerID) = players r /\
       Room.Players (Model (RemovePlayer r playerID)) = Room.Players (Model r) /\
       Room.HostID (Model (RemovePlayer r playerID)) = Room.HostID (Model r)).
Proof.
  intros Hclaim.
  destruct (Hclaim staleHost 7) as (_ & _ & Hhost).
  - split; [vm_compute; reflexivity|].
    vm_compute. repeat constructor. discriminate.
  - vm_compute in Hhost. discriminate.
Qed.

(** C10, amended.  For a player id that is not seated, RemovePlayer leaves
    the connection map and the ordered player list unchanged; the host
    identifier is unchanged too unless it is that very id and the room
    still has players, in which case the first seated player becomes the
    host. *)
Theorem RemovePlayer_not_seated r playerID :
  not_seated r playerID ->
  players (RemovePlayer r playerID) = players r /\
  Room.Players (Model (RemovePlayer r playerID)) = Room.Players (Model r) /\
  Room.HostID (Model (RemovePlayer r playerID))
  = match Room.Players (Model r) with
    | first :: _ =>
        if Room.HostID (Model r) =? playerID then Player.ID first
        else Room.HostID (Model r)
    | [] => Room.HostID (Model r)
    end.
Proof.
  intros [Hconn Hseat]. unfold RemovePlayer.
  rewrite (removeFirst_absent _ _ Hseat), (delete_id _ _ Hconn).
  cbn [players Model]. split; [reflexivity|].
  cbn [Room.HostID Room.set_Players].
  destruct (Room.Players (Model r)) as [|first rest] eqn:Hps.
  - rewrite andb_false_r. cbn. rewrite ?Hps. auto.
  - destruct (Room.HostID (Model r) =? playerID); cbn; rewrite ?Hps; auto.
Qed.

Lemma RemovePlayer_not_seated_witness :
  players (RemovePlayer staleHost 7) = players staleHost /\
  Room.Players (Model (RemovePlayer staleHost 7))
  = Room.Players (Model staleHost) /\
  Room.HostID (Model (RemovePlayer staleHost 7))
  = match Room.Players (Model staleHost) with
    | first :: _ =>
        if Room.HostID (Model staleHost) =? 7 then Player.ID first
        else Room.HostID (Model staleHost)
    | [] => Room.HostID (Model staleHost)
    end.
Proof.
  apply (RemovePlayer_not_seated staleHost 7).
  split; [vm_compute; reflexivity|].
  vm_compute. repeat constructor. discriminate.
Defined.

End RoomClaims.

(** * The claims about the validator *)

Section ProtocolClaims.
Import protocol.

(** C7 (the code does not do it).  For a connect message, ValidateMessage
    should accept exactly the usernames that, once trimmed, are non-blank
    and 3 to 20 long.  A payload whose username is "  a  " is accepted,
    though the trimmed name has length 1: [validateConnect] trims for the
    blank test only and measures the untrimmed string.  [ValidateUsername],
    next to it, trims first and rejects the same name. *)
Theorem validateConnect_measures_untrimmed
    (Payload : Type)
    (ExtractCreateRoom : Payload -> CreateRoomPayload + string)
    (ExtractJoinRoom : Payload -> JoinRoomPayload + string)
    (ExtractConnect : Payload -> ConnectPayload + string)
    (payload : Payload) :
  ExtractConnect payload = inl (mkConnect "  a  " "" "1.0") ->
  ValidateMessage ExtractCreateRoom ExtractJoinRoom ExtractConnect
    (Some (mkMessage "connect" payload 0 "")) = None
  /\ len (TrimSpace "  a  ") = 1
  /\ ValidateUsername "  a  "
     = Some "username must be at least 3 characters".
Proof.
  intros Hx. split; [|split; reflexivity].
  unfold ValidateMessage, validateConnect. cbn. rewrite Hx. reflexivity.
Qed.

Lemma validateConnect_measures_untrimmed_witness :
  ValidateMessage (fun _ => inr "not a create-room payload")
    (fun _ => inr "not a join-room payload") inl
    (Some (mkMessage "connect" (mkConnect "  a  " "" "1.0") 0 "")) = None
  /\ len (TrimSpace "  a  ") = 1
  /\ ValidateUsername "  a  "
     = Some "username must be at least 3 characters".
Proof.
  apply (validateConnect_measures_untrimmed ConnectPayload
           (fun _ => inr "not a create-room payload")
           (fun _ => inr "not a join-room payload") inl
           (mkConnect "  a  " "" "1.0")).
  reflexivity.
Defined.

End ProtocolClaims.

(** * The AI: what the hard policy computes *)

Section AIFrames.
Import ai aispec.

Lemma abs_Zabs x : ai.abs x = Z.abs x.
Proof. unfold ai.abs. destruct (Z.ltb_spec x 0); lia. Qed.

(** Reading a ring cell of a board whose cells point into the store. *)
Lemma ring_cell h board pos :
  length (Board.Cells board) = 52%nat ->
  Forall (fun cell => forall vp, Cell.Token cell = Some vp -> is_Some (h !! vp))
         (Board.Cells board) ->
  0 <= pos < 52 ->
  exists cell,
    index (Board.Cells board) pos = Ok cell
    /\ Board.Cells board !! Z.to_nat pos = Some cell
    /\ match Cell.Token cell with
       | Some vp => exists tok, deref h vp = Ok tok
                                /\ ringToken h board pos = Some tok
       | None => ringToken h board pos = None
       end.
Proof.
  intros Hlen Hcells Hpos.
  destruct (index_in_range (Board.Cells board) pos) as [cell Hc]; [lia|].
  exists cell. pose proof (index_Ok _ _ _ Hc) as [_ Hl].
  split; [done|]. split; [done|].
  unfold ringToken. rewrite Hl. simpl.
  destruct (Cell.Token cell) as [vp|] eqn:Ht; simpl; [|done].
  rewrite Forall_lookup in Hcells.
  destruct (Hcells _ _ Hl vp Ht) as [tok Htok].
  exists tok. unfold deref. rewrite Htok. done.
Qed.

Lemma holdsColor_total h cell color :
  (forall vp, Cell.Token cell = Some vp -> is_Some (h !! vp)) ->
  exists b, holdsColor h cell color = Ok b.
Proof.
  intros Hcell. unfold holdsColor.
  destruct (Cell.Token cell) as [vp|]; [|by eexists].
  destruct (Hcell vp eq_refl) as [tok Htok].
  unfold deref. rewrite Htok. by eexists.
Qed.

Lemma ai_calculateNewPosition_nonneg tok dice color :
  0 <= Token.Position tok -> 0 <= dice ->
  0 <= calculateNewPosition tok dice color.
Proof.
  intros Hp Hd. unfold calculateNewPosition. cbv zeta.
  destruct (Z.eqb_spec (Token.Position tok) (-1)); [lia|].
  destruct (Z.ltb_spec (Token.Position tok) (HomeStretchStart color)),
    (Z.leb_spec (HomeStretchStart color) (Token.Position tok + dice));
    cbn [andb]; try lia;
    destruct (_ && _); try lia; apply Z.rem_nonneg; lia.
Qed.

Lemma canMoveToken_total h player dice board tp :
  ready h player dice board -> tp ∈ Player.Tokens player ->
  exists b, canMoveToken h tp dice (Player.Color player) board = Ok b.
Proof.
  intros (Hlen & Hcells & (stretch & Hst & Hslen & Hscells) & Htoks & Hd) Htp.
  rewrite Forall_forall in Htoks.
  destruct (Htoks _ Htp) as (tok & Htok & Hpos).
  unfold canMoveToken, deref. rewrite Htok. res_unfold. cbn [res_bind].
  destruct (Token.IsHome tok); [by eexists|].
  destruct (Z.eqb_spec (Token.Position tok) (-1)); [by eexists|].
  cbv zeta.
  pose proof (ai_calculateNewPosition_nonneg tok dice (Player.Color player))
    as Hnn.
  set (newPos := calculateNewPosition tok dice (Player.Color player)) in *.
  destruct (Z.ltb_spec 57 newPos); [by eexists|].
  destruct (Z.leb_spec 52 newPos).
  - unfold homeCell. rewrite Hst.
    destruct (index_in_range stretch (newPos - 52)) as [cell Hc]; [lia|].
    rewrite Hc. cbn [res_bind].
    destruct (holdsColor_total h cell (Player.Color player)) as [b Hb].
    { apply index_Ok in Hc as [_ Hl].
      rewrite Forall_lookup in Hscells. exact (Hscells _ _ Hl). }
    rewrite Hb. by eexists.
  - destruct (index_in_range (Board.Cells board) newPos) as [cell Hc]; [lia|].
    rewrite Hc. cbn [res_bind].
    destruct (holdsColor_total h cell (Player.Color player)) as [b Hb].
    { apply index_Ok in Hc as [_ Hl].
      rewrite Forall_lookup in Hcells. exact (Hcells _ _ Hl). }
    rewrite Hb. by eexists.
Qed.

(** [getValidTokens] keeps, in their order, the tokens [canMoveToken]
    accepts. *)
Lemma getValidTokens_loop_filter h player dice board tokens :
  Forall (fun tp => exists b,
            canMoveToken h tp dice (Player.Color player) board = Ok b)
         tokens ->
  getValidTokens_loop h tokens dice (Player.Color player) board
  = Ok (List.filter (legal h player dice board) tokens).
Proof.
  induction 1 as [|tp rest [b Hb] _ IH]; [reflexivity|].
  cbn [getValidTokens_loop List.filter]. unfold legal at 1.
  rewrite Hb, IH. res_unfold. cbn [res_bind]. by destruct b.
Qed.

Lemma canCapture_spec h board color dest :
  length (Board.Cells board) = 52%nat ->
  Forall (fun cell => forall vp, Cell.Token cell = Some vp -> is_Some (h !! vp))
         (Board.Cells board) ->
  exists b, canCapture h dest color board = Ok b
            /\ indicates b (Captures h board color dest).
Proof.
  intros Hlen Hcells. unfold canCapture, indicates, Captures.
  destruct (Z.ltb_spec dest 0); cbn [orb].
  { exists false. split; [done|]. split; [done|]. intros [? _]. lia. }
  destruct (Z.leb_spec 52 dest).
  { exists false. split; [done|]. split; [done|]. intros [? _]. lia. }
  destruct (ring_cell h board dest Hlen Hcells) as (cell & Hc & Hl & Hread);
    [lia|].
  rewrite Hc. res_unfold. cbn [res_bind].
  destruct (Cell.Token cell) as [vp|].
  - destruct Hread as (tok & Hd & Hr).
    destruct (Cell.IsSafe cell) eqn:Hs.
    + exists false. split; [done|]. split; [done|].
      intros (_ & c & t & Hl' & Hs' & _). congruence.
    + rewrite Hd. cbn [res_bind].
      destruct (String.eqb (Token.Color tok) color) eqn:E; cbn [negb].
      * apply String.eqb_eq in E. exists false. split; [done|].
        split; [done|]. intros (_ & c & t & _ & _ & Ht & Hne). congruence.
      * apply String.eqb_neq in E. exists true. split; [done|].
        split; [|done]. intros _. split; [lia|]. by exists cell, tok.
  - exists false. split; [done|]. split; [done|].
    intros (_ & c & t & _ & _ & Ht & _). congruence.
Qed.

Lemma isTokenIsolated_loop_spec h tok tokens :
  Forall (fun tp => is_Some (h !! tp)) tokens ->
  exists b, isTokenIsolated_loop h tok tokens = Ok b
            /\ (b = true <->
                forall op other,
                  op ∈ tokens -> h !! op = Some other ->
                  Token.ID other = Token.ID tok \/ Token.Position other < 0
                  \/ 6 < Z.abs (Token.Position tok - Token.Position other)).
Proof.
  induction 1 as [|op rest [other Hother] _ (b & Hb & Hspec)].
  - exists true. split; [done|]. split; [|done].
    intros _ op other Hop. by apply elem_of_nil in Hop.
  - cbn [isTokenIsolated_loop]. unfold deref. rewrite Hother.
    res_unfold. cbn [res_bind]. cbv zeta. rewrite abs_Zabs.
    assert (Hstep : forall P : Prop,
               P ->
               (b = true <->
                forall op0 other0,
                  op0 ∈ op :: rest -> h !! op0 = Some other0 ->
                  Token.ID other0 = Token.ID tok \/ Token.Position other0 < 0
                  \/ 6 < Z.abs (Token.Position tok - Token.Position other0))
               \/ True -> True) by done.
    clear Hstep.
    destruct (Z.eqb_spec (Token.ID other) (Token.ID tok)) as [Hid|Hid];
      cbn [orb].
    { exists b. split; [done|]. rewrite Hspec. split.
      - intros Hall op0 other0 Hin Hl.
        apply elem_of_cons in Hin as [->|Hin]; [|eauto].
        left. congruence.
      - intros Hall op0 other0 Hin. apply Hall. by apply elem_of_cons; right. }
    destruct (Z.ltb_spec (Token.Position other) 0) as [Hneg|Hneg].
    { exists b. split; [done|]. rewrite Hspec. split.
      - intros Hall op0 other0 Hin Hl.
        apply elem_of_cons in Hin as [->|Hin]; [|eauto].
        right; left. congruence.
      - intros Hall op0 other0 Hin. apply Hall. by apply elem_of_cons; right. }
    destruct (Z.leb_spec (Z.abs (Token.Position tok - Token.Position other)) 6)
      as [Hnear|Hfar].
    + exists false. split; [done|]. split; [done|]. intros Hall.
      destruct (Hall op other) as [?|[?|?]];
        [by apply elem_of_cons; left | done | lia | lia | lia].
    + exists b. split; [done|]. rewrite Hspec. split.
      * intros Hall op0 other0 Hin Hl.
        apply elem_of_cons in Hin as [->|Hin]; [|eauto].
        right; right. congruence.
      * intros Hall op0 other0 Hin. apply Hall. by apply elem_of_cons; right.
Qed.

Lemma isTokenIsolated_spec h tok tokens board :
  Forall (fun tp => is_Some (h !! tp)) tokens ->
  exists b, isTokenIsolated h tok tokens board = Ok b
            /\ indicates b (Isolated h tokens tok).
Proof.
  intros Htoks. unfold isTokenIsolated, indicates, Isolated.
  destruct (Z.ltb_spec (Token.Position tok) 0); cbn [orb].
  { exists false. split; [done|]. split; [done|]. intros [? _]. lia. }
  destruct (Z.leb_spec 52 (Token.Position tok)).
  { exists false. split; [done|]. split; [done|]. intros [? _]. lia. }
  destruct (isTokenIsolated_loop_spec h tok tokens Htoks) as (b & Hb & Hspec).
  exists b. split; [done|]. rewrite Hspec. split; [intros ?; split; [lia|done]|].
  by intros [_ ?].
Qed.

Lemma isSafePosition_on_ring pos :
  isSafePosition pos = false -> 0 <= pos < 52.
Proof.
  unfold isSafePosition.
  destruct (Z.ltb_spec pos 0); cbn [orb]; [done|].
  destruct (Z.leb_spec 52 pos); [done|]. lia.
Qed.

Lemma isPositionDangerous_loop_spec h board color pos steps :
  length (Board.Cells board) = 52%nat ->
  Forall (fun cell => forall vp, Cell.Token cell = Some vp -> is_Some (h !! vp))
         (Board.Cells board) ->
  0 <= pos < 52 ->
  Forall (fun i => 1 <= i <= 6) steps ->
  exists b, isPositionDangerous_loop h steps pos color board = Ok b
            /\ (b = true <->
                exists i tok, i ∈ steps
                  /\ ringToken h board (behind pos i) = Some tok
                  /\ Token.Color tok <> color).
Proof.
  intros Hlen Hcells Hpos.
  induction 1 as [|i rest Hi _ (b & Hb & Hspec)].
  - exists false. split; [done|]. split; [done|].
    intros (i & tok & Hi & _). by apply elem_of_nil in Hi.
  - destruct (ring_cell h board (behind pos i) Hlen Hcells)
      as (cell & Hc & _ & Hread).
    { unfold behind. apply Z.rem_bound_pos; lia. }
    cbn [isPositionDangerous_loop]. cbv zeta.
    change (Z.rem (pos - i + 52) 52) with (behind pos i).
    rewrite Hc. res_unfold. cbn [res_bind].
    destruct (Cell.Token cell) as [vp|].
    + destruct Hread as (tok & Hd & Hr). rewrite Hd. cbn [res_bind].
      destruct (String.eqb (Token.Color tok) color) eqn:E; cbn [negb].
      * apply String.eqb_eq in E. exists b. split; [done|].
        rewrite Hspec. split.
        -- intros (j & t & Hj & Ht & Hne). exists j, t.
           rewrite elem_of_cons. eauto.
        -- intros (j & t & Hj & Ht & Hne).
           apply elem_of_cons in Hj as [->|Hj]; [congruence|eauto].
      * apply String.eqb_neq in E. exists true. split; [done|].
        split; [|done]. intros _. exists i, tok. rewrite elem_of_cons. eauto.
    + exists b. split; [done|]. rewrite Hspec. split.
      * intros (j & t & Hj & Ht & Hne). exists j, t.
        rewrite elem_of_cons. eauto.
      * intros (j & t & Hj & Ht & Hne).
        apply elem_of_cons in Hj as [->|Hj]; [congruence|eauto].
Qed.

Lemma oneToSix_range : Forall (fun i => 1 <= i <= 6) oneToSix.
Proof. unfold oneToSix. repeat constructor; lia. Qed.

Lemma isPositionDangerous_spec h board color dest :
  length (Board.Cells board) = 52%nat ->
  Forall (fun cell => forall vp, Cell.Token cell = Some vp -> is_Some (h !! vp))
         (Board.Cells board) ->
  exists b, isPositionDangerous h dest color board = Ok b
            /\ indicates b (Dangerous h board color dest).
Proof.
  intros Hlen Hcells. unfold isPositionDangerous, indicates, Dangerous.
  destruct (isSafePosition dest) eqn:Hsafe.
  { exists false. split; [done|]. split; [done|]. by intros [? _]. }
  destruct (isPositionDangerous_loop_spec h board color dest oneToSix
              Hlen Hcells (isSafePosition_on_ring _ Hsafe) oneToSix_range)
    as (b & Hb & Hspec).
  exists b. split; [done|]. rewrite Hspec. split; [by intros ?; split|].
  by intros [_ ?].
Qed.

Lemma blocksOpponent_loop_spec h board pos steps :
  length (Board.Cells board) = 52%nat ->
  Forall (fun cell => forall vp, Cell.Token cell = Some vp -> is_Some (h !! vp))
         (Board.Cells board) ->
  0 <= pos < 52 ->
  Forall (fun i => 1 <= i <= 6) steps ->
  exists b, blocksOpponent_loop h steps pos board = Ok b
            /\ (b = true <->
                exists i tok, i ∈ steps
                  /\ ringToken h board (ahead pos i) = Some tok
                  /\ 45 < Token.Position tok).
Proof.
  intros Hlen Hcells Hpos.
  induction 1 as [|i rest Hi _ (b & Hb & Hspec)].
  - exists false. split; [done|]. split; [done|].
    intros (i & tok & Hi & _). by apply elem_of_nil in Hi.
  - destruct (ring_cell h board (ahead pos i) Hlen Hcells)
      as (cell & Hc & _ & Hread).
    { unfold ahead. apply Z.rem_bound_pos; lia. }
    cbn [blocksOpponent_loop]. cbv zeta.
    change (Z.rem (pos + i) 52) with (ahead pos i).
    rewrite Hc. res_unfold. cbn [res_bind].
    destruct (Cell.Token cell) as [vp|].
    + destruct Hread as (tok & Hd & Hr). rewrite Hd. cbn [res_bind].
      destruct (Z.ltb_spec 45 (Token.Position tok)) as [Hrun|Hrun].
      * exists true. split; [done|].
        split; [|done]. intros _. exists i, tok. rewrite elem_of_cons. eauto.
      * exists b. split; [done|]. rewrite Hspec. split.
        -- intros (j & t & Hj & Ht & Hgt). exists j, t.
           rewrite elem_of_cons. eauto.
        -- intros (j & t & Hj & Ht & Hgt).
           apply elem_of_cons in Hj as [->|Hj]; [|eauto].
           assert (t = tok) by congruence. subst t. lia.
    + exists b. split; [done|]. rewrite Hspec. split.
      * intros (j & t & Hj & Ht & Hgt). exists j, t.
        rewrite elem_of_cons. eauto.
      * intros (j & t & Hj & Ht & Hgt).
        apply elem_of_cons in Hj as [->|Hj]; [congruence|eauto].
Qed.

(** The blocking test looks at the position of whatever token is ahead,
    of any colour. *)
Lemma blocksOpponent_spec h board dest :
  length (Board.Cells board) = 52%nat ->
  Forall (fun cell => forall vp, Cell.Token cell = Some vp -> is_Some (h !! vp))
         (Board.Cells board) ->
  exists b, blocksOpponent h dest board = Ok b
            /\ indicates b (RunnerAhead h board dest (fun _ => True)).
Proof.
  intros Hlen Hcells. unfold blocksOpponent, indicates, RunnerAhead.
  destruct (Z.ltb_spec dest 0); cbn [orb].
  { exists false. split; [done|]. split; [done|]. intros [? _]. lia. }
  destruct (Z.leb_spec 52 dest).
  { exists false. split; [done|]. split; [done|]. intros [? _]. lia. }
  destruct (blocksOpponent_loop_spec h board dest oneToSix Hlen Hcells)
    as (b & Hb & Hspec); [lia | apply oneToSix_range |].
  exists b. split; [done|]. rewrite Hspec. split.
  - intros (i & tok & ? & ? & ?). split; [lia|]. by exists i, tok.
  - intros (_ & i & tok & ? & ? & ? & _). by exists i, tok.
Qed.

Lemma evaluateMove_score h player dice board tp :
  ready h player dice board -> tp ∈ Player.Tokens player ->
  exists s, evaluateMove h tp dice player board = Ok s
            /\ hard_score h player dice board tp s.
Proof.
  intros (Hlen & Hcells & _ & Htoks & _) Htp.
  assert (Hstore : Forall (fun tp => is_Some (h !! tp)) (Player.Tokens player)).
  { eapply Forall_impl; [exact Htoks|]. intros ? (tok & -> & _). by eexists. }
  rewrite Forall_forall in Htoks. destruct (Htoks _ Htp) as (tok & Htok & _).
  unfold evaluateMove, deref, hard_score. rewrite Htok.
  res_unfold. cbn [res_bind]. cbv zeta.
  set (dest := calculateNewPosition tok dice (Player.Color player)).
  destruct (canCapture_spec h board (Player.Color player) dest Hlen Hcells)
    as (cap & Hcap & Hcap').
  destruct (isTokenIsolated_spec h tok (Player.Tokens player) board Hstore)
    as (iso & Hiso & Hiso').
  destruct (isPositionDangerous_spec h board (Player.Color player) dest
              Hlen Hcells) as (dng & Hdng & Hdng').
  destruct (blocksOpponent_spec h board dest Hlen Hcells)
    as (blk & Hblk & Hblk').
  rewrite Hcap. cbn [res_bind]. rewrite Hiso. cbn [res_bind].
  rewrite Hdng. cbn [res_bind]. rewrite Hblk. cbn [res_bind].
  eexists. split; [reflexivity|].
  exists tok, cap, iso, dng, blk.
  split; [done|]. split; [done|]. split; [done|]. split; [done|].
  split.
  { intros (Hr & i & t & Hi & Ht & Hgt & _). apply Hblk'.
    split; [done|]. by exists i, t. }
  split; [apply Hblk'|].
  subst dest. set (dest := calculateNewPosition tok dice (Player.Color player)).
  destruct cap, ((Token.Position tok =? -1) && (dice =? RollToStart)),
    (52 <=? dest), (isSafePosition dest), iso, dng, blk; lia.
Qed.

Lemma scores_loop_map h player dice board (score : nat -> Z) tokens :
  Forall (fun tp => evaluateMove h tp dice player board = Ok (score tp))
         tokens ->
  scores_loop h tokens dice player board
  = Ok (map (fun tp => (tp, score tp)) tokens).
Proof.
  induction 1 as [|tp rest Hs _ IH]; [reflexivity|].
  cbn [scores_loop map]. rewrite Hs, IH. reflexivity.
Qed.

(** The scan keeps the earliest of the best scores: it replaces the best
    only by a strictly greater one. *)
Lemma best_loop_first_best (score : nat -> Z) rest :
  forall before tp mid,
    Forall (fun tq => score tq < score tp) before ->
    Forall (fun tq => score tq <= score tp) mid ->
    first_best (before ++ tp :: mid ++ rest) score
      (Some (best_loop (tp, score tp)
               (map (fun tq => (tq, score tq)) rest)).1).
Proof.
  induction rest as [|t rest IH]; intros before tp mid Hbefore Hmid.
  - simpl. exists before, mid. by rewrite app_nil_r.
  - cbn [map best_loop fst snd].
    destruct (Z.ltb_spec (score tp) (score t)) as [Hlt|Hge].
    + replace (before ++ tp :: mid ++ t :: rest)
        with ((before ++ tp :: mid) ++ t :: [] ++ rest)
        by (by rewrite <- app_assoc).
      apply IH; [|constructor].
      apply Forall_app. split.
      * eapply Forall_impl; [exact Hbefore|]. simpl. lia.
      * constructor; [lia|].
        eapply Forall_impl; [exact Hmid|]. simpl. lia.
    + replace (before ++ tp :: mid ++ t :: rest)
        with (before ++ tp :: (mid ++ [t]) ++ rest)
        by (by rewrite <- (app_assoc mid)).
      apply IH; [done|].
      apply Forall_app. split; [done|]. constructor; [lia|constructor].
Qed.

End AIFrames.

(** * The claims about the AI *)

Section AIClaims.
Import ai aispec.




End AIClaims.

(** * Whole games: what the engine keeps, and that it never panics *)

Section EngineSafety.
Import game enginespec.

Lemma board_ok_heap_insert h b tp tok :
  board_ok h b -> board_ok (<[tp := tok]> h) b.
Proof.
  intros (Hlen & Hptr & Hst). split; [done|]. split; [|done].
  intros cell vp Hc Hv. apply lookup_lt_is_Some. rewrite length_insert.
  apply lookup_lt_is_Some. eauto.
Qed.

Lemma setCellToken_returns b pos v :
  length (Board.Cells b) = 52%nat -> 0 <= pos < 52 ->
  exists b', setCellToken b pos v = Ok b'.
Proof.
  intros Hlen Hpos. unfold setCellToken.
  destruct (index_in_range (Board.Cells b) pos) as [cell Hc]; [lia|].
  rewrite Hc. by eexists.
Qed.

Lemma setCellToken_board_ok h b pos v b' :
  board_ok h b -> setCellToken b pos v = Ok b' ->
  (forall vp, v = Some vp -> is_Some (h !! vp)) ->
  board_ok h b' /\ Board.HomeStretches b' = Board.HomeStretches b.
Proof.
  intros (Hlen & Hptr & Hst) H Hv.
  apply setCellToken_Ok in H as (cell & Hc & ->). unfold board_ok.
  cbn [Board.Cells Board.set_Cells Board.HomeStretches].
  split; [|reflexivity]. split; [by rewrite length_insert|]. split; [|done].
  intros c vp Hin Hcv.
  apply list_elem_of_lookup in Hin as [i Hi].
  apply list_lookup_insert_Some in Hi as [(_ & <- & _)|[_ Hi]].
  - cbn in Hcv. eauto.
  - eapply Hptr; [|exact Hcv]. eapply list_elem_of_lookup_2. exact Hi.
Qed.

Lemma setHomeCellToken_returns b color homeIdx v stretch :
  Board.HomeStretches b !! color = Some stretch ->
  length stretch = 6%nat -> 0 <= homeIdx < 6 ->
  exists b', setHomeCellToken b color homeIdx v = Ok b'.
Proof.
  intros Hs Hlen Hidx. unfold setHomeCellToken. rewrite Hs.
  destruct (index_in_range stretch homeIdx) as [cell Hc]; [lia|].
  rewrite Hc. by eexists.
Qed.

Lemma setHomeCellToken_board_ok h b color homeIdx v b' :
  board_ok h b -> setHomeCellToken b color homeIdx v = Ok b' ->
  board_ok h b'
  /\ Board.Cells b' = Board.Cells b
  /\ (forall c, is_Some (Board.HomeStretches b !! c)
                -> is_Some (Board.HomeStretches b' !! c)).
Proof.
  intros (Hlen & Hptr & Hst & Hdom) H. unfold setHomeCellToken in H.
  destruct (Board.HomeStretches b !! color) as [stretch|] eqn:Hs;
    [|discriminate].
  res_unfold. res_case H. simplify_eq. unfold board_ok.
  cbn [Board.Cells Board.set_HomeStretches Board.HomeStretches].
  assert (Hkeep : forall c, is_Some (Board.HomeStretches b !! c) ->
            is_Some (<[color := <[Z.to_nat homeIdx := Cell.set_Token v a]>
                                  stretch]> (Board.HomeStretches b) !! c)).
  { intros c Hc. destruct (decide (color = c)) as [->|Hne].
    - rewrite lookup_insert_eq. by eexists.
    - by rewrite lookup_insert_ne. }
  split; [|split; [reflexivity|exact Hkeep]].
  split; [done|]. split; [done|]. split; [|by eauto].
  intros c st Hc. destruct (decide (color = c)) as [->|Hne].
  - rewrite lookup_insert_eq in Hc. simplify_eq. rewrite length_insert. eauto.
  - rewrite lookup_insert_ne in Hc by done. eauto.
Qed.

(** Where a colour without a home entry can go: never into a home
    stretch. *)
Lemma calculateNewPosition_home tok dice color :
  -1 <= Token.Position tok ->
  52 <= calculateNewPosition tok dice color ->
  52 <= Token.Position tok \/ is_Some (HomeStretchStart_map !! color).
Proof.
  intros Hpos. unfold calculateNewPosition. cbv zeta.
  destruct (Z.eqb_spec (Token.Position tok) (-1)).
  { pose proof (StartingPositions_range color). lia. }
  destruct (Z.ltb_spec (Token.Position tok) (HomeStretchStart color)) as [Hlt|].
  - intros _. unfold HomeStretchStart in Hlt.
    destruct (HomeStretchStart_map !! color) eqn:Hc; [by right; eexists|].
    cbn in Hlt.
    destruct (Z.leb_spec 0 (Token.Position tok + dice)); cbn [andb]; lia.
  - cbn [andb].
    destruct (Z.leb_spec 52 (Token.Position tok + dice)),
      (Z.ltb_spec (Token.Position tok) 52); cbn [andb]; try lia.
    intros Hge. pose proof (Z.rem_bound_pos (Token.Position tok + dice) 52).
    lia.
Qed.

(** The home stretch a move into the stretch is made on. *)
Lemma home_stretch_of_move h b p tok dice :
  board_ok h b ->
  position_ok (Token.Position tok) ->
  (52 <= Token.Position tok
   -> is_Some (Board.HomeStretches b !! Player.Color p)) ->
  52 <= calculateNewPosition tok dice (Player.Color p) ->
  exists stretch,
    Board.HomeStretches b !! Player.Color p = Some stretch
    /\ length stretch = 6%nat.
Proof.
  intros (_ & _ & Hst & Hdom) Hpos Hhome Hnew.
  assert (Hs : is_Some (Board.HomeStretches b !! Player.Color p)).
  { apply calculateNewPosition_home in Hnew as [?|?];
      [eauto | eauto | destruct Hpos; lia]. }
  destruct Hs as [stretch Hs]. exists stretch. split; [done|]. eauto.
Qed.

Lemma canMoveToken_returns e p tp dice :
  board_ok (heap e) (board e) ->
  token_ok (heap e) (board e) p tp ->
  0 <= dice ->
  exists can, canMoveToken e tp dice (Player.Color p) = Ok can.
Proof.
  intros Hb (tok & Htok & Hcol & Hpos & Hhome & Hst) Hd.
  unfold canMoveToken, deref. rewrite Htok. res_unfold. cbn [res_bind].
  rewrite Hhome.
  destruct ((Token.Position tok =? -1) && negb (dice =? RollToStart));
    [by eexists|].
  cbv zeta.
  pose proof (calculateNewPosition_nonneg tok dice (Player.Color p) Hpos Hd)
    as Hnn.
  pose proof (home_stretch_of_move _ _ p tok dice Hb Hpos Hst) as Hstretch.
  set (newPos := calculateNewPosition tok dice (Player.Color p)) in *.
  destruct (Z.ltb_spec 57 newPos); [by eexists|].
  destruct (Z.leb_spec 52 newPos) as [Hge|Hlt].
  - destruct (Hstretch Hge) as (stretch & Hs & Hlen).
    unfold homeCell. rewrite Hs.
    destruct (index_in_range stretch (newPos - 52)) as [cell Hc]; [lia|].
    rewrite Hc. cbn [res_bind]. destruct (Cell.Token cell); by eexists.
  - destruct Hb as (Hlen & Hptr & _).
    destruct (index_in_range (Board.Cells (board e)) newPos) as [cell Hc];
      [lia|].
    rewrite Hc. cbn [res_bind].
    destruct (Cell.Token cell) as [op|] eqn:Hop; [|by eexists].
    destruct (Hptr cell op) as [other Hother]; [|done|].
    { apply index_Ok in Hc as [_ Hc]. eapply list_elem_of_lookup_2. exact Hc. }
    rewrite Hother. cbn [res_bind].
    destruct (String.eqb _ _); by eexists.
Qed.

Lemma hasValidMove_loop_returns e p dice tokens :
  board_ok (heap e) (board e) ->
  Forall (token_ok (heap e) (board e) p) tokens ->
  0 <= dice ->
  exists can, hasValidMove_loop e tokens dice (Player.Color p) = Ok can.
Proof.
  intros Hb Htoks Hd.
  induction Htoks as [|tp rest Htp _ IH]; [by eexists|].
  cbn [hasValidMove_loop].
  destruct (canMoveToken_returns e p tp dice Hb Htp Hd) as [can Hcan].
  rewrite Hcan. res_unfold. cbn [res_bind].
  destruct can; [by eexists | exact IH].
Qed.

(** A move to a position up to 57 of a token at a position of the data
    model returns, keeps the board in shape and puts the token on its
    ring cell. *)
Lemma moveTokenToPosition_returns e p tp tok newPos :
  board_ok (heap e) (board e) ->
  heap e !! tp = Some tok ->
  position_ok (Token.Position tok) ->
  (52 <= Token.Position tok
   -> is_Some (Board.HomeStretches (board e) !! Player.Color p)) ->
  (52 <= newPos
   -> is_Some (Board.HomeStretches (board e) !! Player.Color p)) ->
  0 <= newPos <= 57 ->
  exists b1 tok1,
    moveTokenToPosition e tp newPos (Player.Color p)
    = Ok (set_heap (<[tp := tok1]> (heap e)) (set_board b1 e))
    /\ board_ok (<[tp := tok1]> (heap e)) b1
    /\ (forall c, is_Some (Board.HomeStretches (board e) !! c)
                  -> is_Some (Board.HomeStretches b1 !! c))
    /\ Token.Position tok1 = newPos
    /\ Token.IsHome tok1 = Token.IsHome tok
    /\ Token.Color tok1 = Token.Color tok
    /\ Token.ID tok1 = Token.ID tok
    /\ (newPos < 52 ->
        exists cell, index (Board.Cells b1) newPos = Ok cell
                     /\ Cell.Token cell = Some tp).
Proof.
  intros Hb Htok Hpos Hfrom Hto Hnew.
  unfold moveTokenToPosition, deref. rewrite Htok.
  res_unfold. cbn [res_bind]. cbv zeta.
  (* the cell the token leaves *)
  assert (Hleave :
    exists b0,
      (if (0 <=? Token.Position tok) && (Token.Position tok <? 52)
       then setCellToken (board e) (Token.Position tok) None
       else if 52 <=? Token.Position tok
            then setHomeCellToken (board e) (Player.Color p)
                   (Token.Position tok - 52) None
            else Ok (board e)) = Ok b0
      /\ board_ok (heap e) b0
      /\ (forall c, is_Some (Board.HomeStretches (board e) !! c)
                    -> is_Some (Board.HomeStretches b0 !! c))).
  { destruct (Z.leb_spec 0 (Token.Position tok)),
      (Z.ltb_spec (Token.Position tok) 52); cbn [andb].
    - destruct (setCellToken_returns (board e) (Token.Position tok) None)
        as [b0 Hb0]; [apply Hb | lia |].
      exists b0. split; [done|].
      destruct (setCellToken_board_ok _ _ _ _ _ Hb Hb0) as [Hok Hhs];
        [discriminate|].
      split; [done|]. intros c. by rewrite Hhs.
    - destruct (Z.leb_spec 52 (Token.Position tok)); [|lia].
      destruct Hfrom as [stretch Hs]; [lia|].
      destruct (setHomeCellToken_returns (board e) (Player.Color p)
                  (Token.Position tok - 52) None stretch Hs) as [b0 Hb0].
      { destruct Hb as (_ & _ & Hlen & _). eauto. }
      { destruct Hpos; lia. }
      exists b0. split; [done|].
      destruct (setHomeCellToken_board_ok _ _ _ _ _ _ Hb Hb0)
        as (Hok & _ & Hkeep). done.
    - destruct (Z.leb_spec 52 (Token.Position tok)); [lia|].
      exists (board e). done.
    - lia. }
  destruct Hleave as (b0 & -> & Hb0 & Hkeep0). cbn [res_bind].
  assert (Htp : is_Some (heap e !! tp)) by (by eexists).
  destruct (Z.leb_spec 52 newPos) as [Hge|Hlt].
  - destruct (Z.leb_spec 6 (newPos - 52)); [lia|].
    destruct (Hkeep0 _ (Hto Hge)) as [stretch Hs].
    destruct (setHomeCellToken_returns b0 (Player.Color p) (newPos - 52)
                (Some tp) stretch Hs) as [b1 Hb1].
    { destruct Hb0 as (_ & _ & Hlen & _). eauto. }
    { lia. }
    rewrite Hb1. cbn [res_bind].
    destruct (setHomeCellToken_board_ok _ _ _ _ _ _ Hb0 Hb1)
      as (Hok & _ & Hkeep).
    eexists b1, _. split; [reflexivity|].
    split; [by apply board_ok_heap_insert|].
    split; [by eauto|].
    repeat split; try reflexivity. intros; lia.
  - destruct (setCellToken_returns b0 newPos (Some tp)) as [b1 Hb1];
      [apply Hb0 | lia |].
    rewrite Hb1. cbn [res_bind].
    destruct (setCellToken_board_ok _ _ _ _ _ Hb0 Hb1) as [Hok Hhs].
    { by intros vp [= <-]. }
    destruct (index_in_range (Board.Cells b1) newPos) as [cell Hc].
    { destruct Hok as (-> & _). lia. }
    rewrite Hc. cbn [res_bind].
    eexists b1, _. split; [reflexivity|].
    split; [by apply board_ok_heap_insert|].
    split; [intros c Hcs; rewrite Hhs; by eauto|].
    repeat split; try reflexivity.
    intros _. exists cell. split; [done|].
    eapply setCellToken_read; eassumption.
Qed.

(** After its move the mover stands on the destination: the capture check
    finds a token of the capturer's own colour and captures nothing. *)
Lemma checkCapture_own e pos capturer tp tok :
  (0 <= pos < 52 ->
   exists cell, index (Board.Cells (board e)) pos = Ok cell
                /\ Cell.Token cell = Some tp) ->
  heap e !! tp = Some tok ->
  Token.Color tok = Player.Color capturer ->
  checkCapture e pos capturer = Ok (e, None).
Proof.
  intros Hcell Htok Hcol. unfold checkCapture.
  destruct (Z.ltb_spec pos 0); cbn [orb]; [reflexivity|].
  destruct (Z.leb_spec 52 pos); [reflexivity|].
  destruct Hcell as (cell & Hc & Ht); [lia|].
  rewrite Hc. res_unfold. cbn [res_bind]. rewrite Ht.
  destruct (Cell.IsSafe cell); [reflexivity|].
  unfold deref. rewrite Htok. cbn [res_bind].
  rewrite Hcol, String.eqb_refl. reflexivity.
Qed.

Lemma checkWin_loop_false h tokens :
  tokens <> [] ->
  Forall (fun tp => exists tok, h !! tp = Some tok /\ Token.IsHome tok = false)
         tokens ->
  checkWin_loop h tokens = Ok false.
Proof.
  intros Hne Htoks. destruct Htoks as [|tp rest (tok & Htok & Hhome) _];
    [done|].
  cbn [checkWin_loop]. unfold deref. rewrite Htok.
  res_unfold. cbn [res_bind]. by rewrite Hhome.
Qed.

Lemma nextTurn_rest e e' :
  nextTurn e = Ok e' ->
  Game.TurnHistory (game.game e') = Game.TurnHistory (game.game e)
  /\ Game.Winner (game.game e') = Game.Winner (game.game e).
Proof.
  unfold nextTurn. res_unfold. cbv zeta. intros H.
  res_case H; [discriminate|]. res_case H. simplify_eq.
  destruct (Player.IsAI a); cbn; rewrite fire_game; done.
Qed.

(** [MoveToken] on a sound engine: it returns, and a move that is made
    captures nothing, ends no game and passes the turn unless the dice
    shows a six. *)
Lemma MoveToken_sound e playerID tokenID :
  sound e ->
  exists e' err,
    MoveToken e playerID tokenID = Ok (e', err)
    /\ ((exists msg, err = Some msg /\ e' = e)
        \/ (err = None
            /\ sound e'
            /\ (exists new, events e' = events e ++ new /\ Forall isQuiet new)
            /\ (exists a, Game.TurnHistory (game.game e')
                          = Game.TurnHistory (game.game e) ++ [a]
                          /\ TurnAction.Captured a = None)
            /\ Game.Winner (game.game e') = Game.Winner (game.game e)
            /\ Room.State (room e') = Room.State (room e)
            /\ players e' = players e
            /\ Room.LastDice (room e') = Room.LastDice (room e)
            /\ Room.CurrentTurn (room e')
               = (if Room.LastDice (room e) =? 6
                  then Room.CurrentTurn (room e)
                  else Z.rem (Room.CurrentTurn (room e) + 1)
                             (Z.of_nat (length (players e))))
            /\ exists p tp tok tok',
                 index (players e) (Room.CurrentTurn (room e)) = Ok p
                 /\ index (Player.Tokens p) tokenID = Ok tp
                 /\ heap e !! tp = Some tok
                 /\ heap e' = <[tp := tok']> (heap e)
                 /\ Token.Position tok'
                    = calculateNewPosition tok (Room.LastDice (room e))
                        (Player.Color p)
                 /\ Token.Color tok' = Token.Color tok
                 /\ Token.ID tok' = Token.ID tok)).
Proof.
  intros (Hturn & Hdice & Htoks & Hb).
  destruct (index_in_range (players e) (Room.CurrentTurn (room e)))
    as [p Hp]; [lia|].
  unfold MoveToken. rewrite Hp. res_unfold. cbn [res_bind]. cbv zeta.
  destruct (Player.ID p =? playerID) eqn:Hid; cbn [negb];
    [|eexists _, _; split; [reflexivity|left; eauto]].
  destruct ((tokenID <? 0)
            || (Z.of_nat (length (Player.Tokens p)) <=? tokenID)) eqn:Hrange;
    [eexists _, _; split; [reflexivity|left; eauto]|].
  apply orb_false_iff in Hrange as [Hlo Hhi].
  apply Z.ltb_ge in Hlo. apply Z.leb_gt in Hhi.
  destruct (index_in_range (Player.Tokens p) tokenID) as [tp Htp]; [lia|].
  rewrite Htp. cbn [res_bind].
  assert (Hptoks : Forall (token_ok (heap e) (board e) p) (Player.Tokens p)).
  { rewrite Forall_lookup in Htoks. apply index_Ok in Hp as [_ Hp]. eauto. }
  assert (Htok_ok : token_ok (heap e) (board e) p tp).
  { rewrite Forall_lookup in Hptoks. apply index_Ok in Htp as [_ Htp]. eauto. }
  destruct (canMoveToken_returns e p tp (Room.LastDice (room e)) Hb Htok_ok)
    as [can Hcan]; [lia|].
  rewrite Hcan. cbn [res_bind].
  destruct can; cbn [negb];
    [|eexists _, _; split; [reflexivity|left; eauto]].
  destruct Htok_ok as (tok & Htok & Hcol & Hpos & Hhome & Hst).
  apply canMoveToken_true in Hcan as (tok0 & Htok0 & _ & Hbase & Hle).
  rewrite Htok in Htok0. symmetry in Htok0. simplify_eq.
  unfold deref at 1. rewrite Htok. cbn [res_bind].
  set (newPos := calculateNewPosition tok (Room.LastDice (room e))
                   (Player.Color p)) in *.
  assert (Hnn : 0 <= newPos)
    by (apply calculateNewPosition_nonneg; [done|lia]).
  destruct (moveTokenToPosition_returns e p tp tok newPos Hb Htok Hpos Hst)
    as (b1 & tok1 & Hmove & Hb1 & Hkeep & Hpos1 & Hhome1 & Hcol1 & Hid1 & Hcell).
  { intros Hge.
    destruct (home_stretch_of_move _ _ p tok (Room.LastDice (room e))
                Hb Hpos Hst Hge) as (stretch & Hs & _). by eexists. }
  { lia. }
  rewrite Hmove. cbn [res_bind].
  assert (Hlt : (tp < length (heap e))%nat)
    by (apply lookup_lt_Some in Htok; exact Htok).
  rewrite (checkCapture_own _ newPos p tp tok1).
  2:{ intros Hr. apply Hcell. lia. }
  2:{ cbn. by rewrite list_lookup_insert_eq. }
  2:{ congruence. }
  cbn [res_bind].
  match goal with
  | |- context [checkWin ?x _ _] => set (e3 := x)
  end.
  assert (Hh3 : heap e3 = <[tp := tok1]> (heap e))
    by (unfold e3; rewrite fire_heap; reflexivity).
  assert (Hg3 : game.game e3
                = Game.set_TurnHistory
                    (Game.TurnHistory (game.game e)
                     ++ [TurnAction.mk playerID (Room.LastDice (room e)) tp
                           (Token.Position tok) newPos None])
                    (Game.set_Board b1 (game.game e)))
    by (unfold e3; rewrite fire_game; reflexivity).
  assert (Hev3 : events e3
                 = events e ++ (if OnTokenMoved (callbacks e)
                                then [TokenMoved playerID tp
                                        (Token.Position tok) newPos]
                                else []))
    by (unfold e3; rewrite fire_events; reflexivity).
  assert (Hroom3 : room e3 = room e) by (unfold room; rewrite Hg3; reflexivity).
  assert (Hboard3 : board e3 = b1) by (unfold board; rewrite Hg3; reflexivity).
  assert (Hplayers3 : players e3 = players e)
    by (unfold players; rewrite Hroom3; reflexivity).
  assert (Hcolor : forall q tq t,
             q ∈ players e -> tq ∈ Player.Tokens q ->
             heap e !! tq = Some t -> Token.Color t = Player.Color q).
  { intros q tq t Hq Htq Ht. rewrite Forall_forall in Htoks.
    specialize (Htoks q Hq). rewrite Forall_forall in Htoks.
    destruct (Htoks tq Htq) as (t' & Ht' & Hc' & _). congruence. }
  assert (Htoks3 : Forall (fun q => Forall (token_ok (heap e3) (board e3) q)
                                      (Player.Tokens q)) (players e3)).
  { rewrite Hplayers3, Hh3, Hboard3.
    apply Forall_forall. intros q Hq. apply Forall_forall. intros tq Htq.
    pose proof Htoks as Hall. rewrite Forall_forall in Hall.
    specialize (Hall q Hq). rewrite Forall_forall in Hall.
    destruct (Hall tq Htq) as (t & Ht & Hct & Hpt & Hht & Hst').
    destruct (decide (tq = tp)) as [->|Hne].
    - rewrite Htok in Ht. simplify_eq.
      exists tok1. rewrite list_lookup_insert_eq by done.
      split; [done|]. split; [congruence|].
      split; [right; lia|]. split; [congruence|].
      intros Hge. rewrite Hpos1 in Hge.
      destruct (home_stretch_of_move _ _ p t (Room.LastDice (room e))
                  Hb Hpos Hst Hge) as (stretch & Hs & _).
      apply Hkeep. replace (Player.Color q) with (Player.Color p) by congruence.
      by eexists.
    - exists t. rewrite list_lookup_insert_ne by done.
      split; [done|]. split; [done|]. split; [done|]. split; [done|].
      intros Hge. apply Hkeep. eauto. }
  assert (Hsound3 : sound e3).
  { split; [by rewrite Hroom3, Hplayers3|]. split; [by rewrite Hroom3|].
    split; [done|]. by rewrite Hh3, Hboard3. }
  assert (Hwin : checkWin_loop (heap e3) (Player.Tokens p) = Ok false).
  { apply checkWin_loop_false.
    - intros Hnil. rewrite Hnil in Hhi. cbn in Hhi. lia.
    - rewrite Forall_forall in Htoks3.
      assert (Hq : p ∈ players e3).
      { rewrite Hplayers3. apply index_Ok in Hp as [_ Hp].
        eapply list_elem_of_lookup_2. exact Hp. }
      eapply Forall_impl; [exact (Htoks3 p Hq)|].
      intros tq (t & Ht & _ & _ & Hht & _). eauto. }
  unfold checkWin. rewrite Hwin. res_unfold. cbn [res_bind].
  clearbody e3.
  assert (Hfacts : forall e',
    sound e' ->
    (exists tc, events e' = events e3 ++ tc /\ Forall isTurnChanged tc) ->
    game.game e' = game.game e3
    \/ (Game.TurnHistory (game.game e') = Game.TurnHistory (game.game e3)
        /\ Game.Winner (game.game e') = Game.Winner (game.game e3)
        /\ Room.State (room e') = Room.State (room e3)
        /\ players e' = players e3
        /\ Room.LastDice (room e') = Room.LastDice (room e3)) ->
    heap e' = heap e3 ->
    Room.CurrentTurn (room e')
    = (if Room.LastDice (room e) =? 6
       then Room.CurrentTurn (room e)
       else Z.rem (Room.CurrentTurn (room e) + 1)
                  (Z.of_nat (length (players e)))) ->
    (exists msg : string, (None : option string) = Some msg /\ e' = e)
    \/ (None : option string) = None
       /\ sound e'
       /\ (exists new, events e' = events e ++ new /\ Forall isQuiet new)
       /\ (exists a, Game.TurnHistory (game.game e')
                     = Game.TurnHistory (game.game e) ++ [a]
                     /\ TurnAction.Captured a = None)
       /\ Game.Winner (game.game e') = Game.Winner (game.game e)
       /\ Room.State (room e') = Room.State (room e)
       /\ players e' = players e
       /\ Room.LastDice (room e') = Room.LastDice (room e)
       /\ Room.CurrentTurn (room e')
          = (if Room.LastDice (room e) =? 6
             then Room.CurrentTurn (room e)
             else Z.rem (Room.CurrentTurn (room e) + 1)
                        (Z.of_nat (length (players e))))
       /\ exists p tp tok tok',
            index (players e) (Room.CurrentTurn (room e)) = Ok p
            /\ index (Player.Tokens p) tokenID = Ok tp
            /\ heap e !! tp = Some tok
            /\ heap e' = <[tp := tok']> (heap e)
            /\ Token.Position tok'
               = calculateNewPosition tok (Room.LastDice (room e))
                   (Player.Color p)
            /\ Token.Color tok' = Token.Color tok
            /\ Token.ID tok' = Token.ID tok).
  { intros e' Hs' (tc & Hev & Htc) Hgame Hheap Hct. right.
    assert (Hg : Game.TurnHistory (game.game e') = Game.TurnHistory (game.game e3)
                 /\ Game.Winner (game.game e') = Game.Winner (game.game e3)
                 /\ Room.State (room e') = Room.State (room e3)
                 /\ players e' = players e3
                 /\ Room.LastDice (room e') = Room.LastDice (room e3)).
    { destruct Hgame as [Hg|Hg]; [|exact Hg].
      unfold players, room. rewrite Hg. done. }
    destruct Hg as (Hth & Hw & Hstate & Hpl & Hld).
    split; [done|]. split; [done|].
    split.
    { eexists. split.
      - rewrite Hev, Hev3, <- app_assoc. reflexivity.
      - apply Forall_app. split.
        + destruct (OnTokenMoved (callbacks e)); repeat constructor.
        + eapply Forall_impl; [exact Htc|]. by intros []. }
    split.
    { eexists. rewrite Hth, Hg3. split; reflexivity. }
    split; [by rewrite Hw, Hg3|].
    split; [by rewrite Hstate, Hroom3|].
    split; [by rewrite Hpl|].
    split; [by rewrite Hld, Hroom3|].
    split; [done|].
    exists p, tp, tok, tok1. rewrite Hheap. done. }
  rewrite <- Hp.
  destruct (Z.eqb_spec (Room.LastDice (room e)) RollForExtraTurn) as [Hsix|Hsix];
    cbn [negb].
  - eexists _, _. split; [reflexivity|].
    apply Hfacts; [done | exists []; by rewrite app_nil_r | by left | done |].
    unfold RollForExtraTurn in Hsix. rewrite Hsix, Hroom3. reflexivity.
  - destruct (nextTurn_returns e3) as [e4 He4].
    { rewrite Hroom3. lia. }
    { rewrite Hplayers3. lia. }
    rewrite He4. cbn [res_bind].
    eexists _, _. split; [reflexivity|].
    pose proof (nextTurn_rest _ _ He4) as [Hth Hw].
    apply nextTurn_Ok in He4
      as (q & Hq & Hh & Hbd & Hpl & _ & _ & Hstate & Hld & Hct & Hev).
    apply Hfacts.
    + destruct Hsound3 as (Ht3 & Hd3 & Htk3 & Hb3).
      split.
      { rewrite Hct, Hpl.
        pose proof (Z.rem_bound_pos (Room.CurrentTurn (room e3) + 1)
                      (Z.of_nat (length (players e3)))). lia. }
      split; [by rewrite Hld|].
      split; [by rewrite Hpl, Hh, Hbd|]. by rewrite Hh, Hbd.
    + eexists. split; [exact Hev|].
      destruct (OnTurnChanged (callbacks e3)); repeat constructor.
    + right. done.
    + done.
    + rewrite Hct, Hroom3, Hplayers3.
      destruct (Z.eqb_spec (Room.LastDice (room e)) 6); [|reflexivity].
      unfold RollForExtraTurn in Hsix. lia.
Qed.

Lemma fire_rest b ev e :
  Game.TurnHistory (game.game (fire b ev e)) = Game.TurnHistory (game.game e)
  /\ Game.Winner (game.game (fire b ev e)) = Game.Winner (game.game e).
Proof. by rewrite fire_game. Qed.

Lemma RollDice_finish_returns e p playerID dice x :
  board_ok (heap e) (board e) ->
  Forall (token_ok (heap e) (board e) p) (Player.Tokens p) ->
  0 <= dice ->
  0 <= Room.CurrentTurn (room e) ->
  (0 < length (players e))%nat ->
  exists e', RollDice_finish e p playerID dice x
             = Ok (e', (dice, x, None))
             /\ Game.TurnHistory (game.game e') = Game.TurnHistory (game.game e)
             /\ Game.Winner (game.game e') = Game.Winner (game.game e).
Proof.
  intros Hb Htoks Hd Hct Hn. unfold RollDice_finish, hasValidMove.
  destruct (hasValidMove_loop_returns e p dice _ Hb Htoks Hd) as [can Hcan].
  rewrite Hcan. res_unfold. cbn [res_bind].
  destruct can, x; cbn [negb res_bind];
    try (eexists; split; [reflexivity|]; by rewrite fire_game).
  destruct (nextTurn_returns e Hct Hn) as [e1 He1]. rewrite He1.
  cbn [res_bind]. eexists. split; [reflexivity|].
  rewrite fire_game. by apply nextTurn_rest.
Qed.

Lemma RollDice_returns e playerID raw :
  sound e ->
  exists e' v x err,
    RollDice e playerID raw = Ok (e', (v, x, err))
    /\ Game.TurnHistory (game.game e') = Game.TurnHistory (game.game e)
    /\ Game.Winner (game.game e') = Game.Winner (game.game e).
Proof.
  intros (Hturn & Hdice & Htoks & Hb).
  destruct (index_in_range (players e) (Room.CurrentTurn (room e)))
    as [p Hp]; [lia|].
  assert (Hptoks : Forall (token_ok (heap e) (board e) p) (Player.Tokens p)).
  { rewrite Forall_lookup in Htoks. apply index_Ok in Hp as [_ Hp]. eauto. }
  assert (Hn : (0 < length (players e))%nat) by lia.
  unfold RollDice. rewrite Hp. res_unfold. cbn [res_bind]. cbv zeta.
  destruct (Player.ID p =? playerID); cbn [negb];
    [|by eexists _, _, _, _].
  fold (rolled (wrap64 (default 0 (rollCount e !! playerID) + 1)) raw).
  pose proof (rolled_range (wrap64 (default 0 (rollCount e !! playerID) + 1))
                raw) as Hr.
  set (v := rolled _ raw) in *.
  destruct (v =? RollForExtraTurn).
  - destruct (MaxConsecutiveSix <=? Player.ConsecutiveSix p + 1).
    + match goal with
      | |- context [nextTurn ?x] => destruct (nextTurn_returns x) as [e1 He1]
      end.
      { cbn. exact (proj1 Hturn). }
      { cbn. rewrite !length_alter. exact Hn. }
      rewrite He1. cbn [res_bind]. eexists _, _, _, _.
      split; [reflexivity|]. rewrite fire_game.
      apply nextTurn_rest in He1. exact He1.
    + match goal with
      | |- context [RollDice_finish ?x ?q ?i ?d ?b] =>
          destruct (RollDice_finish_returns x q i d b) as (e1 & He1 & Hrest)
      end; try (cbn; first [exact Hb | exact Hptoks | exact (proj1 Hturn) | lia]).
      { cbn. rewrite length_alter. exact Hn. }
      rewrite He1. eexists _, _, _, _. split; [reflexivity|]. exact Hrest.
  - match goal with
    | |- context [RollDice_finish ?x ?q ?i ?d ?b] =>
        destruct (RollDice_finish_returns x q i d b) as (e1 & He1 & Hrest)
    end; try (cbn; first [exact Hb | exact Hptoks | exact (proj1 Hturn) | lia]).
    { cbn. rewrite length_alter. exact Hn. }
    rewrite He1. eexists _, _, _, _. split; [reflexivity|]. exact Hrest.
Qed.

Lemma Start_returns e raw :
  exists e' err,
    Start e raw = Ok (e', err)
    /\ (exists new, events e' = events e ++ new /\ Forall isTurnChanged new)
    /\ Game.TurnHistory (game.game e') = Game.TurnHistory (game.game e)
    /\ Game.Winner (game.game e') = Game.Winner (game.game e).
Proof.
  assert (Hsame : exists new, events e = events e ++ new
                              /\ Forall isTurnChanged new).
  { exists []. by rewrite app_nil_r. }
  unfold Start. res_unfold.
  destruct (negb _); [by eexists _, _|].
  destruct (Z.ltb_spec (Z.of_nat (length (players e))) MinPlayers) as [|Hn];
    [by eexists _, _|].
  cbv zeta. unfold MinPlayers in Hn.
  match goal with
  | |- context [index ?l ?i] =>
      destruct (index_in_range l i) as [p Hp]
  end.
  { cbn. unfold Intn.
    pose proof (Z.mod_pos_bound raw (Z.of_nat (length (players e)))).
    unfold players, room in *. lia. }
  rewrite Hp. cbn [res_bind]. eexists _, _. split; [reflexivity|].
  destruct (Player.IsAI p); cbn; rewrite fire_game, fire_events; cbn;
    (split; [|done]); eexists; (split; [reflexivity|]);
    destruct (OnTurnChanged _); repeat constructor.
Qed.

Lemma turnTimeout_returns e playerID :
  sound e ->
  exists e',
    turnTimeout e playerID = Ok e'
    /\ (exists new, events e' = events e ++ new /\ Forall isTurnChanged new)
    /\ Game.TurnHistory (game.game e') = Game.TurnHistory (game.game e)
    /\ Game.Winner (game.game e') = Game.Winner (game.game e)
    /\ (Room.CurrentTurn (room e') = Room.CurrentTurn (room e)
        \/ Room.CurrentTurn (room e')
           = Z.rem (Room.CurrentTurn (room e) + 1)
                   (Z.of_nat (length (players e)))).
Proof.
  intros (Hturn & _).
  destruct (index_in_range (players e) (Room.CurrentTurn (room e)))
    as [p Hp]; [lia|].
  unfold turnTimeout. rewrite Hp. res_unfold. cbn [res_bind].
  destruct (Player.ID p =? playerID).
  - destruct (nextTurn_returns e) as [e1 He1]; [lia | lia |].
    exists e1. split; [done|].
    pose proof (nextTurn_rest _ _ He1) as [Hth Hw].
    apply nextTurn_Ok in He1
      as (q & _ & _ & _ & _ & _ & _ & _ & _ & Hct & Hev).
    split; [|by auto].
    eexists. split; [exact Hev|].
    destruct (OnTurnChanged _); repeat constructor.
  - exists e. split; [done|]. split; [|by auto].
    exists []. by rewrite app_nil_r.
Qed.

Lemma isTurnChanged_quiet new :
  Forall isTurnChanged new -> Forall isQuiet new.
Proof. intros H. eapply Forall_impl; [exact H|]. by intros []. Qed.

Lemma sound_same e e' :
  sound e ->
  heap e' = heap e -> board e' = board e -> players e' = players e ->
  Room.LastDice (room e') = Room.LastDice (room e) ->
  0 <= Room.CurrentTurn (room e') < Z.of_nat (length (players e)) ->
  sound e'.
Proof.
  intros (_ & Hd & Ht & Hb) Hh Hbd Hp Hl Hct.
  split; [by rewrite Hp|]. split; [by rewrite Hl|].
  split; [by rewrite Hp, Hh, Hbd|]. by rewrite Hh, Hbd.
Qed.

Lemma next_seat_range ct n :
  0 <= ct < n -> 0 <= Z.rem (ct + 1) n < n.
Proof. intros. apply Z.rem_bound_pos; lia. Qed.

(** One operation on a sound engine: it returns, and the engine stays
    sound; nothing is captured, nobody wins, and no counter of
    consecutive sixes leaves 0..2. *)
Lemma step_sound e op :
  sound e ->
  exists e' r,
    step e op = Ok (e', r)
    /\ sound e'
    /\ (uneventful e -> uneventful e')
    /\ (sixes_ok e -> sixes_ok e').
Proof.
  intros Hs. pose proof Hs as (Hturn & Hdice & Htoks & Hb).
  destruct op as [raw|playerID raw|playerID tokenID|playerID|]; cbn [step];
    res_unfold.
  - destruct (Start_returns e raw) as (e' & err & He & (new & Hev & Hnew)
                                       & Hth & Hw).
    rewrite He. cbn [res_bind]. eexists _, _. split; [reflexivity|].
    apply Start_Ok in He
      as [(msg & -> & ->)|(-> & _ & Hh & Hbd & _ & _ & Hp & Hl & Hst & Hct)];
      [done|].
    split; [by eapply sound_same|]. split.
    + intros (Hq & Hc & Hwin & Hfin).
      split; [rewrite Hev; apply Forall_app; split;
              [done | by apply isTurnChanged_quiet]|].
      split; [by rewrite Hth|]. split; [by rewrite Hw|].
      rewrite Hst. discriminate.
    + unfold sixes_ok. by rewrite Hp.
  - destruct (RollDice_returns e playerID raw Hs)
      as (e' & v & x & err & He & Hth & Hw).
    rewrite He. cbn [res_bind]. eexists _, _. split; [reflexivity|].
    apply RollDice_Ok in He as (p & Hp & [(_ & -> & -> & _)|Hok]); [done|].
    destruct Hok as (_ & -> & Hv & Hx & _ & Hh & Hbd & _ & Hst & Hl & Hpl
                     & Hct & tc & Htc & Hev).
    pose proof (rolled_range (wrap64 (default 0 (rollCount e !! playerID) + 1))
                  raw) as Hr.
    split; [|split].
    + split.
      { rewrite Hpl, length_alter.
        destruct Hct as [-> | ->]; [done | by apply next_seat_range]. }
      split; [rewrite Hl, Hv; lia|].
      split; [|by rewrite Hh, Hbd].
      rewrite Hpl, Hh, Hbd. by apply Forall_alter.
    + intros (Hq & Hc & Hwin & Hfin).
      split.
      { rewrite Hev. apply Forall_app. split; [done|].
        apply Forall_app. split; [by apply isTurnChanged_quiet|].
        destruct (OnDiceRolled _); repeat constructor. }
      split; [by rewrite Hth|]. split; [by rewrite Hw|]. by rewrite Hst.
    + unfold sixes_ok. intros Hsix. rewrite Hpl.
      apply Forall_alter; [done|].
      intros q Hq Hqs. apply index_Ok in Hp as [_ Hp].
      assert (q = p) as -> by congruence. cbn.
      destruct x; [|lia]. symmetry in Hx.
      apply andb_true_iff in Hx as [_ Hx]. apply negb_true_iff in Hx.
      lia.
  - destruct (MoveToken_sound e playerID tokenID Hs)
      as (e' & err & He & [(msg & -> & ->)|Hok]);
      rewrite He; cbn [res_bind]; eexists _, _; (split; [reflexivity|]);
      [done|].
    destruct Hok as (-> & Hs' & (new & Hev & Hnew) & (a & Hth & Ha) & Hw & Hst
                     & Hpl & _).
    split; [done|]. split.
    + intros (Hq & Hc & Hwin & Hfin).
      split; [rewrite Hev; by apply Forall_app|].
      split; [rewrite Hth; apply Forall_app; split;
              [done | by repeat constructor]|].
      split; [by rewrite Hw|]. by rewrite Hst.
    + unfold sixes_ok. by rewrite Hpl.
  - destruct (turnTimeout_returns e playerID Hs)
      as (e' & He & (new & Hev & Hnew) & Hth & Hw & Hct).
    rewrite He. cbn [res_bind]. eexists _, _. split; [reflexivity|].
    apply turnTimeout_Ok in He as (Hh & Hbd & Hpl & _ & _ & Hst & Hl).
    split; [|split].
    + eapply sound_same; try done.
      destruct Hct as [-> | ->]; [done | by apply next_seat_range].
    + intros (Hq & Hc & Hwin & Hfin).
      split; [rewrite Hev; apply Forall_app; split;
              [done | by apply isTurnChanged_quiet]|].
      split; [by rewrite Hth|]. split; [by rewrite Hw|]. by rewrite Hst.
    + unfold sixes_ok. by rewrite Hpl.
  - destruct (nextTurn_returns e) as [e' He]; [lia | lia |].
    rewrite He. cbn [res_bind]. eexists _, _. split; [reflexivity|].
    pose proof (nextTurn_rest _ _ He) as [Hth Hw].
    apply nextTurn_Ok in He
      as (q & _ & Hh & Hbd & Hpl & _ & _ & Hst & Hl & Hct & Hev).
    split; [|split].
    + eapply sound_same; try done. rewrite Hct. by apply next_seat_range.
    + intros (Hq & Hc & Hwin & Hfin).
      split.
      { rewrite Hev. apply Forall_app. split; [done|].
        destruct (OnTurnChanged _); repeat constructor. }
      split; [by rewrite Hth|]. split; [by rewrite Hw|]. by rewrite Hst.
    + unfold sixes_ok. by rewrite Hpl.
Qed.

Lemma seated_ok_app h ext p : seated_ok h p -> seated_ok (h ++ ext) p.
Proof.
  intros [Hsix Htoks]. split; [done|].
  eapply Forall_impl; [exact Htoks|].
  intros tp (tok & Htok & Hrest). exists tok. split; [|done].
  by apply lookup_app_l_Some.
Qed.

Lemma NewPlayer_seated h id username color :
  seated_ok (NewPlayer h id username color).1
            (NewPlayer h id username color).2.
Proof.
  unfold NewPlayer. cbn. split; [reflexivity|].
  assert (Hat : forall k tok,
            newTokens color !! k = Some tok ->
            exists tok', (h ++ newTokens color) !! (length h + k)%nat = Some tok'
                         /\ Token.Color tok' = color
                         /\ Token.Position tok' = -1
                         /\ Token.IsHome tok' = false).
  { intros k tok Hk. exists tok.
    rewrite lookup_app_r by lia.
    replace (length h + k - length h)%nat with k by lia. split; [done|].
    apply list_elem_of_lookup_2 in Hk. unfold newTokens in Hk.
    apply list_elem_of_fmap in Hk as (i & -> & _). done. }
  unfold newTokens in Hat. cbn in Hat.
  repeat (apply Forall_cons; split); try apply Forall_nil.
  - specialize (Hat 0%nat _ eq_refl). by rewrite Nat.add_0_r in Hat.
  - specialize (Hat 1%nat _ eq_refl). by rewrite Nat.add_1_r in Hat.
  - specialize (Hat 2%nat _ eq_refl).
    by replace (length h + 2)%nat with (S (S (length h))) in Hat by lia.
  - specialize (Hat 3%nat _ eq_refl).
    by replace (length h + 3)%nat with (S (S (S (length h)))) in Hat by lia.
  - done.
Qed.

Lemma seatAll_seated seats : forall h h' ps,
  seatAll h seats = (h', ps) ->
  (exists ext, h' = h ++ ext) /\ Forall (seated_ok h') ps.
Proof.
  induction seats as [|s seats IH]; intros h h' ps H; cbn [seatAll] in H.
  - simplify_eq. split; [exists []; by rewrite app_nil_r | constructor].
  - assert (Hone : exists h1 pl,
               match s with
               | Human id username color => NewPlayer h id username color
               | Robot color level => NewAIPlayer h color level
               end = (h1, pl)
               /\ (exists ext, h1 = h ++ ext) /\ seated_ok h1 pl).
    { destruct s as [id username color|color level].
      - pose proof (NewPlayer_seated h id username color) as Hok.
        destruct (NewPlayer h id username color) as [h1 pl] eqn:Hn.
        exists h1, pl. split; [done|]. split; [|done].
        unfold NewPlayer in Hn. simplify_eq. by eexists.
      - unfold NewAIPlayer.
        pose proof (NewPlayer_seated h 0 "AI Player" color) as Hok.
        destruct (NewPlayer h 0 "AI Player" color) as [h1 pl] eqn:Hn.
        exists h1, (Player.set_AI level pl). split; [done|]. split; [|done].
        unfold NewPlayer in Hn. simplify_eq. by eexists. }
    destruct Hone as (h1 & pl & Hone & [ext1 ->] & Hpl). rewrite Hone in H.
    destruct (seatAll (h ++ ext1) seats) as [h2 ps'] eqn:Hs. simplify_eq.
    destruct (IH _ _ _ Hs) as [[ext2 ->] Hps].
    split; [exists (ext1 ++ ext2); by rewrite app_assoc|].
    constructor; [by apply seated_ok_app | done].
Qed.

Lemma NewBoard_ok h : board_ok h NewBoard.
Proof.
  split; [reflexivity|]. split; [|split].
  - intros cell vp Hin Hv. exfalso. unfold NewBoard in Hin.
    cbv zeta in Hin. cbn [Board.Cells] in Hin.
    apply list_elem_of_In, in_map_iff in Hin as (i & <- & _). discriminate.
  - intros color stretch Hs. unfold NewBoard in Hs.
    cbv zeta in Hs. cbn [Board.HomeStretches] in Hs.
    rewrite lookup_fmap in Hs.
    destruct (StartingPositions_map !! color); [|discriminate].
    cbn in Hs. by simplify_eq.
  - intros color [x Hx]. unfold NewBoard.
    cbv zeta. cbn [Board.HomeStretches]. rewrite lookup_fmap.
    unfold HomeStretchStart_map in Hx. unfold StartingPositions_map.
    repeat (apply lookup_insert_Some in Hx as [[<- _]|[_ Hx]];
            [by eexists|]).
    by rewrite lookup_empty in Hx.
Qed.

Lemma freshEngine_sound seats maxPlayers cbs :
  seats <> [] ->
  sound (freshEngine seats maxPlayers cbs)
  /\ uneventful (freshEngine seats maxPlayers cbs)
  /\ sixes_ok (freshEngine seats maxPlayers cbs).
Proof.
  intros Hne. unfold freshEngine.
  destruct (seatAll [] seats) as [h ps] eqn:Hs.
  assert (Hlen : (0 < length ps)%nat).
  { destruct seats as [|s seats]; [done|]. cbn [seatAll] in Hs.
    destruct (match s with Human _ _ _ => _ | Robot _ _ => _ end).
    destruct (seatAll _ seats). simplify_eq. cbn. lia. }
  apply seatAll_seated in Hs as [_ Hps].
  split; [|split].
  - split; [cbn; lia|]. split; [cbn; lia|]. split; [|apply NewBoard_ok].
    cbn. eapply Forall_impl; [exact Hps|].
    intros p [_ Htoks]. eapply Forall_impl; [exact Htoks|].
    intros tp (tok & Htok & Hc & Hp & Hh). exists tok.
    split; [done|]. split; [done|]. split; [by left|]. split; [done|]. lia.
  - split; [constructor|]. split; [constructor|]. split; [reflexivity|].
    cbn. discriminate.
  - unfold sixes_ok. cbn. eapply Forall_impl; [exact Hps|].
    intros p [-> _]. lia.
Qed.

Lemma run_sound ops : forall e,
  sound e ->
  exists e' rets,
    run e ops = Ok (e', rets)
    /\ sound e'
    /\ (uneventful e -> uneventful e')
    /\ (sixes_ok e -> sixes_ok e').
Proof.
  induction ops as [|op ops IH]; intros e Hs.
  - exists e, []. done.
  - destruct (step_sound e op Hs) as (e1 & r & Hstep & Hs1 & Hu1 & Hx1).
    destruct (IH e1 Hs1) as (e2 & rets & Hrun & Hs2 & Hu2 & Hx2).
    cbn [run]. rewrite Hstep. res_unfold. cbn [res_bind]. rewrite Hrun.
    cbn [res_bind]. eexists _, _. split; [reflexivity|]. auto.
Qed.

End EngineSafety.

(** * Whole games: what a user of the engine can rely on *)

Section EngineGames.
Import game enginespec.

(** X1.  The engine never panics: from the engine of a room with at
    least one seated player, every sequence of Start, RollDice, MoveToken,
    turn time-outs and turn changes returns, whoever calls and with
    whatever token id. *)
Theorem run_never_panics seats maxPlayers callbacks ops :
  seats <> [] ->
  exists e' rets,
    run (freshEngine seats maxPlayers callbacks) ops = Ok (e', rets).
Proof.
  intros Hne.
  destruct (freshEngine_sound seats maxPlayers callbacks Hne) as (Hs & _).
  destruct (run_sound ops _ Hs) as (e' & rets & Hrun & _).
  by exists e', rets.
Qed.

Lemma run_never_panics_witness :
  exists e' rets,
    run (freshEngine scenario.seats 4 scenario.allCallbacks) scenario.opening
    = Ok (e', rets).
Proof. apply run_never_panics. discriminate. Defined.

(** X2.  No game captures a token or is won: along every run from a
    fresh engine no token-captured and no game-over event is fired, the
    turn history records no captured token, there is no winner, the room
    is not Finished and no token of a seated player is home. *)
Theorem run_captures_nothing seats maxPlayers callbacks ops e' rets :
  seats <> [] ->
  run (freshEngine seats maxPlayers callbacks) ops = Ok (e', rets) ->
  uneventful e' /\ nobody_home e'.
Proof.
  intros Hne Hrun.
  destruct (freshEngine_sound seats maxPlayers callbacks Hne)
    as (Hs & Hu & _).
  destruct (run_sound ops _ Hs) as (e2 & rets2 & Hrun2 & Hs2 & Hu2 & _).
  rewrite Hrun in Hrun2. simplify_eq. split; [by apply Hu2|].
  destruct Hs2 as (_ & _ & Htoks & _).
  eapply Forall_impl; [exact Htoks|]. intros p Hp.
  eapply Forall_impl; [exact Hp|].
  intros tp (tok & Htok & _ & _ & Hhome & _). eauto.
Qed.

Lemma run_captures_nothing_witness :
  uneventful (scenario.after (scenario.opening ++ [OpMoveToken 1 0]))
  /\ nobody_home (scenario.after (scenario.opening ++ [OpMoveToken 1 0])).
Proof.
  apply (run_captures_nothing scenario.seats 4 scenario.allCallbacks
           (scenario.opening ++ [OpMoveToken 1 0]) _
           (scenario.returned (scenario.opening ++ [OpMoveToken 1 0]))).
  - discriminate.
  - vm_compute. reflexivity.
Defined.

(** X3.  Along every run from a fresh engine the counter of consecutive
    sixes of every player is 0, 1 or 2. *)
Theorem run_sixes_bounded seats maxPlayers callbacks ops e' rets :
  seats <> [] ->
  run (freshEngine seats maxPlayers callbacks) ops = Ok (e', rets) ->
  sixes_ok e'.
Proof.
  intros Hne Hrun.
  destruct (freshEngine_sound seats maxPlayers callbacks Hne)
    as (Hs & _ & Hx).
  destruct (run_sound ops _ Hs) as (e2 & rets2 & Hrun2 & _ & _ & Hx2).
  rewrite Hrun in Hrun2. simplify_eq. by apply Hx2.
Qed.

Lemma run_sixes_bounded_witness :
  sixes_ok (scenario.after scenario.opening).
Proof.
  apply (run_sixes_bounded scenario.seats 4 scenario.allCallbacks
           scenario.opening _ (scenario.returned scenario.opening)).
  - discriminate.
  - vm_compute. reflexivity.
Defined.

(** X4.  In a game, a MoveToken that succeeds changes one token of the
    store, the token of that id of the player at turn: it now stands on
    the position [calculateNewPosition] gives for the last dice value.
    The seats are unchanged, and the turn stays with the player when the
    dice shows 6 and goes to the next seat otherwise. *)
Theorem MoveToken_moves_one_token
    seats maxPlayers callbacks ops e rets playerID tokenID e' :
  seats <> [] ->
  run (freshEngine seats maxPlayers callbacks) ops = Ok (e, rets) ->
  MoveToken e playerID tokenID = Ok (e', None) ->
  players e' = players e
  /\ Room.CurrentTurn (room e')
     = (if Room.LastDice (room e) =? 6
        then Room.CurrentTurn (room e)
        else Z.rem (Room.CurrentTurn (room e) + 1)
                   (Z.of_nat (length (players e))))
  /\ exists p tp tok tok',
       index (players e) (Room.CurrentTurn (room e)) = Ok p
       /\ index (Player.Tokens p) tokenID = Ok tp
       /\ heap e !! tp = Some tok
       /\ heap e' = <[tp := tok']> (heap e)
       /\ Token.Position tok'
          = calculateNewPosition tok (Room.LastDice (room e)) (Player.Color p)
       /\ Token.Color tok' = Token.Color tok
       /\ Token.ID tok' = Token.ID tok.
Proof.
  intros Hne Hrun Hmove.
  destruct (freshEngine_sound seats maxPlayers callbacks Hne) as (Hs & _).
  destruct (run_sound ops _ Hs) as (e2 & rets2 & Hrun2 & Hs2 & _).
  rewrite Hrun in Hrun2. simplify_eq.
  destruct (MoveToken_sound e2 playerID tokenID Hs2)
    as (e3 & err & He & [(msg & -> & _)|Hok]);
    rewrite Hmove in He; simplify_eq.
  destruct Hok as (_ & _ & _ & _ & _ & _ & Hpl & _ & Hct & Htok).
  auto.
Qed.

Lemma MoveToken_moves_one_token_witness :
  players (scenario.next (scenario.after scenario.opening) (OpMoveToken 1 0))
  = players (scenario.after scenario.opening)
  /\ Room.CurrentTurn
       (room (scenario.next (scenario.after scenario.opening)
                (OpMoveToken 1 0)))
     = (if Room.LastDice (room (scenario.after scenario.opening)) =? 6
        then Room.CurrentTurn (room (scenario.after scenario.opening))
        else Z.rem (Room.CurrentTurn (room (scenario.after scenario.opening))
                    + 1)
                   (Z.of_nat (length (players
                                        (scenario.after scenario.opening)))))
  /\ exists p tp tok tok',
       index (players (scenario.after scenario.opening))
             (Room.CurrentTurn (room (scenario.after scenario.opening)))
       = Ok p
       /\ index (Player.Tokens p) 0 = Ok tp
       /\ heap (scenario.after scenario.opening) !! tp = Some tok
       /\ heap (scenario.next (scenario.after scenario.opening)
                  (OpMoveToken 1 0))
          = <[tp := tok']> (heap (scenario.after scenario.opening))
       /\ Token.Position tok'
          = calculateNewPosition tok
              (Room.LastDice (room (scenario.after scenario.opening)))
              (Player.Color p)
       /\ Token.Color tok' = Token.Color tok
       /\ Token.ID tok' = Token.ID tok.
Proof.
  apply (MoveToken_moves_one_token scenario.seats 4 scenario.allCallbacks
           scenario.opening _ (scenario.returned scenario.opening) 1 0).
  - discriminate.
  - vm_compute. reflexivity.
  - vm_compute. reflexivity.
Defined.

(** X5.  An operation that reports an error changes nothing: the engine
    it leaves is the engine it found. *)
Theorem step_error_unchanged e op e' r :
  step e op = Ok (e', r) -> failed r -> e' = e.
Proof.
  destruct op as [raw|playerID raw|playerID tokenID|playerID|]; cbn [step];
    res_unfold; intros H Hfail; res_step H.
  - destruct a as [e1 err]. simplify_eq.
    apply Start_Ok in E as [(msg & -> & ->)|(-> & _)]; [done|].
    destruct Hfail.
  - destruct a as [e1 [[v x] err]]. simplify_eq.
    apply RollDice_Ok in E as (p & _ & [(_ & _ & -> & _)|(_ & -> & _)]);
      [done|]. destruct Hfail.
  - destruct a as [e1 err]. simplify_eq.
    apply MoveToken_Ok in E as [(msg & -> & ->)|(-> & _)]; [done|].
    destruct Hfail.
  - simplify_eq. destruct Hfail.
  - simplify_eq. destruct Hfail.
Qed.

Lemma step_error_unchanged_witness :
  scenario.next scenario.engine0 (OpRollDice 2 0) = scenario.engine0.
Proof.
  apply (step_error_unchanged scenario.engine0 (OpRollDice 2 0) _
           (RetDice 0 false (Some ErrNotYourTurn))).
  - vm_compute. reflexivity.
  - exact I.
Defined.

Lemma nextTurn_iter k : forall e,
  0 <= Room.CurrentTurn (room e) < Z.of_nat (length (players e)) ->
  exists e' rets,
    run e (repeat OpNextTurn k) = Ok (e', rets)
    /\ Room.CurrentTurn (room e')
       = (Room.CurrentTurn (room e) + Z.of_nat k)
           mod Z.of_nat (length (players e))
    /\ players e' = players e
    /\ heap e' = heap e
    /\ board e' = board e.
Proof.
  induction k as [|k IH]; intros e Hct.
  - exists e, []. split; [reflexivity|].
    rewrite Z.add_0_r, Z.mod_small by lia. done.
  - destruct (nextTurn_returns e) as [e1 He1]; [lia | lia |].
    pose proof He1 as Hn.
    apply nextTurn_Ok in Hn
      as (q & _ & Hh & Hb & Hp & _ & _ & _ & _ & Hc & _).
    rewrite Z.rem_mod_nonneg in Hc by lia.
    destruct (IH e1) as (e2 & rets & Hrun & Hc2 & Hp2 & Hh2 & Hb2).
    { rewrite Hc, Hp. apply Z.mod_pos_bound. lia. }
    cbn [repeat run step]. res_unfold. rewrite He1. cbn [res_bind].
    rewrite Hrun. cbn [res_bind]. eexists _, _. split; [reflexivity|].
    split; [|by rewrite Hp2, Hh2, Hb2, Hp, Hh, Hb].
    rewrite Hc2, Hc, Hp, Zplus_mod_idemp_l. f_equal. lia.
Qed.

(** X6.  The turn goes round: after as many turn changes as there are
    seats the turn is back at the seat it started from, with the seats,
    the tokens and the board as they were. *)
Theorem nextTurn_round_robin e :
  0 <= Room.CurrentTurn (room e) < Z.of_nat (length (players e)) ->
  exists e' rets,
    run e (repeat OpNextTurn (length (players e))) = Ok (e', rets)
    /\ Room.CurrentTurn (room e') = Room.CurrentTurn (room e)
    /\ players e' = players e
    /\ heap e' = heap e
    /\ board e' = board e.
Proof.
  intros Hct.
  destruct (nextTurn_iter (length (players e)) e Hct)
    as (e' & rets & Hrun & Hc & Hrest).
  exists e', rets. split; [done|]. split; [|done].
  rewrite Hc. rewrite <- (Z.mul_1_l (Z.of_nat (length (players e)))) at 1.
  rewrite Z_mod_plus_full. apply Z.mod_small. lia.
Qed.

Lemma nextTurn_round_robin_witness :
  exists e' rets,
    run (scenario.after scenario.opening)
        (repeat OpNextTurn (length (players (scenario.after scenario.opening))))
    = Ok (e', rets)
    /\ Room.CurrentTurn (room e')
       = Room.CurrentTurn (room (scenario.after scenario.opening))
    /\ players e' = players (scenario.after scenario.opening)
    /\ heap e' = heap (scenario.after scenario.opening)
    /\ board e' = board (scenario.after scenario.opening).
Proof.
  apply nextTurn_round_robin. vm_compute. split; [discriminate|reflexivity].
Defined.

(** X7.  Start never panics.  It succeeds exactly on a waiting room with
    at least two seats; the room is then Playing, with the turn at the
    seat the generator drew and the seats and tokens untouched.  When it
    fails the engine is unchanged, and a started game cannot be started
    again. *)
Theorem Start_verdict e raw :
  exists e' err,
    Start e raw = Ok (e', err)
    /\ (err = None
        <-> Room.State (room e) = StateWaiting
            /\ 2 <= Z.of_nat (length (players e)))
    /\ (err = None ->
        Room.State (room e') = StatePlaying
        /\ Room.CurrentTurn (room e')
           = raw mod Z.of_nat (length (players e))
        /\ players e' = players e /\ heap e' = heap e
        /\ exists err2, Start e' raw = Ok (e', Some err2))
    /\ (err <> None -> e' = e).
Proof.
  unfold Start at 1. res_unfold.
  destruct (String.eqb_spec (Room.State (room e)) StateWaiting) as [Hw|Hw];
    cbn [negb].
  2:{ eexists _, _. split; [reflexivity|]. split; [|done].
      split; [done|]. by intros [? _]. }
  destruct (Z.ltb_spec (Z.of_nat (length (players e))) MinPlayers) as [Hn|Hn];
    unfold MinPlayers in Hn.
  { eexists _, _. split; [reflexivity|]. split; [|done].
    split; [done|]. intros [_ ?]. lia. }
  cbv zeta.
  match goal with
  | |- context [index ?l ?i] =>
      destruct (index_in_range l i) as [p Hp]
  end.
  { cbn. unfold Intn.
    pose proof (Z.mod_pos_bound raw (Z.of_nat (length (players e)))).
    unfold players, room in *. lia. }
  rewrite Hp. cbn [res_bind]. eexists _, _. split; [reflexivity|].
  split; [done|]. split; [|done]. intros _.
  unfold fire, Intn. cbn.
  destruct (OnTurnChanged (callbacks e)), (Player.IsAI p); cbn;
    repeat split; eexists; unfold Start; cbn; reflexivity.
Qed.

End EngineGames.

(** * Rooms and the registry: joining, leaving, starting *)

Section RoomExtras.
Import room roomspec.

Lemma usedColor_false ps c :
  usedColor ps c = false <-> Forall (fun q => Player.Color q <> c) ps.
Proof.
  unfold usedColor. induction ps as [|p ps IH]; cbn.
  - split; [constructor|done].
  - rewrite orb_false_iff, IH, Forall_cons.
    by rewrite String.eqb_neq.
Qed.

Lemma usedColor_true ps c :
  usedColor ps c = true -> c ∈ Player.Color <$> ps.
Proof.
  unfold usedColor. induction ps as [|p ps IH]; cbn; [done|].
  intros [H|H]%orb_true_iff.
  - apply String.eqb_eq in H as <-. apply list_elem_of_here.
  - apply list_elem_of_further. by apply IH.
Qed.

(** Fewer than four players leave one of the four colours free. *)
Lemma freeColor_fresh ps :
  (length ps < 4)%nat ->
  freeColor ps ∈ palette /\ Forall (fun q => Player.Color q <> freeColor ps) ps.
Proof.
  intros Hlen. unfold freeColor.
  destruct (filter _ _) as [|c rest] eqn:Hf.
  - exfalso.
    assert (Hall : forall c, c ∈ palette -> c ∈ Player.Color <$> ps).
    { intros c Hc. apply usedColor_true.
      destruct (usedColor ps c) eqn:Hu; [done|]. exfalso.
      assert (Hin : c ∈ filter (fun c => usedColor ps c = false) palette)
        by (apply list_elem_of_filter; done).
      unfold palette in Hin. rewrite Hf in Hin. by apply elem_of_nil in Hin. }
    assert (Hsub : palette ⊆+ Player.Color <$> ps).
    { apply NoDup_submseteq; [|exact Hall].
      unfold palette, ColorRed, ColorBlue, ColorGreen, ColorYellow.
      repeat (apply NoDup_cons; split;
              [rewrite ?elem_of_cons, elem_of_nil; intros H;
               repeat destruct H as [H|H]; done|]).
      apply NoDup_nil_2. }
    apply submseteq_length in Hsub. rewrite length_fmap in Hsub.
    cbn in Hsub. lia.
  - assert (Hin : c ∈ filter (fun c => usedColor ps c = false) palette).
    { unfold palette. rewrite Hf. apply list_elem_of_here. }
    apply list_elem_of_filter in Hin as [Hu Hp].
    split; [done|]. by apply usedColor_false.
Qed.

(** X8.  AddPlayer never fails silently: it succeeds exactly when the
    room has a free seat and the player has no connection in it, and a
    call that is refused leaves the store and the room as they were. *)
Theorem AddPlayer_verdict h r playerID username :
  exists h' r' err,
    AddPlayer h r playerID username = (h', r', err)
    /\ (err = None
        <-> Z.of_nat (length (Room.Players (Model r)))
            < Room.MaxPlayers (Model r)
            /\ players r !! playerID = None)
    /\ (err <> None -> h' = h /\ r' = r).
Proof.
  unfold AddPlayer.
  destruct (Z.leb_spec (Room.MaxPlayers (Model r))
              (Z.of_nat (length (Room.Players (Model r))))) as [Hfull|Hfree].
  { eexists _, _, _. split; [reflexivity|]. split; [|done].
    split; [done|]. intros [? _]. lia. }
  destruct (players r !! playerID) as [conn|] eqn:Hc.
  { eexists _, _, _. split; [reflexivity|]. split; [|done].
    split; [done|]. by intros [_ ?]. }
  unfold NewPlayer. eexists _, _, _. split; [reflexivity|].
  split; [done|]. done.
Qed.

(** X9.  In a room of at most four seats a player who is added takes
    the last seat with one of the four colours, a colour no seated player
    has, and with a connection that is not ready; players of distinct
    colours stay of distinct colours. *)
Theorem AddPlayer_fresh_color h r playerID username h' r' :
  Room.MaxPlayers (Model r) <= 4 ->
  AddPlayer h r playerID username = (h', r', None) ->
  exists p,
    Room.Players (Model r') = Room.Players (Model r) ++ [p]
    /\ Player.ID p = playerID
    /\ Player.Color p ∈ palette
    /\ Forall (fun q => Player.Color q <> Player.Color p)
              (Room.Players (Model r))
    /\ players r' = <[playerID := mkConn playerID username false]> (players r)
    /\ (NoDup (Player.Color <$> Room.Players (Model r))
        -> NoDup (Player.Color <$> Room.Players (Model r'))).
Proof.
  intros Hmax H. unfold AddPlayer in H.
  destruct (Z.leb_spec (Room.MaxPlayers (Model r))
              (Z.of_nat (length (Room.Players (Model r))))) as [Hfull|Hfree];
    [discriminate|].
  destruct (players r !! playerID) as [conn|] eqn:Hc; [discriminate|].
  unfold NewPlayer in H. simplify_eq. cbn.
  destruct (freeColor_fresh (Room.Players (Model r))) as [Hpal Hfresh]; [lia|].
  eexists. split; [reflexivity|]. cbn.
  split; [done|]. split; [done|]. split; [done|]. split; [done|].
  intros Hnd. rewrite fmap_app. apply NoDup_app. split; [done|].
  split; [|apply NoDup_singleton].
  intros c Hc1 Hc2. cbn in Hc2. apply list_elem_of_singleton in Hc2 as ->.
  apply list_elem_of_fmap in Hc1 as (q & Hq & Hin).
  rewrite Forall_forall in Hfresh. by apply (Hfresh q Hin).
Qed.

Lemma AddPlayer_fresh_color_witness :
  exists p,
    Room.Players (Model lobbyRoom)
    = Room.Players (Model (CreateRoom [] NewManager "ROOM_3" "club" 5 "erin" 4
                             "online" false).2) ++ [p]
    /\ Player.ID p = 6
    /\ Player.Color p ∈ palette
    /\ Forall (fun q => Player.Color q <> Player.Color p)
              (Room.Players
                 (Model (CreateRoom [] NewManager "ROOM_3" "club" 5 "erin" 4
                           "online" false).2))
    /\ players lobbyRoom
       = <[6 := mkConn 6 "finn" false]>
           (players (CreateRoom [] NewManager "ROOM_3" "club" 5 "erin" 4
                       "online" false).2)
    /\ (NoDup (Player.Color <$>
               Room.Players
                 (Model (CreateRoom [] NewManager "ROOM_3" "club" 5 "erin" 4
                           "online" false).2))
        -> NoDup (Player.Color <$> Room.Players (Model lobbyRoom))).
Proof.
  apply (AddPlayer_fresh_color
           (CreateRoom [] NewManager "ROOM_3" "club" 5 "erin" 4
              "online" false).1.1
           _ 6 "finn" lobby.1).
  - vm_compute. discriminate.
  - vm_compute. reflexivity.
Defined.

Lemma removeFirst_last playerID ps p :
  Forall (fun q => Player.ID q <> playerID) ps ->
  Player.ID p = playerID ->
  removeFirst playerID (ps ++ [p]) = ps.
Proof.
  intros Hps Hp. induction Hps as [|q ps Hq _ IH]; cbn.
  - by rewrite Hp, Z.eqb_refl.
  - destruct (Z.eqb_spec (Player.ID q) playerID); [done|]. by rewrite IH.
Qed.

(** X10.  Joining and leaving is a round trip: a player who was not
    seated, is added and then removed leaves the room as it was, host
    included when the host is somebody else. *)
Theorem AddPlayer_RemovePlayer h r playerID username h' r' :
  AddPlayer h r playerID username = (h', r', None) ->
  Forall (fun q => Player.ID q <> playerID) (Room.Players (Model r)) ->
  Room.HostID (Model r) <> playerID ->
  RemovePlayer r' playerID = r.
Proof.
  intros H Hseat Hhost. unfold AddPlayer in H.
  destruct (Room.MaxPlayers (Model r) <=? _); [discriminate|].
  destruct (players r !! playerID) as [conn|] eqn:Hc; [discriminate|].
  unfold NewPlayer in H. simplify_eq.
  unfold RemovePlayer. cbn [players Model Room.Players Room.set_Players].
  rewrite removeFirst_last by done.
  rewrite delete_insert_eq, delete_id by done.
  destruct r as [[] conns]. cbn in *.
  destruct (Z.eqb_spec HostID playerID); [done|]. reflexivity.
Qed.

Lemma AddPlayer_RemovePlayer_witness :
  RemovePlayer lobbyRoom 6
  = (CreateRoom [] NewManager "ROOM_3" "club" 5 "erin" 4 "online" false).2.
Proof.
  apply (AddPlayer_RemovePlayer
           (CreateRoom [] NewManager "ROOM_3" "club" 5 "erin" 4
              "online" false).1.1
           _ 6 "finn" lobby.1).
  - vm_compute. reflexivity.
  - vm_compute. repeat constructor. discriminate.
  - vm_compute. discriminate.
Defined.

Lemma removeFirst_keeps playerID ps q :
  q ∈ ps -> Player.ID q <> playerID -> q ∈ removeFirst playerID ps.
Proof.
  intros Hin Hne. induction ps as [|p ps IH]; cbn; [done|].
  apply elem_of_cons in Hin as [->|Hin].
  - destruct (Z.eqb_spec (Player.ID p) playerID); [done|].
    apply list_elem_of_here.
  - destruct (Z.eqb_spec (Player.ID p) playerID); [done|].
    apply list_elem_of_further. by apply IH.
Qed.

(** X11.  Removing a player keeps the host seated: when the host of a
    room is one of its players, then after RemovePlayer, whoever is
    removed, the host is again one of the players left, if any is. *)
Theorem RemovePlayer_host_seated r playerID :
  host_seated r ->
  Room.Players (Model (RemovePlayer r playerID)) <> [] ->
  host_seated (RemovePlayer r playerID).
Proof.
  intros (p & Hin & Hp) Hleft. unfold host_seated, RemovePlayer in *.
  cbn [Model Room.Players Room.set_Players Room.HostID] in *.
  destruct (removeFirst playerID (Room.Players (Model r)))
    as [|first rest] eqn:Hrem.
  { exfalso. apply Hleft.
    destruct (_ && _); cbn; by rewrite ?Hrem. }
  destruct (Z.eqb_spec (Room.HostID (Model r)) playerID) as [Hhost|Hhost];
    cbn.
  - exists first. split; [apply list_elem_of_here | reflexivity].
  - exists p. split; [|done].
    rewrite <- Hrem. apply removeFirst_keeps; [done|]. congruence.
Qed.

Lemma RemovePlayer_host_seated_witness :
  host_seated (RemovePlayer lobbyRoom 5).
Proof.
  apply RemovePlayer_host_seated.
  - eexists. split; [vm_compute; apply list_elem_of_here|].
    vm_compute. reflexivity.
  - vm_compute. discriminate.
Defined.

Lemma cleanup_fold_lookup (base m : gmap string Room) id :
  map_fold (fun id room acc => if IsEmpty room then delete id acc else acc)
           base m !! id
  = match m !! id with
    | Some room => if IsEmpty room then None else base !! id
    | None => base !! id
    end.
Proof.
  revert id.
  apply (map_fold_weak_ind
           (fun (r : gmap string Room) (m : gmap string Room) =>
              forall id,
                r !! id = match m !! id with
                          | Some room => if IsEmpty room then None
                                         else base !! id
                          | None => base !! id
                          end)).
  - intros id. by rewrite lookup_empty.
  - intros i x m' r Hi IH id.
    destruct (decide (i = id)) as [->|Hne].
    + rewrite lookup_insert_eq. destruct (IsEmpty x).
      * by rewrite lookup_delete_eq.
      * by rewrite IH, Hi.
    + rewrite lookup_insert_ne by done. destruct (IsEmpty x).
      * by rewrite lookup_delete_ne, IH.
      * by rewrite IH.
Qed.

(** X12.  CleanupEmptyRooms removes exactly the rooms without a
    connection and leaves the others as they are; a second sweep changes
    nothing, and the number of rooms does not grow. *)
Theorem CleanupEmptyRooms_sweep m :
  (forall id,
      rooms (CleanupEmptyRooms m) !! id
      = match rooms m !! id with
        | Some room => if IsEmpty room then None else Some room
        | None => None
        end)
  /\ CleanupEmptyRooms (CleanupEmptyRooms m) = CleanupEmptyRooms m
  /\ GetRoomCount (CleanupEmptyRooms m) <= GetRoomCount m.
Proof.
  assert (Hlook : forall m id,
             rooms (CleanupEmptyRooms m) !! id
             = match rooms m !! id with
               | Some room => if IsEmpty room then None else Some room
               | None => None
               end).
  { intros m0 id. unfold CleanupEmptyRooms. cbn [rooms].
    rewrite cleanup_fold_lookup.
    destruct (rooms m0 !! id) as [room|] eqn:Hr; [|done].
    by destruct (IsEmpty room). }
  split; [apply Hlook|]. split.
  - assert (Heq : rooms (CleanupEmptyRooms (CleanupEmptyRooms m))
                  = rooms (CleanupEmptyRooms m)).
    { apply map_eq. intros id. rewrite (Hlook (CleanupEmptyRooms m)).
      rewrite Hlook. destruct (rooms m !! id) as [room|]; [|done].
      destruct (IsEmpty room) eqn:He; [done|]. by rewrite He. }
    destruct (CleanupEmptyRooms (CleanupEmptyRooms m)),
      (CleanupEmptyRooms m). cbn in Heq. by rewrite Heq.
  - unfold GetRoomCount. apply inj_le. apply map_subseteq_size.
    apply map_subseteq_spec. intros id room. rewrite Hlook.
    destruct (rooms m !! id) as [room'|]; [|done].
    by destruct (IsEmpty room').
Qed.

(** X13.  Creating a room and leaving it is a round trip: when the host
    of a room that was just created under a fresh id leaves, the registry
    is what it was before the room was created. *)
Theorem CreateRoom_LeaveRoom h m roomID name hostID hostName maxPlayers
    gameMode isPrivate :
  rooms m !! roomID = None ->
  LeaveRoom (CreateRoom h m roomID name hostID hostName maxPlayers gameMode
               isPrivate).1.2 roomID hostID
  = (m, None).
Proof.
  intros Hfresh. unfold CreateRoom, NewPlayer, LeaveRoom, GetRoom.
  cbn [fst snd rooms]. rewrite lookup_insert_eq.
  unfold RemovePlayer, IsEmpty. cbn [players Model].
  rewrite delete_singleton_eq, map_size_empty.
  rewrite bool_decide_eq_true_2 by done.
  rewrite delete_insert_eq, delete_id by done. by destruct m.
Qed.

Lemma CreateRoom_LeaveRoom_witness :
  LeaveRoom (CreateRoom [] NewManager "ROOM_3" "club" 5 "erin" 4 "online"
               false).1.2 "ROOM_3" 5
  = (NewManager, None).
Proof. apply CreateRoom_LeaveRoom. reflexivity. Defined.

(** X14.  A room id that is not registered: GetRoom, JoinRoom and
    LeaveRoom all report that the room was not found, and neither the
    registry nor the token store changes. *)
Theorem unknown_room h m roomID playerID username :
  rooms m !! roomID = None ->
  GetRoom m roomID = inr "room not found"
  /\ JoinRoom h m roomID playerID username = (h, m, Some "room not found")
  /\ LeaveRoom m roomID playerID = (m, Some "room not found").
Proof.
  intros Hno. unfold JoinRoom, LeaveRoom, GetRoom. by rewrite Hno.
Qed.

Lemma unknown_room_witness :
  GetRoom lobby.2 "ROOM_9" = inr "room not found"
  /\ JoinRoom lobby.1 lobby.2 "ROOM_9" 6 "finn"
     = (lobby.1, lobby.2, Some "room not found")
  /\ LeaveRoom lobby.2 "ROOM_9" 6 = (lobby.2, Some "room not found").
Proof. apply unknown_room. vm_compute. reflexivity. Defined.

Lemma markReady_length playerID ready ps :
  length (markReady playerID ready ps) = length ps.
Proof.
  induction ps as [|p ps IH]; cbn; [done|].
  destruct (Player.ID p =? playerID); cbn; by rewrite ?IH.
Qed.

Lemma CanStart_iff r :
  CanStart r = true
  <-> 2 <= Z.of_nat (length (Room.Players (Model r)))
      /\ forall id conn, players r !! id = Some conn -> Ready conn = true.
Proof.
  unfold CanStart, MinPlayers.
  destruct (Z.ltb_spec (Z.of_nat (length (Room.Players (Model r)))) 2).
  { split; [done|]. intros [? _]. lia. }
  rewrite forallb_forall. split.
  - intros Hall. split; [done|]. intros id conn Hc.
    apply (Hall (id, conn)). apply list_elem_of_In.
    by apply elem_of_map_to_list.
  - intros [_ Hall] [id conn] Hin. apply list_elem_of_In in Hin.
    apply elem_of_map_to_list in Hin. cbn. eauto.
Qed.

(** X15.  CanStart holds exactly when at least two players are seated
    and every connection of the room is ready, in whatever order the
    connections are visited.  So the game can start once SetPlayerReady
    has marked the last connection that was not ready, in a room of two
    or more seats. *)
Theorem CanStart_ready r :
  (CanStart r = true
   <-> 2 <= Z.of_nat (length (Room.Players (Model r)))
       /\ forall id conn, players r !! id = Some conn -> Ready conn = true)
  /\ (forall playerID r',
        SetPlayerReady r playerID true = (r', None) ->
        2 <= Z.of_nat (length (Room.Players (Model r))) ->
        (forall id conn, id <> playerID -> players r !! id = Some conn
                         -> Ready conn = true) ->
        CanStart r' = true).
Proof.
  split; [apply CanStart_iff|].
  intros playerID r' Hset Hseats Hothers. unfold SetPlayerReady in Hset.
  destruct (players r !! playerID) as [conn|] eqn:Hc; [|discriminate].
  simplify_eq. apply CanStart_iff.
  cbn [players Model Room.Players Room.set_Players].
  rewrite markReady_length. split; [done|].
  intros id c Hl. destruct (decide (id = playerID)) as [->|Hne].
  - rewrite lookup_insert_eq in Hl. by simplify_eq.
  - rewrite lookup_insert_ne in Hl by done. eauto.
Qed.

(** X16.  SetPlayerReady fails exactly for a player without a
    connection, and then changes nothing; otherwise it sets the flag of
    that connection, touches no other connection and keeps the number of
    seats. *)
Theorem SetPlayerReady_effect r playerID ready :
  exists r' err,
    SetPlayerReady r playerID ready = (r', err)
    /\ (err = None <-> is_Some (players r !! playerID))
    /\ (err <> None -> r' = r)
    /\ (err = None ->
        (exists conn, players r' !! playerID = Some conn
                      /\ Ready conn = ready)
        /\ (forall id, id <> playerID -> players r' !! id = players r !! id)
        /\ length (Room.Players (Model r'))
           = length (Room.Players (Model r))).
Proof.
  unfold SetPlayerReady.
  destruct (players r !! playerID) as [conn|] eqn:Hc.
  2:{ eexists _, _. split; [reflexivity|]. split; [|done].
      split; [done|]. by intros []. }
  eexists _, _. split; [reflexivity|]. split; [by split; eauto|].
  split; [done|]. intros _. cbn [players Model].
  split; [eexists; by rewrite lookup_insert_eq|].
  split; [intros id Hne; by rewrite lookup_insert_ne|].
  cbn [Room.Players Room.set_Players]. by rewrite markReady_length.
Qed.

End RoomExtras.

(** * The validators: what passes *)

Section ProtocolExtras.
Import protocol.
Context {Payload : Type}.
Variable ExtractCreateRoom : Payload -> CreateRoomPayload + string.
Variable ExtractJoinRoom : Payload -> JoinRoomPayload + string.
Variable ExtractConnect : Payload -> ConnectPayload + string.

(** X17.  What a connect message needs in order to pass: a payload that
    extracts, a username that is not blank once trimmed, and between 3
    and 20 bytes in the username as it was sent, surrounding white space
    included. *)
Theorem ValidateMessage_connect payload playerID roomID :
  ValidateMessage ExtractCreateRoom ExtractJoinRoom ExtractConnect
    (Some (mkMessage "connect" payload playerID roomID)) = None
  <-> exists data,
        ExtractConnect payload = inl data
        /\ TrimSpace (Connect_Username data) <> ""
        /\ 3 <= len (Connect_Username data) <= 20.
Proof.
  cbn. unfold validateConnect.
  destruct (ExtractConnect payload) as [data|err].
  2:{ split; [done|]. by intros (? & ? & _). }
  destruct (String.eqb_spec (TrimSpace (Connect_Username data)) "")
    as [Hblank|Hblank].
  { split; [done|]. intros (d & [= <-] & Hd & _). done. }
  destruct (Z.ltb_spec (len (Connect_Username data)) 3); cbn [orb].
  { split; [done|]. intros (d & [= <-] & _ & Hd). lia. }
  destruct (Z.ltb_spec 20 (len (Connect_Username data))).
  { split; [done|]. intros (d & [= <-] & _ & Hd). lia. }
  split; [|done]. intros _. exists data. split; [done|]. split; [done|]. lia.
Qed.

(** X18.  A nil message and a message without a type are refused; a
    message of any type other than create_room, join_room and connect
    passes whatever its payload. *)
Theorem ValidateMessage_other_types :
  ValidateMessage ExtractCreateRoom ExtractJoinRoom ExtractConnect None
  = Some "message is nil"
  /\ (forall msg,
        Type_ msg = "" ->
        ValidateMessage ExtractCreateRoom ExtractJoinRoom ExtractConnect
          (Some msg) = Some "message type is empty")
  /\ (forall msg,
        Type_ msg <> "" -> Type_ msg <> "create_room" ->
        Type_ msg <> "join_room" -> Type_ msg <> "connect" ->
        ValidateMessage ExtractCreateRoom ExtractJoinRoom ExtractConnect
        (Some msg) = None).
Proof.
  split; [reflexivity|]. split.
  - intros msg Ht. cbn. by rewrite Ht.
  - intros msg H1 H2 H3 H4. cbn.
    apply String.eqb_neq in H1, H2, H3, H4. by rewrite H1, H2, H3, H4.
Qed.

Lemma TrimSpace_nonempty s : TrimSpace s <> "" -> s <> "".
Proof. intros H ->. by apply H. Qed.

(** X19.  The validators agree on a create_room message: a payload whose
    room name passes ValidateRoomName, whose username passes
    ValidateUsername and that asks for 2 to 4 players passes
    ValidateMessage. *)
Theorem validators_agree_on_create_room payload data playerID roomID :
  ExtractCreateRoom payload = inl data ->
  ValidateRoomName (Create_Name data) = None ->
  ValidateUsername (Create_Username data) = None ->
  2 <= Create_MaxPlayers data <= 4 ->
  ValidateMessage ExtractCreateRoom ExtractJoinRoom ExtractConnect
    (Some (mkMessage "create_room" payload playerID roomID)) = None.
Proof.
  intros Hx Hname Huser Hmax. cbn. unfold validateCreateRoom. rewrite Hx.
  unfold ValidateRoomName in Hname. cbv zeta in Hname.
  destruct (String.eqb (TrimSpace (Create_Name data)) ""); [discriminate|].
  destruct (Z.ltb_spec (Create_MaxPlayers data) 2); [lia|].
  destruct (Z.ltb_spec 4 (Create_MaxPlayers data)); [lia|]. cbn [orb].
  unfold ValidateUsername in Huser. cbv zeta in Huser.
  destruct (String.eqb_spec (TrimSpace (Create_Username data)) "")
    as [|Hne]; [discriminate|].
  apply TrimSpace_nonempty in Hne.
  apply String.eqb_neq in Hne. by rewrite Hne.
Qed.

End ProtocolExtras.

Section ProtocolExtras2.
Import protocol.

Lemma allValidChars_Forall s :
  allValidChars s = true
  <-> Forall (fun a => isValidUsernameChar a = true) (list_ascii_of_string s).
Proof.
  induction s as [|a s IH]; cbn [allValidChars list_ascii_of_string].
  - split; [constructor|done].
  - rewrite Forall_cons, <- IH.
    destruct (isValidUsernameChar a); split; try done; by intros [? ?].
Qed.

(** X20.  ValidateUsername accepts exactly the names that, once trimmed of
    surrounding white space, are 3 to 20 bytes long and made of ASCII
    letters, digits, underscores and hyphens. *)
Theorem ValidateUsername_accepts username :
  ValidateUsername username = None
  <-> 3 <= len (TrimSpace username) <= 20
      /\ Forall (fun a => isValidUsernameChar a = true)
                (list_ascii_of_string (TrimSpace username)).
Proof.
  unfold ValidateUsername. cbv zeta. rewrite <- allValidChars_Forall.
  destruct (String.eqb_spec (TrimSpace username) "") as [Hblank|Hblank].
  { split; [done|]. intros [Hlen _]. rewrite Hblank in Hlen.
    unfold len in Hlen. cbn in Hlen. lia. }
  destruct (Z.ltb_spec (len (TrimSpace username)) 3).
  { split; [done|]. lia. }
  destruct (Z.ltb_spec 20 (len (TrimSpace username))).
  { split; [done|]. lia. }
  destruct (allValidChars (TrimSpace username)); cbn [negb].
  - split; [|done]. intros _. split; [lia|done].
  - split; [done|]. by intros [_ ?].
Qed.

Lemma validators_agree_on_create_room_witness :
  ValidateMessage (Payload:=CreateRoomPayload) inl
    (fun _ => inr "not a join") (fun _ => inr "not a connect")
    (Some (mkMessage "create_room"
             (mkCreateRoom "club" 4 "online" false "" 5 "erin") 5 ""))
  = None.
Proof.
  apply (validators_agree_on_create_room (Payload:=CreateRoomPayload) inl
           (fun _ => inr "not a join") (fun _ => inr "not a connect")
           (mkCreateRoom "club" 4 "online" false "" 5 "erin")
           (mkCreateRoom "club" 4 "online" false "" 5 "erin") 5 "").
  - reflexivity.
  - vm_compute. reflexivity.
  - vm_compute. reflexivity.
  - cbn. lia.
Defined.

End ProtocolExtras2.

(** * The AI: what it proposes *)

Section AIExtras.
Import aispec.

(** X21.  The AI accepts every move the engine accepts, and expects the
    token where the engine puts it: a token [game.canMoveToken] accepts
    is accepted by [ai.canMoveToken] on the same store and board, and
    both compute the same destination. *)
Theorem ai_accepts_engine_moves e tp diceValue color :
  game.canMoveToken e tp diceValue color = Ok true ->
  ai.canMoveToken (game.heap e) tp diceValue color (game.board e) = Ok true
  /\ forall tok,
       ai.calculateNewPosition tok diceValue color
       = game.calculateNewPosition tok diceValue color.
Proof.
  intros H. split; [|reflexivity].
  unfold game.canMoveToken in H. unfold ai.canMoveToken.
  res_unfold. res_case H. rename a into tok. rewrite ?E. cbn [res_bind].
  destruct (Token.IsHome tok); [discriminate|].
  destruct (Z.eqb_spec (Token.Position tok) (-1)) as [Hbase|Hbase];
    cbn [andb] in H.
  { destruct (diceValue =? RollToStart); [reflexivity|discriminate]. }
  cbv zeta in *.
  change (game.calculateNewPosition tok diceValue color)
    with (ai.calculateNewPosition tok diceValue color) in H.
  destruct (57 <? ai.calculateNewPosition tok diceValue color);
    [discriminate|].
  destruct (52 <=? ai.calculateNewPosition tok diceValue color).
  - res_case H. change (ai.homeCell (game.board e) color
                          (ai.calculateNewPosition tok diceValue color - 52))
      with (game.homeCell (game.board e) color
              (ai.calculateNewPosition tok diceValue color - 52)).
    rewrite ?E0. cbn [res_bind]. unfold ai.holdsColor.
    destruct (Cell.Token a); [discriminate|]. reflexivity.
  - res_case H. rewrite ?E0. cbn [res_bind]. unfold ai.holdsColor.
    destruct (Cell.Token a) as [op|]; [|reflexivity].
    res_unfold. res_case H. rewrite ?E1. cbn [res_bind].
    destruct (String.eqb (Token.Color a0) color); [discriminate|reflexivity].
Qed.

Lemma ai_accepts_engine_moves_witness :
  ai.canMoveToken (game.heap crowdedStart) 0%nat 6 ColorRed
    (game.board crowdedStart) = Ok true
  /\ forall tok,
       ai.calculateNewPosition tok 6 ColorRed
       = game.calculateNewPosition tok 6 ColorRed.
Proof.
  apply ai_accepts_engine_moves. vm_compute. reflexivity.
Defined.

(** X22.  The AI accepts a move the engine refuses: with a token of the
    player on the start cell of the colour and a 6 on the dice, the
    engine refuses to bring a token out of base, and the AI counts that
    token among its legal ones. *)
Theorem base_exit_onto_own_token e p tp tok cell op other :
  game.heap e !! tp = Some tok ->
  Token.IsHome tok = false ->
  Token.Position tok = -1 ->
  index (Board.Cells (game.board e)) (StartingPositions (Player.Color p))
  = Ok cell ->
  Cell.Token cell = Some op ->
  game.heap e !! op = Some other ->
  Token.Color other = Player.Color p ->
  game.canMoveToken e tp 6 (Player.Color p) = Ok false
  /\ ai.canMoveToken (game.heap e) tp 6 (Player.Color p) (game.board e)
     = Ok true
  /\ legal (game.heap e) p 6 (game.board e) tp = true.
Proof.
  intros Htok Hhome Hpos Hcell Hop Hother Hcol.
  assert (Hai : ai.canMoveToken (game.heap e) tp 6 (Player.Color p)
                  (game.board e) = Ok true).
  { unfold ai.canMoveToken, deref. rewrite Htok. res_unfold. cbn [res_bind].
    rewrite Hhome, Hpos, Z.eqb_refl. reflexivity. }
  split; [|split; [done|by unfold legal; rewrite Hai]].
  unfold game.canMoveToken, deref. rewrite Htok. res_unfold. cbn [res_bind].
  rewrite Hhome, Hpos. change (6 =? RollToStart) with true.
  rewrite andb_false_r. cbv zeta.
  unfold game.calculateNewPosition. rewrite Hpos, Z.eqb_refl.
  pose proof (StartingPositions_range (Player.Color p)) as Hr.
  destruct (Z.ltb_spec 57 (StartingPositions (Player.Color p))); [lia|].
  destruct (Z.leb_spec 52 (StartingPositions (Player.Color p))); [lia|].
  rewrite Hcell. cbn [res_bind]. rewrite Hop, Hother. cbn [res_bind].
  by rewrite Hcol, String.eqb_refl.
Qed.

Lemma base_exit_onto_own_token_witness :
  game.canMoveToken crowdedStart 1%nat 6 ColorRed = Ok false
  /\ ai.canMoveToken (game.heap crowdedStart) 1%nat 6 ColorRed
       (game.board crowdedStart) = Ok true
  /\ legal (game.heap crowdedStart) (scenario.seated crowdedStart 0) 6
       (game.board crowdedStart) 1%nat = true.
Proof.
  refine (base_exit_onto_own_token crowdedStart
            (scenario.seated crowdedStart 0) 1%nat
            (Token.mk 1 ColorRed (-1) false true)
            (Cell.mk 0 true (Some 0%nat)) 0%nat
            (Token.mk 0 ColorRed 0 false true) _ _ _ _ _ _ _);
    vm_compute; reflexivity.
Defined.

End AIExtras.

Section AIPolicies.
Import ai aispec.

Lemma ready_valid h player dice board :
  ready h player dice board ->
  getValidTokens h player dice board
  = Ok (List.filter (legal h player dice board) (Player.Tokens player)).
Proof.
  intros Hready. unfold getValidTokens.
  apply getValidTokens_loop_filter. apply Forall_forall. intros tp Htp.
  by apply (canMoveToken_total h player).
Qed.

(** What is known of a token the AI counts as legal. *)
Lemma valid_token h player dice board tp :
  ready h player dice board ->
  tp ∈ List.filter (legal h player dice board) (Player.Tokens player) ->
  exists tok,
    h !! tp = Some tok
    /\ (Token.Position tok = -1 \/ 0 <= Token.Position tok <= 57)
    /\ (Token.Position tok = -1 -> dice = RollToStart).
Proof.
  intros (_ & _ & _ & Htoks & _) Hin.
  apply list_elem_of_In, filter_In in Hin as [Hin Hlegal].
  apply list_elem_of_In in Hin. rewrite Forall_forall in Htoks.
  destruct (Htoks tp Hin) as (tok & Htok & Hpos).
  exists tok. split; [done|]. split; [done|]. intros Hbase.
  unfold legal, canMoveToken, deref in Hlegal. rewrite Htok in Hlegal.
  res_unfold. cbn [res_bind] in Hlegal.
  destruct (Token.IsHome tok); [discriminate|].
  rewrite Hbase, Z.eqb_refl in Hlegal.
  destruct (Z.eqb_spec dice RollToStart); [done|discriminate].
Qed.

Lemma firstCapture_spec h player dice board l :
  length (Board.Cells board) = 52%nat ->
  Forall (fun cell => forall vp, Cell.Token cell = Some vp -> is_Some (h !! vp))
         (Board.Cells board) ->
  Forall (fun tp => is_Some (h !! tp)) l ->
  exists r,
    firstCapture h l dice (Player.Color player) board = Ok r
    /\ ((r = None /\ Forall (fun tq => ~ capturing h player dice board tq) l)
        \/ first_such l (capturing h player dice board) r).
Proof.
  intros Hlen Hcells Hl.
  induction Hl as [|tp rest [tok Htok] _ (r & Hr & IH)].
  - exists None. split; [done|]. left. split; [done|constructor].
  - cbn [firstCapture]. unfold deref. rewrite Htok.
    res_unfold. cbn [res_bind]. cbv zeta.
    destruct (canCapture_spec h board (Player.Color player)
                (calculateNewPosition tok dice (Player.Color player))
                Hlen Hcells) as (b & Hb & Hind).
    rewrite Hb. cbn [res_bind]. destruct b.
    + eexists. split; [reflexivity|]. right.
      exists tp, [], rest. split; [done|]. split; [done|].
      split; [constructor|]. exists tok. split; [done|]. by apply Hind.
    + exists r. split; [done|].
      assert (Hno : ~ capturing h player dice board tp).
      { intros (tok' & Htok' & Hc). rewrite Htok in Htok'. simplify_eq.
        apply Hind in Hc. discriminate. }
      destruct IH as [[-> Hall]|(tq & before & after & -> & -> & Hbef & Hq)].
      * left. split; [done|]. by constructor.
      * right. exists tq, (tp :: before), after.
        split; [done|]. split; [done|]. split; [by constructor|done].
Qed.

Lemma firstInBase_spec h l :
  Forall (fun tp => is_Some (h !! tp)) l ->
  exists r,
    firstInBase h l = Ok r
    /\ ((r = None /\ Forall (fun tq => ~ inBase h tq) l)
        \/ first_such l (inBase h) r).
Proof.
  intros Hl. induction Hl as [|tp rest [tok Htok] _ (r & Hr & IH)].
  - exists None. split; [done|]. left. split; [done|constructor].
  - cbn [firstInBase]. unfold deref. rewrite Htok.
    res_unfold. cbn [res_bind].
    destruct (Z.eqb_spec (Token.Position tok) (-1)) as [Hbase|Hbase].
    + eexists. split; [reflexivity|]. right.
      exists tp, [], rest. split; [done|]. split; [done|].
      split; [constructor|]. by exists tok.
    + exists r. split; [done|].
      assert (Hno : ~ inBase h tp).
      { intros (tok' & Htok' & Hc). rewrite Htok in Htok'. by simplify_eq. }
      destruct IH as [[-> Hall]|(tq & before & after & -> & -> & Hbef & Hq)].
      * left. split; [done|]. by constructor.
      * right. exists tq, (tp :: before), after.
        split; [done|]. split; [done|]. split; [by constructor|done].
Qed.

Lemma mostAdvanced_spec h l :
  Forall (fun tp => is_Some (h !! tp)) l ->
  forall best maxPos,
  exists r,
    mostAdvanced h l best maxPos = Ok r
    /\ ((r = best /\ Forall (fun tq => positionOf h tq <= maxPos) l)
        \/ exists tp before after,
             r = Some tp /\ l = before ++ tp :: after
             /\ maxPos < positionOf h tp
             /\ Forall (fun tq => positionOf h tq < positionOf h tp) before
             /\ Forall (fun tq => positionOf h tq <= positionOf h tp) after).
Proof.
  intros Hl. induction Hl as [|tp rest [tok Htok] _ IH]; intros best maxPos.
  - exists best. split; [done|]. left. split; [done|constructor].
  - cbn [mostAdvanced]. unfold deref. rewrite Htok.
    res_unfold. cbn [res_bind].
    assert (Hp : positionOf h tp = Token.Position tok)
      by (unfold positionOf; by rewrite Htok).
    destruct (Z.ltb_spec maxPos (Token.Position tok)) as [Hlt|Hge].
    + destruct (IH (Some tp) (Token.Position tok))
        as (r & Hr & [[-> Hall]|(tq & before & after & -> & -> & Hm & Hb & Ha)]).
      * exists (Some tp). split; [done|]. right.
        exists tp, [], rest. split; [done|]. split; [done|].
        split; [lia|]. split; [constructor|]. by rewrite Hp.
      * exists (Some tq). split; [done|]. right.
        exists tq, (tp :: before), after. split; [done|]. split; [done|].
        split; [lia|]. split; [|done]. constructor; [lia|done].
    + destruct (IH best maxPos)
        as (r & Hr & [[-> Hall]|(tq & before & after & -> & -> & Hm & Hb & Ha)]).
      * exists best. split; [done|]. left. split; [done|].
        constructor; [lia|done].
      * exists (Some tq). split; [done|]. right.
        exists tq, (tp :: before), after. split; [done|]. split; [done|].
        split; [lia|]. split; [|done]. constructor; [lia|done].
Qed.

(** The four ways [selectTokenMedium] ends. *)
Lemma selectTokenMedium_cases h player dice board :
  ready h player dice board ->
  exists r,
    selectTokenMedium h player dice board = Ok r
    /\ let valid := List.filter (legal h player dice board)
                      (Player.Tokens player) in
       (valid = [] /\ r = None)
       \/ first_such valid (capturing h player dice board) r
       \/ (Forall (fun tq => ~ capturing h player dice board tq) valid
           /\ dice = RollToStart
           /\ first_such valid (inBase h) r)
       \/ (valid <> []
           /\ Forall (fun tq => ~ capturing h player dice board tq) valid
           /\ (dice <> RollToStart \/ Forall (fun tq => ~ inBase h tq) valid)
           /\ exists tp, r = Some tp
                         /\ first_best valid (positionOf h) (Some tp)).
Proof.
  intros Hready. cbv zeta. unfold selectTokenMedium.
  rewrite (ready_valid _ _ _ _ Hready). res_unfold. cbn [res_bind].
  pose proof (valid_token h player dice board) as Hvalid.
  specialize (fun tp => Hvalid tp Hready).
  set (valid := List.filter (legal h player dice board)
                  (Player.Tokens player)) in *.
  destruct valid as [|t0 rest] eqn:Hv.
  { exists None. split; [done|]. by left. }
  rewrite <- Hv in *. clearbody valid.
  assert (Hlen0 : (Z.of_nat (length valid) =? 0) = false).
  { rewrite Hv. cbn [length]. apply Z.eqb_neq. lia. }
  rewrite Hlen0.
  assert (Hstore : Forall (fun tp => is_Some (h !! tp)) valid).
  { apply Forall_forall. intros tp Htp.
    destruct (Hvalid tp Htp) as (tok & Htok & _). by eexists. }
  destruct Hready as (Hlen & Hcells & _).
  destruct (firstCapture_spec h player dice board valid Hlen Hcells Hstore)
    as (c & Hc & Hcase).
  rewrite Hc. cbn [res_bind].
  destruct Hcase as [[-> Hnocap]|Hcap].
  2:{ destruct Hcap as (tp & before & after & -> & Hrest).
      exists (Some tp). split; [done|]. right; left.
      by exists tp, before, after. }
  assert (Hne : valid <> []) by (rewrite Hv; done).
  assert (Hadv : (dice <> RollToStart \/ Forall (fun tq => ~ inBase h tq) valid)
                 -> exists r, mostAdvanced h valid None (-1) = Ok r
                      /\ exists tp, r = Some tp
                           /\ first_best valid (positionOf h) (Some tp)).
  { intros Hnobase.
    destruct (mostAdvanced_spec h valid Hstore None (-1))
      as (r & Hr & [[-> Hall]|(tp & before & after & -> & Hsplit & _ & Hb & Ha)]).
    - exfalso. rewrite Hv in Hall.
      apply Forall_cons in Hall as [Hall _].
      destruct (Hvalid t0) as (tok & Htok & Hpos & Hsix).
      { rewrite Hv. apply list_elem_of_here. }
      unfold positionOf in Hall. rewrite Htok in Hall.
      assert (Hbase : Token.Position tok = -1) by lia.
      destruct Hnobase as [Hd|Hnb]; [by apply Hd, Hsix|].
      rewrite Hv in Hnb. apply Forall_cons in Hnb as [Hnb _].
      apply Hnb. by exists tok.
    - exists (Some tp). split; [done|]. exists tp. split; [done|].
      by exists before, after. }
  destruct (Z.eqb_spec dice RollToStart) as [Hsix|Hsix].
  - destruct (firstInBase_spec h valid Hstore) as (b & Hb & Hcase).
    rewrite Hb. cbn [res_bind].
    destruct Hcase as [[-> Hnobase]|Hbase].
    + destruct Hadv as (r & Hr & Hbest); [by right|].
      exists r. split; [done|]. right; right; right.
      split; [done|]. split; [done|]. split; [by right|done].
    + destruct Hbase as (tp & before & after & -> & Hrest).
      exists (Some tp). split; [done|]. right; right; left.
      split; [done|]. split; [done|]. by exists tp, before, after.
  - cbn [res_bind]. destruct Hadv as (r & Hr & Hbest); [by left|].
    exists r. split; [done|]. right; right; right.
    split; [done|]. split; [done|]. split; [by left|done].
Qed.


Lemma first_such_elem valid P r :
  first_such valid P r -> exists tp, r = Some tp /\ tp ∈ valid /\ P tp.
Proof.
  intros (tp & before & after & -> & -> & _ & Hp). exists tp.
  split; [done|]. split; [|done].
  apply elem_of_app. right. apply list_elem_of_here.
Qed.

Lemma first_best_elem valid score tp :
  first_best valid score (Some tp) -> tp ∈ valid.
Proof.
  intros (before & after & -> & _). apply elem_of_app. right.
  apply list_elem_of_here.
Qed.

Lemma selectTokenHard_returns h player dice board :
  ready h player dice board ->
  exists r,
    selectTokenHard h player dice board = Ok r
    /\ match r with
       | None => List.filter (legal h player dice board)
                   (Player.Tokens player) = []
       | Some tp => tp ∈ List.filter (legal h player dice board)
                            (Player.Tokens player)
       end.
Proof.
  intros Hready. unfold selectTokenHard.
  rewrite (ready_valid _ _ _ _ Hready). res_unfold. cbn [res_bind].
  set (score := fun tp =>
         match evaluateMove h tp dice player board with
         | Ok s => s
         | Panic => 0
         end).
  assert (Hvalid : Forall (fun tp => evaluateMove h tp dice player board
                                     = Ok (score tp))
                     (List.filter (legal h player dice board)
                        (Player.Tokens player))).
  { apply Forall_forall. intros tp Htp.
    apply list_elem_of_In, filter_In in Htp as [Htp _].
    apply list_elem_of_In in Htp.
    destruct (evaluateMove_score h player dice board tp Hready Htp)
      as (s & Hs & _).
    unfold score. by rewrite Hs. }
  destruct (List.filter _ _) as [|t0 rest] eqn:Hf.
  - by exists None.
  - rewrite (scores_loop_map h player dice board score _ Hvalid).
    cbn [res_bind map]. eexists. split; [reflexivity|].
    eapply first_best_elem.
    apply (best_loop_first_best score rest [] t0 []); constructor.
Qed.

Lemma selectTokenEasy_returns h player dice board raw :
  ready h player dice board ->
  exists r,
    selectTokenEasy h player dice board raw = Ok r
    /\ match r with
       | None => List.filter (legal h player dice board)
                   (Player.Tokens player) = []
       | Some tp => tp ∈ List.filter (legal h player dice board)
                            (Player.Tokens player)
       end.
Proof.
  intros Hready. unfold selectTokenEasy.
  rewrite (ready_valid _ _ _ _ Hready). res_unfold. cbn [res_bind].
  destruct (List.filter _ _) as [|t0 rest] eqn:Hf; [by exists None|].
  rewrite <- Hf.
  set (valid := List.filter _ _) in *.
  assert (Hlen : 0 < Z.of_nat (length valid)) by (rewrite Hf; cbn; lia).
  destruct (Z.eqb_spec (Z.of_nat (length valid)) 0); [lia|].
  destruct (index_in_range valid (game.Intn raw (Z.of_nat (length valid))))
    as [tp Htp].
  { unfold game.Intn. apply Z.mod_pos_bound. lia. }
  rewrite Htp. cbn [res_bind]. exists (Some tp). split; [done|].
  apply index_Ok in Htp as [_ Htp]. eapply list_elem_of_lookup_2. exact Htp.
Qed.

Lemma selectTokenMedium_returns h player dice board :
  ready h player dice board ->
  exists r,
    selectTokenMedium h player dice board = Ok r
    /\ match r with
       | None => List.filter (legal h player dice board)
                   (Player.Tokens player) = []
       | Some tp => tp ∈ List.filter (legal h player dice board)
                            (Player.Tokens player)
       end.
Proof.
  intros Hready.
  destruct (selectTokenMedium_cases h player dice board Hready)
    as (r & Hr & Hcases).
  exists r. split; [done|]. cbv zeta in Hcases.
  destruct Hcases as [[Hnil ->]|[Hc|[(_ & _ & Hb)|(_ & _ & _ & tp & -> & Hb)]]].
  - done.
  - by apply first_such_elem in Hc as (tp & -> & Hin & _).
  - by apply first_such_elem in Hb as (tp & -> & Hin & _).
  - by apply first_best_elem in Hb.
Qed.

(** X23.  Whatever its level, the AI proposes one of its legal tokens:
    on arguments it can read SelectToken returns, the token it returns is
    one [canMoveToken] accepts, and it returns none exactly when there is
    no such token. *)
Theorem SelectToken_legal level h player diceValue board raw :
  ready h player diceValue board ->
  exists r,
    SelectToken level h player diceValue board raw = Ok r
    /\ (r = None
        <-> List.filter (legal h player diceValue board)
              (Player.Tokens player) = [])
    /\ (forall tp, r = Some tp ->
                   tp ∈ Player.Tokens player
                   /\ canMoveToken h tp diceValue (Player.Color player) board
                      = Ok true).
Proof.
  intros Hready.
  assert (Hres : exists r,
             SelectToken level h player diceValue board raw = Ok r
             /\ match r with
                | None => List.filter (legal h player diceValue board)
                            (Player.Tokens player) = []
                | Some tp => tp ∈ List.filter (legal h player diceValue board)
                                     (Player.Tokens player)
                end).
  { unfold SelectToken.
    destruct (String.eqb level "easy");
      [by apply selectTokenEasy_returns|].
    destruct (String.eqb level "medium");
      [by apply selectTokenMedium_returns|].
    destruct (String.eqb level "hard");
      [by apply selectTokenHard_returns | by apply selectTokenMedium_returns]. }
  destruct Hres as (r & Hr & Hin). exists r. split; [done|].
  destruct r as [tp|].
  - split.
    + split; [done|]. intros Hnil. rewrite Hnil in Hin.
      by apply elem_of_nil in Hin.
    + intros tq [= <-].
      apply list_elem_of_In, filter_In in Hin as [Hin Hlegal].
      split; [by apply list_elem_of_In|].
      unfold legal in Hlegal.
      destruct (canMoveToken h tp diceValue (Player.Color player) board)
        as [[]|]; done.
  - split; [done|]. intros tq [=].
Qed.

Lemma SelectToken_legal_witness :
  exists r,
    SelectToken "easy" exHeap exPlayer 2 exBoard 7 = Ok r
    /\ (r = None
        <-> List.filter (legal exHeap exPlayer 2 exBoard)
              (Player.Tokens exPlayer) = [])
    /\ (forall tp, r = Some tp ->
                   tp ∈ Player.Tokens exPlayer
                   /\ canMoveToken exHeap tp 2 (Player.Color exPlayer) exBoard
                      = Ok true).
Proof.
  apply SelectToken_legal.
  unfold ready.
  split; [reflexivity|].
  split.
  { vm_compute.
    repeat (constructor;
            [intros vp Hvp;
             first [discriminate Hvp
                   | injection Hvp as <-; eexists; reflexivity] |]).
    constructor. }
  split.
  { eexists. split; [reflexivity|]. split; [reflexivity|].
    repeat (constructor; [intros vp Hvp; discriminate Hvp|]).
    constructor. }
  split; [|lia].
  repeat (constructor; [eexists; split; [reflexivity|simpl; lia]|]).
  constructor.
Defined.

(** X24.  The medium AI chooses by three priorities among its legal
    tokens: the first that would capture; failing that, on a 6, the first
    that is still in base; failing that, the first of those farthest
    along.  It returns none only when it has no legal token. *)
Theorem selectTokenMedium_priorities h player diceValue board :
  ready h player diceValue board ->
  exists r,
    selectTokenMedium h player diceValue board = Ok r
    /\ let valid := List.filter (legal h player diceValue board)
                      (Player.Tokens player) in
       (valid = [] -> r = None)
       /\ (Exists (capturing h player diceValue board) valid ->
           first_such valid (capturing h player diceValue board) r)
       /\ (~ Exists (capturing h player diceValue board) valid ->
           diceValue = RollToStart -> Exists (inBase h) valid ->
           first_such valid (inBase h) r)
       /\ (valid <> [] ->
           ~ Exists (capturing h player diceValue board) valid ->
           ~ (diceValue = RollToStart /\ Exists (inBase h) valid) ->
           exists tp, r = Some tp
                      /\ first_best valid (positionOf h) (Some tp)).
Proof.
  intros Hready.
  destruct (selectTokenMedium_cases h player diceValue board Hready)
    as (r & Hr & Hcases).
  exists r. split; [done|]. cbv zeta in *.
  set (valid := List.filter _ _) in *. clearbody valid.
  assert (Hfirst : forall P, first_such valid P r -> Exists P valid).
  { intros P (tp & before & after & _ & -> & _ & Hp).
    apply Exists_app. right. by constructor. }
  assert (Hnot : forall P, Forall (fun tq => ~ P tq) valid
                           -> ~ Exists P valid).
  { intros P Hall Hex. apply Exists_exists in Hex as (tq & Hin & Hp).
    rewrite Forall_forall in Hall. by apply (Hall tq). }
  destruct Hcases as [[-> ->]|[Hc|[(Hnc & Hsix & Hb)|(Hne & Hnc & Hnb & Hbest)]]].
  - split; [done|]. split; [by intros ?%Exists_nil|].
    split; [by intros _ _ ?%Exists_nil|]. done.
  - pose proof (Hfirst _ Hc) as Hex.
    split.
    { intros ->. by apply Exists_nil in Hex. }
    split; [done|]. split; [done|]. done.
  - pose proof (Hfirst _ Hb) as Hex. apply Hnot in Hnc.
    split.
    { intros ->. by apply Exists_nil in Hex. }
    split; [done|]. split; [done|]. intros _ _ Hno. exfalso. by apply Hno.
  - apply Hnot in Hnc.
    split; [done|]. split; [done|]. split; [|done].
    intros _ Hsix Hex. exfalso.
    destruct Hnb as [Hd|Hnb]; [done|]. by apply (Hnot _ Hnb).
Qed.

Lemma selectTokenMedium_priorities_witness :
  exists r,
    selectTokenMedium exHeap exPlayer 2 exBoard = Ok r
    /\ let valid := List.filter (legal exHeap exPlayer 2 exBoard)
                      (Player.Tokens exPlayer) in
       (valid = [] -> r = None)
       /\ (Exists (capturing exHeap exPlayer 2 exBoard) valid ->
           first_such valid (capturing exHeap exPlayer 2 exBoard) r)
       /\ (~ Exists (capturing exHeap exPlayer 2 exBoard) valid ->
           2 = RollToStart -> Exists (inBase exHeap) valid ->
           first_such valid (inBase exHeap) r)
       /\ (valid <> [] ->
           ~ Exists (capturing exHeap exPlayer 2 exBoard) valid ->
           ~ (2 = RollToStart /\ Exists (inBase exHeap) valid) ->
           exists tp, r = Some tp
                      /\ first_best valid (positionOf exHeap) (Some tp)).
Proof.
  apply selectTokenMedium_priorities.
  unfold ready.
  split; [reflexivity|].
  split.
  { vm_compute.
    repeat (constructor;
            [intros vp Hvp;
             first [discriminate Hvp
                   | injection Hvp as <-; eexists; reflexivity] |]).
    constructor. }
  split.
  { eexists. split; [reflexivity|]. split; [reflexivity|].
    repeat (constructor; [intros vp Hvp; discriminate Hvp|]).
    constructor. }
  split; [|lia].
  repeat (constructor; [eexists; split; [reflexivity|simpl; lia]|]).
  constructor.
Defined.

End AIPolicies.

(** * The turn of an AI *)

Section AITurn.
Import game enginespec aispec aiturn.

Lemma fire_schedule b ev e : schedule (fire b ev e) = schedule e.
Proof. by destruct b. Qed.

Lemma RollDice_extra_frame e playerID raw e1 v err :
  RollDice e playerID raw = Ok (e1, (v, true, err)) ->
  schedule e1 = schedule e /\ Room.LastDice (room e1) = 6 /\ v = 6.
Proof.
  unfold RollDice. res_unfold. intros H.
  res_step H. res_step H; [simplify_eq|].
  cbv zeta in H.
  match type of H with
  | context [if ?d =? RollForExtraTurn then _ else _] =>
      destruct (Z.eqb_spec d RollForExtraTurn) as [Hd|Hd]
  end.
  - res_step H.
    + res_step H. simplify_eq.
    + unfold RollDice_finish in H. res_unfold. res_step H.
      destruct a0; cbn [negb] in H; cbn [res_bind] in H; simplify_eq;
        rewrite fire_schedule; unfold fire; destruct (OnDiceRolled _);
        cbn; rewrite ?Hd; done.
  - unfold RollDice_finish in H. res_unfold. res_step H.
    destruct a0; cbn [negb] in H; [|res_step H]; simplify_eq.
Qed.


Lemma MoveToken_six_frame e playerID tokenID e' err :
  MoveToken e playerID tokenID = Ok (e', err) ->
  Room.LastDice (room e) = 6 ->
  schedule e' = schedule e.
Proof.
  unfold MoveToken. res_unfold. intros H Hsix.
  res_step H. res_step H; [by simplify_eq|].
  res_step H; [by simplify_eq|].
  res_step H. rename a0 into tp.
  res_step H.
  match goal with
  | Hc : canMoveToken _ _ _ _ = Ok ?b |- _ =>
      destruct b; cbn [negb] in H; [|by simplify_eq];
      apply canMoveToken_true in Hc as (tok & Htok & _ & _ & Hle)
  end.
  res_step H.
  match goal with
  | Hd : deref _ _ = Ok _ |- _ =>
      apply deref_Ok in Hd; rewrite Htok in Hd; simplify_eq
  end.
  res_step H. rename a0 into e1.
  match goal with
  | Hm : moveTokenToPosition _ _ _ _ = Ok _ |- _ =>
      apply moveTokenToPosition_Ok in Hm
        as (tok0 & tok1 & b1 & _ & -> & _); [|exact Hle]
  end.
  res_step H. destruct a0 as [e2 cap].
  assert (He2 : schedule e2 = schedule e /\ callbacks e2 = callbacks e).
  { match goal with
    | Hc : checkCapture _ _ _ = Ok _ |- _ =>
        apply checkCapture_Ok in Hc
          as [[_ ->]|(vp & victim & cell & b & _ & _ & _ & _ & _ & ->)]
    end; done. }
  destruct He2 as [He2 Hcb2].
  res_step H. rename a0 into e3.
  assert (He3 : schedule e3 = schedule e2).
  { match goal with
    | Hm : _ = Ok e3 |- _ =>
        destruct cap as [vp|]; [res_step Hm; [res_step Hm|]|]; simplify_eq;
        destruct (OnTokenMoved (callbacks e2)); reflexivity
    end. }
  res_step H. destruct a0 as [e4 won].
  match goal with
  | Hw : checkWin _ _ _ = Ok _ |- _ => apply checkWin_Ok in Hw as [_ ->]
  end.
  rewrite Hsix in H. change (6 =? RollForExtraTurn) with true in H.
  cbn [negb] in H.
  destruct won; injection H as <- <-.
  - unfold endGame. cbv zeta. rewrite fire_schedule.
    transitivity (schedule e3); [reflexivity | by rewrite He3, He2].
  - by rewrite He3, He2.
Qed.



End AITurn.

Section AIFirstTurn.
Import game enginespec aispec aiturn.

Lemma Start_schedule e0 raw e p :
  Start e0 raw = Ok (e, None) ->
  index (players e) (Room.CurrentTurn (room e)) = Ok p ->
  players e = players e0
  /\ rollCount e = rollCount e0
  /\ aiTasks e
     = aiTasks e0 ++ (if Player.IsAI p
                      then [Z.to_nat (Room.CurrentTurn (room e))] else [])
  /\ turnTimer e
     = (if Player.IsAI p then turnTimer e0 else Some (Player.ID p)).
Proof.
  unfold Start. res_unfold. intros H Hp.
  res_step H; [discriminate|]. res_step H; [discriminate|].
  res_step H. injection H as <-.
  assert (Hq : a = p).
  { destruct (Player.IsAI a), (OnTurnChanged (callbacks e0));
      cbn in Hp, E1; congruence. }
  subst a.
  destruct (Player.IsAI p), (OnTurnChanged (callbacks e0)); cbn;
    rewrite ?app_nil_r; done.
Qed.

Lemma handleAITurn_extra_frame e seat rawDice rawPick e' player e1 v err :
  handleAITurn e seat rawDice rawPick = Ok e' ->
  index (players e) (Z.of_nat seat) = Ok player ->
  RollDice e (Player.ID player) rawDice = Ok (e1, (v, true, err)) ->
  schedule e' = schedule e.
Proof.
  intros H Hplayer Hroll. unfold handleAITurn in H.
  rewrite Hplayer in H. res_unfold. cbn [res_bind] in H. cbv zeta in H.
  rewrite Hroll in H. cbn [res_bind] in H.
  apply RollDice_extra_frame in Hroll as (Hs1 & Hsix & ->).
  rewrite <- Hs1.
  destruct (ai e !! Player.ID player) as [level|]; [|discriminate].
  res_step H. destruct a as [tp|].
  - res_step H. res_step H. destruct a0 as [e2 err2].
    injection H as <-. eapply MoveToken_six_frame; eassumption.
  - cbn [negb] in H. by injection H as <-.
Qed.

(** X26.  A game stops at the first turn of an AI.  When Start draws the
    seat of an AI, the turn of the AI that Start launches rolls a 6 that
    earns an extra turn, and when it is over it is still the AI's turn,
    no other AI turn has been launched and no timer is armed: nothing is
    left that would make the game go on. *)
Theorem first_AI_turn_stalls
    seats maxPlayers callbacks raw e seat player rawDice rawPick e' :
  Start (freshEngine seats maxPlayers callbacks) raw = Ok (e, None) ->
  Room.CurrentTurn (room e) = Z.of_nat seat ->
  index (players e) (Z.of_nat seat) = Ok player ->
  Player.IsAI player = true ->
  handleAITurn e seat rawDice rawPick = Ok e' ->
  (exists e1, RollDice e (Player.ID player) rawDice = Ok (e1, (6, true, None)))
  /\ Room.CurrentTurn (room e') = Z.of_nat seat
  /\ aiTasks e' = [seat]
  /\ turnTimer e' = None.
Proof.
  intros Hstart Hturn Hplayer Hai Hrun.
  pose proof Hplayer as Hp. rewrite <- Hturn in Hp.
  destruct (Start_schedule _ _ _ _ Hstart Hp) as (Hpl & Hrc & Hat & Htt).
  rewrite Hai in Hat, Htt.
  assert (Hfresh : aiTasks (freshEngine seats maxPlayers callbacks) = []
                   /\ turnTimer (freshEngine seats maxPlayers callbacks) = None
                   /\ default 0 (rollCount (freshEngine seats maxPlayers
                                              callbacks) !! Player.ID player)
                      = 0
                   /\ Forall (fun p => Player.ConsecutiveSix p = 0)
                             (players (freshEngine seats maxPlayers callbacks))).
  { unfold freshEngine. destruct (seatAll [] seats) as [h ps] eqn:Hs.
    split; [reflexivity|]. split; [reflexivity|].
    split; [apply NewEngine_rollCount|].
    apply seatAll_seated in Hs as [_ Hps]. cbn.
    eapply Forall_impl; [exact Hps|]. by intros p [? _]. }
  destruct Hfresh as (Hat0 & Htt0 & Hrc0 & Hsix0).
  rewrite Hat0 in Hat. rewrite Htt0 in Htt. rewrite <- Hrc in Hrc0.
  rewrite <- Hpl in Hsix0.
  assert (Hsix : Player.ConsecutiveSix player = 0).
  { rewrite Forall_forall in Hsix0. apply Hsix0.
    apply index_Ok in Hplayer as [_ Hplayer].
    eapply list_elem_of_lookup_2. exact Hplayer. }
  (* the roll of the AI's turn *)
  assert (Hroll : exists e1 v x err,
             RollDice e (Player.ID player) rawDice = Ok (e1, (v, x, err))).
  { unfold handleAITurn in Hrun. rewrite Hplayer in Hrun.
    res_unfold. cbn [res_bind] in Hrun. cbv zeta in Hrun.
    destruct (RollDice e (Player.ID player) rawDice)
      as [[e1 [[v x] err]]|]; [|discriminate]. by eexists _, _, _, _. }
  destruct Hroll as (e1 & v & x & err & Hroll).
  pose proof Hroll as Hr.
  apply RollDice_Ok in Hr as (q & Hq & Hcase).
  rewrite Hp in Hq. injection Hq as <-.
  destruct Hcase as [(Hne & _)|(_ & -> & Hv & Hx & _)]; [done|].
  rewrite Hrc0 in Hv. change (wrap64 (0 + 1)) with 1 in Hv.
  change (rolled 1 rawDice) with 6 in Hv. subst v.
  rewrite Hsix in Hx. cbn in Hx. subst x.
  split; [by exists e1|].
  pose proof (handleAITurn_extra_frame _ _ _ _ _ _ _ _ _ Hrun Hplayer Hroll)
    as Hs.
  unfold schedule in Hs. injection Hs as Hc Ha Ht.
  rewrite Hc, Ha, Ht, Hat, Htt, Hturn. cbn. by rewrite Nat2Z.id.
Qed.

Lemma first_AI_turn_stalls_witness :
  (exists e1, RollDice robotGame (Player.ID (scenario.seated robotGame 0)) 3
              = Ok (e1, (6, true, None)))
  /\ Room.CurrentTurn (room robotPlayed) = Z.of_nat 0
  /\ aiTasks robotPlayed = [0%nat]
  /\ turnTimer robotPlayed = None.
Proof.
  apply (first_AI_turn_stalls robotSeats 4 scenario.allCallbacks 0 robotGame
           0 (scenario.seated robotGame 0) 3 4 robotPlayed).
  - vm_compute. reflexivity.
  - vm_compute. reflexivity.
  - vm_compute. reflexivity.
  - vm_compute. reflexivity.
  - vm_compute. reflexivity.
Defined.

End AIFirstTurn.

Section AIRegistry.
Import game enginespec.

Lemma seatAll_seatedAs seats : forall h h' ps,
  seatAll h seats = (h', ps) -> Forall2 seatedAs seats ps.
Proof.
  induction seats as [|s seats IH]; intros h h' ps H; cbn [seatAll] in H.
  - simplify_eq. constructor.
  - destruct s as [id username color|color level];
      [|unfold NewAIPlayer in H];
      destruct (NewPlayer h _ _ _) as [h1 pl] eqn:Hn;
      destruct (seatAll h1 seats) as [h2 ps'] eqn:Hs; simplify_eq;
      (constructor; [|by eapply IH]);
      unfold NewPlayer in Hn; simplify_eq; done.
Qed.

Lemma ai_registry_fold seats ps :
  Forall2 seatedAs seats ps ->
  forall m : gmap Z string,
    foldl (fun m player =>
             if Player.IsAI player
             then <[Player.ID player := Player.AILevel player]> m else m)
          m ps
    = match lastRobot seats None with
      | Some level => <[0 := level]> m
      | None => m
      end
    /\ forall level0,
         foldl (fun m player =>
                  if Player.IsAI player
                  then <[Player.ID player := Player.AILevel player]> m else m)
               (<[0 := level0]> m) ps
         = match lastRobot seats (Some level0) with
           | Some level => <[0 := level]> m
           | None => m
           end.
Proof.
  induction 1 as [|s p seats ps Hs _ IH]; intros m.
  - split; [reflexivity|]. intros level0. reflexivity.
  - destruct s as [id username color|color level]; cbn in Hs.
    + destruct Hs as [_ Hai]. cbn [foldl lastRobot]. rewrite Hai.
      split; [apply IH|]. intros level0. apply IH.
    + destruct Hs as (Hid & Hai & Hl). cbn [foldl lastRobot].
      rewrite Hai, Hid, Hl. split; [apply IH|].
      intros level0. rewrite insert_insert_eq. apply IH.
Qed.

(** X27.  All AI players are one player to the engine.  Every AI seated
    by NewAIPlayer has the player id 0, so the engine registers a single
    AI, under the id 0 and with the level of the last AI seated, whatever
    the levels of the others; and there is no AI registered when none is
    seated. *)
Theorem AI_players_share_one_id seats maxPlayers callbacks :
  ai (freshEngine seats maxPlayers callbacks)
  = match lastRobot seats None with
    | Some level => {[0 := level]}
    | None => ∅
    end
  /\ Forall (fun p => Player.IsAI p = true -> Player.ID p = 0)
            (players (freshEngine seats maxPlayers callbacks)).
Proof.
  unfold freshEngine. destruct (seatAll [] seats) as [h ps] eqn:Hs.
  apply seatAll_seatedAs in Hs. split.
  - cbn. rewrite (proj1 (ai_registry_fold seats ps Hs ∅)).
    destruct (lastRobot seats None); [|reflexivity].
    by rewrite insert_empty.
  - cbn. clear -Hs. induction Hs as [|s p seats ps Hsp _ IH]; constructor.
    + destruct s; cbn in Hsp; [|by destruct Hsp].
      destruct Hsp as [_ Hai]. intros Hai'. congruence.
    + exact IH.
Qed.

End AIRegistry.
